(** * FarmBot: the decision-and-execution engine of [bot.py]

    A shallow embedding of the [FarmBot] class.  Every method is a
    computation in a small monad of state and exceptions that also
    collects, in order, the calls made to the chain and the records
    logged.  The chain is an arbitrary, possibly stateful responder.
    Python's numbers are modelled at the value level: [int] is [Z],
    [Decimal] is a coefficient and an exponent under the default 28-digit
    context, [float] is a dyadic number obtained by rounding exact
    rationals to binary64. *)

From Stdlib Require Import ZArith QArith Qpower Qabs Lia Lra List String Ascii Bool.
From Stdlib Require Import Floats.SpecFloat.
Import ListNotations.
Local Open Scope Z_scope.

(* ===================================================================== *)
(** * Part I: the model *)
(* ===================================================================== *)

(** ** Python exceptions

    [except Exception] catches every class below except the two that only
    derive from [BaseException]. *)

Inductive exn : Type :=
| ValueError (msg : string)
| ConnectionError (msg : string)
| OverflowError (msg : string)
| ZeroDivisionError (msg : string)
| InvalidOperation
| Web3Exception (msg : string)
| KeyboardInterrupt
| SystemExit.

Definition is_Exception (e : exn) : bool :=
  match e with
  | KeyboardInterrupt | SystemExit => false
  | _ => true
  end.

(** A fallible pure computation: [inl e] is [raise e]. *)
Definition result (A : Type) : Type := (exn + A)%type.

(** ** Rounding to nearest, ties to even

    [div_half_even a b] is the integer nearest to [a / b] for [0 <= a] and
    [0 < b]; it is the rounding step shared by [Decimal] (ROUND_HALF_EVEN)
    and by binary64 arithmetic. *)

Definition div_half_even (a b : Z) : Z :=
  let q := a / b in
  let r := a mod b in
  match 2 * r ?= b with
  | Lt => q
  | Gt => q + 1
  | Eq => if Z.even q then q else q + 1
  end.

(** ** [decimal.Decimal] under the default context
    (prec = 28, ROUND_HALF_EVEN)

    A finite decimal is [coef * 10 ^ expo].  The sign of zero, the special
    values and the exponent limits (|exponent| <= 999999) are not part of
    the model. *)

Module Decimal.

Record t : Type := mk { coef : Z; expo : Z }.

Definition prec : Z := 28.

(** Number of decimal digits of a non-negative integer, [len(str(n))]. *)
Fixpoint ndigits_fuel (fuel : nat) (n : Z) : Z :=
  match fuel with
  | O => 0
  | S f => if n <? 10 then 1 else 1 + ndigits_fuel f (n / 10)
  end.

Definition ndigits (n : Z) : Z :=
  ndigits_fuel (S (Z.to_nat (Z.log2 n))) n.

(** The context rounding applied to the exact result of every
    arithmetic operation: results of more than [prec] digits are rounded
    to [prec] digits, half to even. *)
Definition fix_ (d : t) : t :=
  let a := Z.abs (coef d) in
  let n := ndigits a in
  if n <=? prec then d
  else
    let k := n - prec in
    let q := div_half_even a (10 ^ k) in
    if q =? 10 ^ prec
    then mk (Z.sgn (coef d) * 10 ^ (prec - 1)) (expo d + k + 1)
    else mk (Z.sgn (coef d) * q) (expo d + k).

Definition opp (a : t) : t := mk (- coef a) (expo a).

Definition add_exact (a b : t) : t :=
  let e := Z.min (expo a) (expo b) in
  mk (coef a * 10 ^ (expo a - e) + coef b * 10 ^ (expo b - e)) e.

Definition sub_exact (a b : t) : t := add_exact a (opp b).

Definition mul_exact (a b : t) : t :=
  mk (coef a * coef b) (expo a + expo b).

(** [a + b], [a - b], [a * b] *)
Definition add (a b : t) : t := fix_ (add_exact a b).
Definition sub (a b : t) : t := fix_ (sub_exact a b).
Definition mul (a b : t) : t := fix_ (mul_exact a b).

Definition compare (a b : t) : comparison :=
  let e := Z.min (expo a) (expo b) in
  (coef a * 10 ^ (expo a - e) ?= coef b * 10 ^ (expo b - e)).

(** [a < b] *)
Definition ltb (a b : t) : bool :=
  match compare a b with Lt => true | _ => false end.

(** [int(d)]: truncation toward zero *)
Definition to_int (d : t) : Z :=
  if 0 <=? expo d then coef d * 10 ^ expo d
  else Z.quot (coef d) (10 ^ (- expo d)).

(** [Decimal(n)] for an [int] *)
Definition of_int (n : Z) : t := mk n 0.

(** The rational number a decimal denotes. *)
Definition toQ (d : t) : Q := inject_Z (coef d) * Qpower 10 (expo d).

End Decimal.

Arguments Decimal.add : simpl never.
Arguments Decimal.sub : simpl never.
Arguments Decimal.mul : simpl never.
Arguments Decimal.ltb : simpl never.
Arguments Decimal.to_int : simpl never.

(** ** Python [float] (IEEE-754 binary64), at the value level

    A finite float is the dyadic number [m * 2 ^ e].  Every operation is
    the exact rational result rounded by [round_binary64]. *)

Module PyFloat.

Inductive t : Type :=
| Fin (m e : Z)
| Inf (neg : bool)
| NaN.

(** For [0 < a] and [0 < b], the [l] with [2^l <= a / b < 2^(l+1)]. *)
Definition floor_log2_ratio (a b : Z) : Z :=
  let l := Z.log2 a - Z.log2 b in
  if (if 0 <=? l then b * 2 ^ l <=? a else b <=? a * 2 ^ (- l))
  then l else l - 1.

(** The binary64 number nearest to [num / den] ([0 < den]), ties to
    even: a 53-bit significand, minimal exponent -1074, overflow to
    infinity from 2^1024. *)
Definition round_binary64 (num den : Z) : t :=
  if num =? 0 then Fin 0 0
  else
    let a := Z.abs num in
    let e := Z.max (floor_log2_ratio a den - 52) (-1074) in
    let m := if 0 <=? e then div_half_even a (den * 2 ^ e)
             else div_half_even (a * 2 ^ (- e)) den in
    if (971 <? e) || ((e =? 971) && (m =? 2 ^ 53))
    then Inf (num <? 0)
    else Fin (Z.sgn num * m) e.

(** [float(n)] for an [int] *)
Definition of_int (n : Z) : result t :=
  match round_binary64 n 1 with
  | Fin m e => inr (Fin m e)
  | _ => inl (OverflowError "int too large to convert to float")
  end.

(** [a / b] for two [int]s (true division) *)
Definition int_truediv (a b : Z) : result t :=
  if b =? 0 then inl (ZeroDivisionError "division by zero")
  else
    match round_binary64 (a * Z.sgn b) (Z.abs b) with
    | Fin m e => inr (Fin m e)
    | _ => inl (OverflowError "integer division result too large for a float")
    end.

(** [x * y] for two [float]s *)
Definition mul (x y : t) : t :=
  match x, y with
  | Fin m1 e1, Fin m2 e2 =>
      let s := e1 + e2 in
      if 0 <=? s then round_binary64 (m1 * m2 * 2 ^ s) 1
      else round_binary64 (m1 * m2) (2 ^ (- s))
  | Fin m _, Inf s | Inf s, Fin m _ =>
      if m =? 0 then NaN else Inf (xorb s (m <? 0))
  | Inf s1, Inf s2 => Inf (xorb s1 s2)
  | NaN, _ | _, NaN => NaN
  end.

(** [x / y] for two [float]s *)
Definition div (x y : t) : result t :=
  match x, y with
  | Fin m1 e1, Fin m2 e2 =>
      if m2 =? 0 then inl (ZeroDivisionError "float division by zero")
      else
        let e := Z.min e1 e2 in
        inr (round_binary64 (m1 * 2 ^ (e1 - e) * Z.sgn m2)
                            (Z.abs m2 * 2 ^ (e2 - e)))
  | Fin m _, Inf _ => inr (Fin 0 0)
  | Inf s, Fin m _ =>
      if m =? 0 then inl (ZeroDivisionError "float division by zero")
      else inr (Inf (xorb s (m <? 0)))
  | _, _ => inr NaN
  end.

(** [int(x)]: truncation toward zero *)
Definition to_int (x : t) : result Z :=
  match x with
  | Fin m e =>
      inr (if 0 <=? e then m * 2 ^ e else Z.quot m (2 ^ (- e)))
  | Inf _ => inl (OverflowError "cannot convert float infinity to integer")
  | NaN => inl (ValueError "cannot convert float NaN to integer")
  end.

(** [float(d)] for a [Decimal] *)
Definition of_Decimal (d : Decimal.t) : t :=
  if 0 <=? Decimal.expo d
  then round_binary64 (Decimal.coef d * 10 ^ Decimal.expo d) 1
  else round_binary64 (Decimal.coef d) (10 ^ (- Decimal.expo d)).

(** [n * y] and [n / y] for an [int] and a [float]: the [int] is
    converted first. *)
Definition int_mul (n : Z) (y : t) : result t :=
  match of_int n with
  | inl e => inl e
  | inr x => inr (mul x y)
  end.

Definition int_div (n : Z) (y : t) : result t :=
  match of_int n with
  | inl e => inl e
  | inr x => div x y
  end.

(** The literals [1.2] and [1e6]. *)
Definition lit_1_2 : t := Fin 5404319552844595 (-52).
Definition lit_1e6 : t := Fin 1000000 0.

(** The rational number a finite float denotes. *)
Definition toQ (x : t) : Q :=
  match x with
  | Fin m e => inject_Z m * Qpower 2 e
  | _ => 0%Q
  end.

(** The same number as a canonical [spec_float] of the standard
    library's binary64 specification. *)
Definition to_spec (x : t) : spec_float :=
  match x with
  | Fin m e => binary_normalize 53 1024 m e false
  | Inf s => S754_infinity s
  | NaN => S754_nan
  end.

End PyFloat.

Arguments PyFloat.round_binary64 : simpl never.
Arguments PyFloat.int_truediv : simpl never.
Arguments PyFloat.int_mul : simpl never.
Arguments PyFloat.int_div : simpl never.
Arguments PyFloat.of_Decimal : simpl never.
Arguments PyFloat.to_int : simpl never.

(** ** Text to number conversions of the configuration

    [int(s)] and [Decimal(s)] for the plain literal syntax: an optional
    sign, decimal digits, and for [Decimal] an optional fraction and
    exponent.  On a text of this syntax the two functions return what
    Python returns.  Python accepts more: surrounding blanks, underscores
    between digits, digits outside ASCII, and for [Decimal] the special
    values [NaN] and [Infinity]; such texts are outside this fragment, and
    nothing below infers from a failure of these functions that Python
    fails, except for the texts that hold a letter no number has. *)

Module Parse.

Definition digit (c : ascii) : option Z :=
  let n := Z.of_nat (nat_of_ascii c) in
  if (48 <=? n) && (n <=? 57) then Some (n - 48) else None.

(** Reads a maximal run of digits: accumulated value, number of digits
    read, and the rest of the text. *)
Fixpoint digits (s : string) (acc : Z) (count : Z) : Z * Z * string :=
  match s with
  | String c s' =>
      match digit c with
      | Some d => digits s' (10 * acc + d) (count + 1)
      | None => (acc, count, s)
      end
  | EmptyString => (acc, count, s)
  end.

Definition sign (s : string) : Z * string :=
  match s with
  | String "-"%char s' => (-1, s')
  | String "+"%char s' => (1, s')
  | _ => (1, s)
  end.

Definition int (s : string) : result Z :=
  let '(sg, s1) := sign s in
  match digits s1 0 0 with
  | (v, n, EmptyString) =>
      if 0 <? n then inr (sg * v)
      else inl (ValueError "invalid literal for int() with base 10")
  | _ => inl (ValueError "invalid literal for int() with base 10")
  end.

Definition exponent (s : string) : option Z :=
  match s with
  | EmptyString => Some 0
  | String c s' =>
      if (Ascii.eqb c "e" || Ascii.eqb c "E")%bool then
        let '(sg, s1) := sign s' in
        match digits s1 0 0 with
        | (v, n, EmptyString) => if 0 <? n then Some (sg * v) else None
        | _ => None
        end
      else None
  end.

Definition decimal (s : string) : result Decimal.t :=
  let '(sg, s1) := sign s in
  let '(ip, n1, s2) := digits s1 0 0 in
  let '(cf, n2, s3) :=
    match s2 with
    | String "."%char s' => digits s' ip 0
    | _ => (ip, 0, s2)
    end in
  match exponent s3 with
  | Some ex =>
      if 0 <? n1 + n2 then inr (Decimal.mk (sg * cf) (ex - n2))
      else inl InvalidOperation
  | None => inl InvalidOperation
  end.

End Parse.

(** ** Ether units ([Web3.to_wei], [Web3.from_wei])

    Wei amounts are the integers of [0, 2^256 - 1]; both conversions raise
    [ValueError] outside that range. *)

Definition MAX_WEI : Z := 2 ^ 256 - 1.

(** [w3.to_wei(n, 'gwei')] for an [int] *)
Definition to_wei_gwei (n : Z) : result Z :=
  let v := n * 10 ^ 9 in
  if (v <? 0) || (MAX_WEI <? v)
  then inl (ValueError "Resulting wei value must be between 1 and 2**256 - 1")
  else inr v.

(** [w3.from_wei(n, 'ether')]: the exact quotient by 10^18 (computed by
    the library under a 999-digit context). *)
Definition from_wei_ether (n : Z) : result Decimal.t :=
  if n =? 0 then inr (Decimal.of_int 0)
  else if (n <? 0) || (MAX_WEI <? n)
  then inl (ValueError "value must be between 1 and 2**256 - 1")
  else inr (Decimal.mk n (-18)).

(** ** Data exchanged with the chain *)

Definition address : Type := string.
Definition HexBytes : Type := string.

(** The dictionary passed to [build_transaction]. *)
Record TxParams : Type := mkTxParams {
  tx_from : address;
  tx_value : Z;
  tx_gas : Z;
  tx_gasPrice : Z;
  tx_nonce : Z
}.

(** The dictionary [build_transaction] returns: the parameters, completed
    with the call data of [executeIfProfitable(amount, min_out)]. *)
Record TxDict : Type := mkTxDict {
  td_params : TxParams;
  td_to : address;
  td_data : HexBytes
}.

Record Receipt : Type := mkReceipt {
  rc_status : Z;
  rc_gasUsed : Z
}.

(** Every call that leaves the process: contract reads, node reads, the
    chain-write interface, the account library and the clock. *)
Inductive op : Type :=
| OpIsConnected                                   (* w3.is_connected() *)
| OpFromKey (key : string)                        (* Account.from_key(key).address *)
| OpLoadContract (addr : string)                  (* to_checksum_address + w3.eth.contract *)
| OpGetStatus                                     (* getStatus().call() *)
| OpShouldExecute                                 (* shouldExecute().call() *)
| OpDefaultSwapAmount                             (* defaultSwapAmount().call() *)
| OpGasPrice                                      (* w3.eth.gas_price *)
| OpGetBalance (a : address)                      (* w3.eth.get_balance(a) *)
| OpGetTransactionCount (a : address)             (* w3.eth.get_transaction_count(a) *)
| OpEstimateGas (amount min_out : Z) (from : address) (value : Z)
| OpBuildTransaction (amount min_out : Z) (p : TxParams)
| OpSignTransaction (tx : TxDict)                 (* account.sign_transaction(tx).rawTransaction *)
| OpSendRawTransaction (raw : HexBytes)           (* w3.eth.send_raw_transaction(raw) *)
| OpWaitForReceipt (tx_hash : HexBytes) (timeout : Z)
| OpSleep (secs : Z).                             (* time.sleep(secs) *)

Definition resp (o : op) : Type :=
  match o with
  | OpIsConnected => bool
  | OpFromKey _ => address
  | OpLoadContract _ => address
  | OpGetStatus => (Z * bool * Z * Z)%type
  | OpShouldExecute => bool
  | OpDefaultSwapAmount => Z
  | OpGasPrice => Z
  | OpGetBalance _ => Z
  | OpGetTransactionCount _ => Z
  | OpEstimateGas _ _ _ _ => Z
  | OpBuildTransaction _ _ _ => TxDict
  | OpSignTransaction _ => HexBytes
  | OpSendRawTransaction _ => HexBytes
  | OpWaitForReceipt _ _ => Receipt
  | OpSleep _ => unit
  end.

(** The remote side: any state type with a responder.  A call either
    returns a value of the call's result type or raises. *)
Class Chain (World : Type) : Type :=
  perform : forall o : op, World -> result (resp o) * World.

(** ** Log records *)

Inductive level : Type := INFO | WARNING | ERROR.

Inductive log_msg : Type :=
| MsgInitialized (a : address)          (* "FarmBot initialized for address: ..." *)
| MsgContractAddress (a : string)       (* "Contract address: ..." *)
| MsgPollInterval (n : Z)               (* "Poll interval: ... seconds" *)
| MsgGasPriceFailed (e : exn)           (* "Failed to get gas price: ..." *)
| MsgStatusFailed (e : exn)             (* "Failed to get contract status: ..." *)
| MsgAprNotMet                          (* "APR threshold not met, skipping execution" *)
| MsgInsufficientBalance (have need : Decimal.t)
                                        (* "Insufficient ETH balance. Have: ..., Need: ..." *)
| MsgGasEstimationFailed (e : exn)      (* "Gas estimation failed: ..." *)
| MsgTransactionSent (h : HexBytes)     (* "Transaction sent: ..." *)
| MsgAmounts (eth_amount min_usdc_out : Decimal.t)
                                        (* "ETH Amount: ..., Min USDC: ..." *)
| MsgSwapExecuted (gas_used : Z)        (* "Swap executed successfully! Gas used: ..." *)
| MsgTransactionFailed                  (* "Transaction failed" *)
| MsgExecuteSwapFailed (e : exn)        (* "Failed to execute swap: ..." *)
| MsgCheck                              (* "=== FarmBot Check ===" *)
| MsgNoStatus                           (* "Failed to get contract status" *)
| MsgCurrentApr (pct : PyFloat.t)       (* "Current USDC APR: ...%" *)
| MsgShouldExecute (b : bool)           (* "Should execute: ..." *)
| MsgAccountBalance (x : PyFloat.t)     (* "Account ETH balance: ... ETH" *)
| MsgContractEth (d : Decimal.t)        (* "Contract ETH balance: ... ETH" *)
| MsgContractUsdc (x : PyFloat.t)       (* "Contract USDC balance: ... USDC" *)
| MsgConditionsMet                      (* "Conditions met! Executing swap..." *)
| MsgSwapCompleted                      (* "Swap completed successfully!" *)
| MsgSwapExecutionFailed                (* "Swap execution failed" *)
| MsgWaiting                            (* "Waiting for better APR conditions..." *)
| MsgDaemonStarting                     (* "FarmBot daemon starting..." *)
| MsgSleeping (n : Z)                   (* "Sleeping for ... seconds..." *)
| MsgDaemonStopped                      (* "FarmBot daemon stopped by user" *)
| MsgDaemonCrashed (e : exn).           (* "FarmBot daemon crashed: ..." *)

(** What a run leaves behind, in order: the calls it made and the records
    it logged. *)
Inductive event : Type :=
| EvCall (o : op)
| EvLog (l : level) (m : log_msg).

(** ** The monad: state, exceptions, and the events emitted *)

Definition M (S A : Type) : Type := S -> result A * S * list event.

Definition ret {S A} (x : A) : M S A := fun s => (inr x, s, []).

Definition bind {S A B} (m : M S A) (f : A -> M S B) : M S B :=
  fun s =>
    let '(r, s1, t1) := m s in
    match r with
    | inl e => (inl e, s1, t1)
    | inr x => let '(r2, s2, t2) := f x s1 in (r2, s2, t1 ++ t2)
    end.

Definition raise {S A} (e : exn) : M S A := fun s => (inl e, s, []).

Definition lift {S A} (r : result A) : M S A := fun s => (r, s, []).

Definition log {S} (l : level) (m : log_msg) : M S unit :=
  fun s => (inr tt, s, [EvLog l m]).

(** [try: m  except <classes> as e: h e], where [catches] selects the
    exceptions the clause matches; anything else propagates. *)
Definition try_with {S A} (catches : exn -> bool) (m : M S A) (h : exn -> M S A)
  : M S A :=
  fun s =>
    let '(r, s1, t1) := m s in
    match r with
    | inl e =>
        if catches e
        then let '(r2, s2, t2) := h e s1 in (r2, s2, t1 ++ t2)
        else (inl e, s1, t1)
    | inr x => (inr x, s1, t1)
    end.

(** [try: m  except Exception as e: h e] *)
Definition try_except {S A} (m : M S A) (h : exn -> M S A) : M S A :=
  try_with is_Exception m h.

Declare Scope py_scope.
Delimit Scope py_scope with py.
Notation "x <- c ;; k" := (bind c (fun x => k))
  (at level 61, c at next level, right associativity) : py_scope.
Notation "' p <- c ;; k" := (bind c (fun x => match x with p => k end))
  (at level 61, p pattern, c at next level, right associativity) : py_scope.
Notation "c ;; k" := (bind c (fun _ => k))
  (at level 61, right associativity) : py_scope.
Local Open Scope py_scope.

(** ** The bot *)

(** The attributes [__init__] sets on [self]. *)
Record FarmBot : Type := mkFarmBot {
  rpc_url : option string;
  private_key : string;
  contract_address : string;
  address_ : address;            (* self.address *)
  contract : address;            (* self.contract, bound to this address *)
  poll_interval : Z;
  max_gas_price : Z;
  min_eth_balance : Decimal.t;
  slippage_tolerance : Decimal.t
}.

(** The dictionary [get_status] builds. *)
Record Status : Type := mkStatus {
  current_apr : Z;
  current_apr_percentage : PyFloat.t;
  should_execute : bool;
  contract_eth_balance : Decimal.t;
  contract_usdc_balance : PyFloat.t;
  account_eth_balance : PyFloat.t
}.

(** The process environment read by [os.getenv]. *)
Definition Env : Type := string -> option string.

(** [int(os.getenv(k, default))] with an [int] default *)
Definition getenv_int (env : Env) (k : string) (default : Z) : result Z :=
  match env k with
  | Some s => Parse.int s
  | None => inr default
  end.

(** [Decimal(os.getenv(k, default))] with a [str] default *)
Definition getenv_Decimal (env : Env) (k default : string) : result Decimal.t :=
  match env k with
  | Some s => Parse.decimal s
  | None => Parse.decimal default
  end.

(** Truthiness of [os.getenv(k)]: unset and empty are both falsy. *)
Definition truthy (v : option string) : option string :=
  match v with
  | Some EmptyString => None
  | other => other
  end.

Section Bot.

Context {World : Type} `{Chain World}.

(** The state the methods run in: the object and the chain. *)
Record St : Type := mkSt { self_ : FarmBot; chain : World }.

(** A call made while no object exists yet (inside [__init__]). *)
Definition call0 (o : op) : M World (resp o) :=
  fun w => let '(r, w') := perform o w in (r, w', [EvCall o]).

Definition call (o : op) : M St (resp o) :=
  fun s =>
    let '(r, w') := perform o (chain s) in
    (r, mkSt (self_ s) w', [EvCall o]).

Definition get_self : M St FarmBot := fun s => (inr (self_ s), s, []).

(** [FarmBot.__init__] *)
Definition init (env : Env) : M World FarmBot :=
  let rpc_url := env "RPC_URL"%string in
  match truthy (env "PRIVATE_KEY"%string) with
  | None => raise (ValueError "PRIVATE_KEY environment variable is required")
  | Some private_key =>
      match truthy (env "FARMBOT_CONTRACT_ADDRESS"%string) with
      | None =>
          raise (ValueError "FARMBOT_CONTRACT_ADDRESS environment variable is required")
      | Some contract_address =>
          connected <- call0 OpIsConnected ;;
          if negb connected
          then raise (ConnectionError "Failed to connect")
          else
            address <- call0 (OpFromKey private_key) ;;
            contract <- call0 (OpLoadContract contract_address) ;;
            poll_interval <- lift (getenv_int env "POLL_INTERVAL" 300) ;;
            max_gas_price <- lift (getenv_int env "MAX_GAS_PRICE" 50) ;;
            min_eth_balance <- lift (getenv_Decimal env "MIN_ETH_BALANCE" "0.1") ;;
            slippage_tolerance <-
              lift (getenv_Decimal env "SLIPPAGE_TOLERANCE" "0.05") ;;
            log INFO (MsgInitialized address) ;;
            log INFO (MsgContractAddress contract_address) ;;
            log INFO (MsgPollInterval poll_interval) ;;
            ret (mkFarmBot rpc_url private_key contract_address address contract
                   poll_interval max_gas_price min_eth_balance
                   slippage_tolerance)
      end
  end.

(** [FarmBot.get_gas_price] *)
Definition get_gas_price : M St Z :=
  try_except
    (gas_price <- call OpGasPrice ;;
     self <- get_self ;;
     max_gas_price_wei <- lift (to_wei_gwei (max_gas_price self)) ;;
     ret (Z.min gas_price max_gas_price_wei))
    (fun e =>
       log ERROR (MsgGasPriceFailed e) ;;
       lift (to_wei_gwei 20)).

(** [FarmBot.get_eth_balance] *)
Definition get_eth_balance : M St Decimal.t :=
  self <- get_self ;;
  balance_wei <- call (OpGetBalance (address_ self)) ;;
  lift (from_wei_ether balance_wei).

(** [FarmBot.get_status]; [None] is the empty dictionary. *)
Definition get_status : M St (option Status) :=
  try_except
    ('(current_apr, should_exec, eth_balance, usdc_balance) <- call OpGetStatus ;;
     percentage <- lift (PyFloat.int_truediv current_apr 100) ;;
     contract_eth <- lift (from_wei_ether eth_balance) ;;
     contract_usdc <- lift (PyFloat.int_div usdc_balance PyFloat.lit_1e6) ;;
     account_eth <- get_eth_balance ;;
     ret (Some (mkStatus current_apr percentage should_exec contract_eth
                  contract_usdc (PyFloat.of_Decimal account_eth))))
    (fun e =>
       log ERROR (MsgStatusFailed e) ;;
       ret None).

(** [FarmBot.estimate_usdc_output] *)
Definition estimate_usdc_output (eth_amount : Decimal.t) : M St Decimal.t :=
  self <- get_self ;;
  let eth_price_usd := 2500 in
  let usdc_amount := Decimal.mul eth_amount (Decimal.of_int eth_price_usd) in
  ret (Decimal.mul usdc_amount
         (Decimal.sub (Decimal.of_int 1) (slippage_tolerance self))).

(** [FarmBot.execute_swap] *)
Definition execute_swap : M St bool :=
  try_except
    (should_execute <- call OpShouldExecute ;;
     if negb should_execute then
       log INFO MsgAprNotMet ;;
       ret false
     else
       default_swap_amount <- call OpDefaultSwapAmount ;;
       eth_amount <- lift (from_wei_ether default_swap_amount) ;;
       account_balance <- get_eth_balance ;;
       self <- get_self ;;
       let required_balance :=
         Decimal.add (Decimal.add eth_amount (min_eth_balance self))
                     (Decimal.mk 5 (-2)) in
       if Decimal.ltb account_balance required_balance then
         log WARNING (MsgInsufficientBalance account_balance required_balance) ;;
         ret false
       else
         min_usdc_out <- estimate_usdc_output eth_amount ;;
         let min_usdc_out_wei :=
           Decimal.to_int (Decimal.mul min_usdc_out (Decimal.mk 1 6)) in
         gas_price <- get_gas_price ;;
         gas_limit <-
           try_except
             (gas_estimate <-
                call (OpEstimateGas default_swap_amount min_usdc_out_wei
                        (address_ self) default_swap_amount) ;;
              scaled <- lift (PyFloat.int_mul gas_estimate PyFloat.lit_1_2) ;;
              lift (PyFloat.to_int scaled))
             (fun e =>
                log ERROR (MsgGasEstimationFailed e) ;;
                ret 500000) ;;
         nonce <- call (OpGetTransactionCount (address_ self)) ;;
         transaction <-
           call (OpBuildTransaction default_swap_amount min_usdc_out_wei
                   (mkTxParams (address_ self) default_swap_amount gas_limit
                      gas_price nonce)) ;;
         raw_transaction <- call (OpSignTransaction transaction) ;;
         tx_hash <- call (OpSendRawTransaction raw_transaction) ;;
         log INFO (MsgTransactionSent tx_hash) ;;
         log INFO (MsgAmounts eth_amount min_usdc_out) ;;
         receipt <- call (OpWaitForReceipt tx_hash 300) ;;
         if rc_status receipt =? 1 then
           log INFO (MsgSwapExecuted (rc_gasUsed receipt)) ;;
           ret true
         else
           log ERROR MsgTransactionFailed ;;
           ret false)
    (fun e =>
       log ERROR (MsgExecuteSwapFailed e) ;;
       ret false).

(** [FarmBot.run_once] *)
Definition run_once : M St unit :=
  log INFO MsgCheck ;;
  status <- get_status ;;
  match status with
  | None =>
      log ERROR MsgNoStatus ;;
      ret tt
  | Some status =>
      log INFO (MsgCurrentApr (current_apr_percentage status)) ;;
      log INFO (MsgShouldExecute (should_execute status)) ;;
      log INFO (MsgAccountBalance (account_eth_balance status)) ;;
      log INFO (MsgContractEth (contract_eth_balance status)) ;;
      log INFO (MsgContractUsdc (contract_usdc_balance status)) ;;
      if should_execute status then
        log INFO MsgConditionsMet ;;
        success <- execute_swap ;;
        if success then log INFO MsgSwapCompleted
        else log ERROR MsgSwapExecutionFailed
      else
        log INFO MsgWaiting
  end.

(** The body of [while True:] in [run_daemon], unrolled [n] times; the
    computation stops early exactly when an iteration raises. *)
Fixpoint daemon_loop (n : nat) : M St unit :=
  match n with
  | O => ret tt
  | S n' =>
      run_once ;;
      self <- get_self ;;
      log INFO (MsgSleeping (poll_interval self)) ;;
      call (OpSleep (poll_interval self)) ;;
      daemon_loop n'
  end.

(** [FarmBot.run_daemon], observed for the first [n] iterations of its
    loop. *)
Definition run_daemon (n : nat) : M St unit :=
  log INFO MsgDaemonStarting ;;
  try_with
    (fun e => match e with KeyboardInterrupt => true | _ => is_Exception e end)
    (daemon_loop n)
    (fun e =>
       match e with
       | KeyboardInterrupt => log INFO MsgDaemonStopped
       | _ => log ERROR (MsgDaemonCrashed e) ;; raise e
       end).

End Bot.

Arguments St World : clear implicits.

(** ** A scripted chain

    A stateless responder that answers every call from a fixed table: a
    value, or the message of a [Web3Exception] to raise.  It serves as the
    concrete chain of the examples. *)

Record Script : Type := mkScript {
  sc_is_connected : string + bool;
  sc_address : string + address;
  sc_status : string + (Z * bool * Z * Z);
  sc_should_execute : string + bool;
  sc_default_swap_amount : string + Z;
  sc_gas_price : string + Z;
  sc_balance : string + Z;
  sc_nonce : string + Z;
  sc_estimate_gas : string + Z;
  sc_build : option string;
  sc_raw : string + HexBytes;
  sc_tx_hash : string + HexBytes;
  sc_receipt : string + Receipt;
  sc_sleep : option string
}.

Definition answer {A : Type} (r : string + A) : result A :=
  match r with
  | inl msg => inl (Web3Exception msg)
  | inr x => inr x
  end.

Definition answer_with {A : Type} (failure : option string) (x : A) : result A :=
  match failure with
  | Some msg => inl (Web3Exception msg)
  | None => inr x
  end.

Definition script_perform (o : op) (w : Script) : result (resp o) :=
  match o as o' return result (resp o') with
  | OpIsConnected => answer (sc_is_connected w)
  | OpFromKey _ => answer (sc_address w)
  | OpLoadContract a => inr a
  | OpGetStatus => answer (sc_status w)
  | OpShouldExecute => answer (sc_should_execute w)
  | OpDefaultSwapAmount => answer (sc_default_swap_amount w)
  | OpGasPrice => answer (sc_gas_price w)
  | OpGetBalance _ => answer (sc_balance w)
  | OpGetTransactionCount _ => answer (sc_nonce w)
  | OpEstimateGas _ _ _ _ => answer (sc_estimate_gas w)
  | OpBuildTransaction _ _ p =>
      answer_with (sc_build w) (mkTxDict p "0xFarmBot"%string "executeIfProfitable"%string)
  | OpSignTransaction _ => answer (sc_raw w)
  | OpSendRawTransaction _ => answer (sc_tx_hash w)
  | OpWaitForReceipt _ _ => answer (sc_receipt w)
  | OpSleep _ => answer_with (sc_sleep w) tt
  end.

#[export] Instance Script_Chain : Chain Script :=
  fun o w => (script_perform o w, w).

(** A chain on which everything succeeds: the signal is on, the account
    holds 2 ether, the trade size is 1 ether, gas costs 30 gwei. *)
Definition happy_chain : Script :=
  mkScript (inr true) (inr "0xAccount"%string)
    (inr (450, true, 10 ^ 18, 5 * 10 ^ 6))
    (inr true) (inr (10 ^ 18)) (inr (30 * 10 ^ 9)) (inr (2 * 10 ^ 18))
    (inr 7) (inr 100000) None (inr "0xRaw"%string) (inr "0xHash"%string)
    (inr (mkReceipt 1 90000)) None.

(** The same chain, except that the wait for the receipt times out, and
    except that the receipt reports a revert. *)
Definition timeout_chain : Script :=
  mkScript (inr true) (inr "0xAccount"%string)
    (inr (450, true, 10 ^ 18, 5 * 10 ^ 6))
    (inr true) (inr (10 ^ 18)) (inr (30 * 10 ^ 9)) (inr (2 * 10 ^ 18))
    (inr 7) (inr 100000) None (inr "0xRaw"%string) (inr "0xHash"%string)
    (inl "TimeExhausted"%string) None.

Definition revert_chain : Script :=
  mkScript (inr true) (inr "0xAccount"%string)
    (inr (450, true, 10 ^ 18, 5 * 10 ^ 6))
    (inr true) (inr (10 ^ 18)) (inr (30 * 10 ^ 9)) (inr (2 * 10 ^ 18))
    (inr 7) (inr 100000) None (inr "0xRaw"%string) (inr "0xHash"%string)
    (inr (mkReceipt 0 90000)) None.

(** A chain whose status read fails, one whose signal is off in the status
    report, and one whose signal is on in the report but off when
    [execute_swap] reads it again. *)
Definition status_down_chain : Script :=
  mkScript (inr true) (inr "0xAccount"%string)
    (inl "connection timed out"%string)
    (inr true) (inr (10 ^ 18)) (inr (30 * 10 ^ 9)) (inr (2 * 10 ^ 18))
    (inr 7) (inr 100000) None (inr "0xRaw"%string) (inr "0xHash"%string)
    (inr (mkReceipt 1 90000)) None.

Definition signal_off_chain : Script :=
  mkScript (inr true) (inr "0xAccount"%string)
    (inr (120, false, 10 ^ 18, 5 * 10 ^ 6))
    (inr false) (inr (10 ^ 18)) (inr (30 * 10 ^ 9)) (inr (2 * 10 ^ 18))
    (inr 7) (inr 100000) None (inr "0xRaw"%string) (inr "0xHash"%string)
    (inr (mkReceipt 1 90000)) None.

Definition signal_flip_chain : Script :=
  mkScript (inr true) (inr "0xAccount"%string)
    (inr (450, true, 10 ^ 18, 5 * 10 ^ 6))
    (inr false) (inr (10 ^ 18)) (inr (30 * 10 ^ 9)) (inr (2 * 10 ^ 18))
    (inr 7) (inr 100000) None (inr "0xRaw"%string) (inr "0xHash"%string)
    (inr (mkReceipt 1 90000)) None.

(** The bot [__init__] builds when only the two mandatory variables are
    set. *)
Definition default_bot : FarmBot :=
  mkFarmBot None "0xKey"%string "0xFarmBot"%string "0xAccount"%string
    "0xFarmBot"%string
    300 50 (Decimal.mk 1 (-1)) (Decimal.mk 5 (-2)).

Definition default_env : Env :=
  fun k =>
    if String.eqb k "PRIVATE_KEY"%string then Some "0xKey"%string
    else if String.eqb k "FARMBOT_CONTRACT_ADDRESS"%string then Some "0xFarmBot"%string
    else None.

(** One ether, and the default bot with a slippage tolerance of 10%. *)
Definition one_ether : Decimal.t := Decimal.mk (10 ^ 18) (-18).

Definition cautious_bot : FarmBot :=
  mkFarmBot None "0xKey"%string "0xFarmBot"%string "0xAccount"%string
    "0xFarmBot"%string
    300 50 (Decimal.mk 1 (-1)) (Decimal.mk 10 (-2)).

(** The chain where everything succeeds, reporting the raw rate [apr]. *)
Definition chain_with_apr (apr : Z) : Script :=
  mkScript (inr true) (inr "0xAccount"%string)
    (inr (apr, true, 10 ^ 18, 5 * 10 ^ 6))
    (inr true) (inr (10 ^ 18)) (inr (30 * 10 ^ 9)) (inr (2 * 10 ^ 18))
    (inr 7) (inr 100000) None (inr "0xRaw"%string) (inr "0xHash"%string)
    (inr (mkReceipt 1 90000)) None.

(** The chain where everything succeeds, with the account holding
    [balance] wei. *)
Definition chain_with_balance (balance : Z) : Script :=
  mkScript (inr true) (inr "0xAccount"%string)
    (inr (450, true, 10 ^ 18, 5 * 10 ^ 6))
    (inr true) (inr (10 ^ 18)) (inr (30 * 10 ^ 9)) (inr balance)
    (inr 7) (inr 100000) None (inr "0xRaw"%string) (inr "0xHash"%string)
    (inr (mkReceipt 1 90000)) None.


(** An environment that sets a negative poll interval and a slippage
    tolerance above one. *)
Definition careless_env : Env :=
  fun k =>
    if String.eqb k "PRIVATE_KEY"%string then Some "0xKey"%string
    else if String.eqb k "FARMBOT_CONTRACT_ADDRESS"%string then Some "0xFarmBot"%string
    else if String.eqb k "POLL_INTERVAL"%string then Some "-5"%string
    else if String.eqb k "SLIPPAGE_TOLERANCE"%string then Some "1.5"%string
    else None.

(** ** Vocabulary of the properties *)

(** The chain-write interface: gas estimation, signing, submission and the
    wait for the receipt. *)
Definition is_chain_write (ev : event) : bool :=
  match ev with
  | EvCall (OpEstimateGas _ _ _ _)
  | EvCall (OpSignTransaction _)
  | EvCall (OpSendRawTransaction _)
  | EvCall (OpWaitForReceipt _ _) => true
  | _ => false
  end.

(** A submission: a call of [send_raw_transaction]. *)
Definition is_submission (ev : event) : bool :=
  match ev with
  | EvCall (OpSendRawTransaction _) => true
  | _ => false
  end.

Definition submissions (evs : list event) : nat :=
  List.length (List.filter is_submission evs).

Arguments submissions : simpl never.

(** The events a status read may produce: the two reads and log records. *)
Definition is_status_read (ev : event) : bool :=
  match ev with
  | EvCall OpGetStatus | EvCall (OpGetBalance _) | EvLog _ _ => true
  | _ => false
  end.

Definition is_sleep (ev : event) : bool :=
  match ev with
  | EvCall (OpSleep _) => true
  | _ => false
  end.

(** The five records [run_once] logs about a status it obtained. *)
Definition status_logs (st : Status) : list event :=
  [ EvLog INFO (MsgCurrentApr (current_apr_percentage st));
    EvLog INFO (MsgShouldExecute (should_execute st));
    EvLog INFO (MsgAccountBalance (account_eth_balance st));
    EvLog INFO (MsgContractEth (contract_eth_balance st));
    EvLog INFO (MsgContractUsdc (contract_usdc_balance st)) ].

(** The coefficient the context rounding yields, at the exponent of the
    operand: [fix_ d] denotes [round_coef (coef d) * 10 ^ expo d]. *)
Definition round_coef (c : Z) : Z :=
  let a := Z.abs c in
  let n := Decimal.ndigits a in
  if n <=? Decimal.prec then c
  else
    let k := n - Decimal.prec in
    Z.sgn c * (div_half_even a (10 ^ k) * 10 ^ k).

(** A decimal the context precision holds without rounding. *)
Definition fits (d : Decimal.t) : Prop :=
  Decimal.ndigits (Z.abs (Decimal.coef d)) <= Decimal.prec.

(** Projections of a run. *)
Definition outcome {S A : Type} (x : result A * S * list event) : result A :=
  fst (fst x).
Definition final {S A : Type} (x : result A * S * list event) : S :=
  snd (fst x).
Definition events {S A : Type} (x : result A * S * list event) : list event :=
  snd x.

(** The run [x] begins with the events [pre]. *)
Definition starts_with {S A : Type} (pre : list event)
    (x : result A * S * list event) : Prop :=
  exists rest, events x = pre ++ rest.

(** The amount [execute_swap] requires on the account for a trade of
    [eth_amount]: the trade, the configured reserve and 0.05 ether for
    gas, added as [Decimal]s. *)
Definition required_balance_of (bot : FarmBot) (eth_amount : Decimal.t) : Decimal.t :=
  Decimal.add (Decimal.add eth_amount (min_eth_balance bot)) (Decimal.mk 5 (-2)).

(** The floor [estimate_usdc_output] computes for a slippage tolerance. *)
Definition usdc_floor (eth_amount slippage : Decimal.t) : Decimal.t :=
  Decimal.mul (Decimal.mul eth_amount (Decimal.of_int 2500))
    (Decimal.sub (Decimal.of_int 1) slippage).

(** The three reads that size a trade, and the four calls that submit
    one. *)
Definition sizing_events (bot : FarmBot) : list event :=
  [ EvCall OpShouldExecute; EvCall OpDefaultSwapAmount;
    EvCall (OpGetBalance (address_ bot)) ].


(** The minimum output [execute_swap] passes to the contract, in units of
    10^-6 USDC. *)
Definition min_usdc_out_wei_of (bot : FarmBot) (eth_amount : Decimal.t) : Z :=
  Decimal.to_int
    (Decimal.mul (usdc_floor eth_amount (slippage_tolerance bot)) (Decimal.mk 1 6)).

(** [m] submits at most [n] transactions. *)
Definition submits_at_most {S A : Type} (n : nat) (m : M S A) : Prop :=
  forall s, (submissions (events (m s)) <= n)%nat.

(** [m] returns a value, whatever the state. *)
Definition never_raises {S A : Type} (m : M S A) : Prop :=
  forall s, exists x, outcome (m s) = inr x.

(** A chain whose calls, the clock apart, fail only with exceptions of
    class [Exception]. *)
Definition chain_errors_are_Exceptions (World : Type) `{Chain World} : Prop :=
  forall (o : op) (w : World) (e : exn),
    is_sleep (EvCall o) = false ->
    fst (perform o w) = inl e -> is_Exception e = true.

(** The configuration invariant of the data model. *)
Definition config_invariant (bot : FarmBot) : Prop :=
  0 <= poll_interval bot /\
  0 <= max_gas_price bot /\
  (0 <= Decimal.toQ (min_eth_balance bot))%Q /\
  (0 <= Decimal.toQ (slippage_tolerance bot))%Q /\
  (Decimal.toQ (slippage_tolerance bot) < 1)%Q.

(** What a computation guarantees about the events it emits ([P]), the
    way it changes the state ([R]) and the exceptions it lets through
    ([E]). *)
Definition respects {S A : Type}
    (P : event -> Prop) (R : S -> S -> Prop) (E : exn -> Prop) (m : M S A) : Prop :=
  forall s,
    Forall P (events (m s)) /\
    R s (final (m s)) /\
    (forall e, outcome (m s) = inl e -> E e).

Definition any_event (ev : event) : Prop := True.
Definition any_state {S : Type} (a b : S) : Prop := True.
Definition any_exn (e : exn) : Prop := True.
Definition same_self {World : Type} (a b : St World) : Prop := self_ b = self_ a.
Definition only_Exception (e : exn) : Prop := is_Exception e = true.

(** ** Vocabulary of the further properties *)

(** The start of a cycle, and the two marks of a turn of the daemon's
    loop: the start of the cycle and the sleep. *)
Definition is_poll (ev : event) : bool :=
  match ev with
  | EvLog INFO MsgCheck => true
  | _ => false
  end.

Definition is_turn_mark (ev : event) : bool := is_poll ev || is_sleep ev.

(** Run by the bot [bot], [m] emits only events that satisfy [P], leaves
    the bot as it is, and returns only values that satisfy [Q]. *)
Definition triple {World A : Type} (bot : FarmBot) (P : event -> Prop)
    (Q : A -> Prop) (m : M (St World) A) : Prop :=
  forall s,
    self_ s = bot ->
    Forall P (events (m s)) /\
    self_ (final (m s)) = bot /\
    (forall x, outcome (m s) = inr x -> Q x).

(** A gas price within the configured ceiling, or the fallback price. *)
Definition price_ok (bot : FarmBot) (price : Z) : Prop :=
  price = 20 * 10 ^ 9 \/
  exists ceiling,
    to_wei_gwei (max_gas_price bot) = inr ceiling /\ price <= ceiling.

(** The call parameters of a trade of [amount] wei: sent from the bot's
    address, with the amount attached as value, and with the minimum
    output computed from that amount. *)
Definition trade_of (bot : FarmBot) (amount min_out : Z) (from : address)
    (value : Z) : Prop :=
  from = address_ bot /\
  value = amount /\
  exists eth_amount,
    from_wei_ether amount = inr eth_amount /\
    min_out = min_usdc_out_wei_of bot eth_amount.

(** What the calls of the bot [bot] look like: the gas price of a built
    transaction, and the account and amounts a call names. *)
Definition gas_fields_ok (bot : FarmBot) (ev : event) : Prop :=
  match ev with
  | EvCall (OpBuildTransaction _ _ p) => price_ok bot (tx_gasPrice p)
  | _ => True
  end.

Definition funds_fields_ok (bot : FarmBot) (ev : event) : Prop :=
  match ev with
  | EvCall (OpEstimateGas amount min_out from value) =>
      trade_of bot amount min_out from value
  | EvCall (OpBuildTransaction amount min_out p) =>
      trade_of bot amount min_out (tx_from p) (tx_value p)
  | EvCall (OpGetBalance a) | EvCall (OpGetTransactionCount a) =>
      a = address_ bot
  | EvCall (OpWaitForReceipt _ timeout) => timeout = 300
  | EvCall (OpSleep secs) => secs = poll_interval bot
  | _ => True
  end.

Definition call_ok (bot : FarmBot) (ev : event) : Prop :=
  gas_fields_ok bot ev /\ funds_fields_ok bot ev.

(** The transactions a run asked the contract to build. *)
Definition build_of (ev : event) : list (Z * Z * TxParams) :=
  match ev with
  | EvCall (OpBuildTransaction amount min_out p) => [(amount, min_out, p)]
  | _ => []
  end.

(** The transactions a run asked for, in order. *)
Definition builds (evs : list event) : list (Z * Z * TxParams) :=
  List.flat_map build_of evs.

(** [int(gas_estimate * 1.2)] *)
Definition buffered (g : Z) : result Z :=
  match PyFloat.int_mul g PyFloat.lit_1_2 with
  | inl e => inl e
  | inr scaled => PyFloat.to_int scaled
  end.

(** The gas limit [execute_swap] derives from the answer [r] to
    [estimate_gas]. *)
Definition gas_limit_for (r : result Z) : Z :=
  match r with
  | inr g => match buffered g with inr limit => limit | inl _ => 500000 end
  | inl _ => 500000
  end.

(** The events of the estimation: the call, and the record of the failure
    when the call or the buffer raised. *)
Definition estimation_events (estimate : op) (r : result Z) : list event :=
  match r with
  | inr g =>
      match buffered g with
      | inr _ => [EvCall estimate]
      | inl e => [EvCall estimate; EvLog ERROR (MsgGasEstimationFailed e)]
      end
  | inl e => [EvCall estimate; EvLog ERROR (MsgGasEstimationFailed e)]
  end.

Section Paths.

Context {World : Type} `{Chain World}.

(** The run of [execute_swap] from [s] passed the signal and the reserve
    check: the chain answered the three reads, one after the other from
    the chain of [s], and left in [w3]. *)
Definition sized (s : St World) (amount : Z) (eth_amount : Decimal.t)
    (w3 : World) : Prop :=
  exists w1 w2 balance account_balance,
    perform OpShouldExecute (chain s) = (inr true, w1) /\
    perform OpDefaultSwapAmount w1 = (inr amount, w2) /\
    from_wei_ether amount = inr eth_amount /\
    perform (OpGetBalance (address_ (self_ s))) w2 = (inr balance, w3) /\
    from_wei_ether balance = inr account_balance /\
    Decimal.ltb account_balance (required_balance_of (self_ s) eth_amount) = false.

(** The run of [execute_swap] from [s] asked for the transaction
    [(amount, min_out, p)] after the events [pre]: it priced the gas in
    the state the reads left, asked for the estimate in the state [s4] the
    pricing left and was answered [r], and read the nonce in the state the
    estimate left, which left the chain in [w6]. *)
Definition built_by (s : St World) (amount min_out : Z) (p : TxParams)
    (s4 : St World) (r : result Z) (w6 : World) (pre : list event) : Prop :=
  exists eth_amount w3 t4 w5,
    sized s amount eth_amount w3 /\
    min_out = min_usdc_out_wei_of (self_ s) eth_amount /\
    get_gas_price (mkSt (self_ s) w3) = (inr (tx_gasPrice p), s4, t4) /\
    perform (OpEstimateGas amount min_out (address_ (self_ s)) amount) (chain s4)
      = (r, w5) /\
    (forall e, r = inl e -> is_Exception e = true) /\
    perform (OpGetTransactionCount (address_ (self_ s))) w5
      = (inr (tx_nonce p), w6) /\
    p = mkTxParams (address_ (self_ s)) amount (gas_limit_for r)
          (tx_gasPrice p) (tx_nonce p) /\
    pre = sizing_events (self_ s) ++ t4 ++
          estimation_events
            (OpEstimateGas amount min_out (address_ (self_ s)) amount) r ++
          [EvCall (OpGetTransactionCount (address_ (self_ s)))].

(** The run of [execute_swap] from [s] was confirmed: the transaction was
    built, signed and sent in the states the run went through, and the
    wait for the hash [tx_hash] the chain returned was answered with the
    receipt [receipt], of status 1. *)
Definition confirmed_run (s : St World) (tx_hash : HexBytes) (receipt : Receipt)
    : Prop :=
  exists amount min_out p s4 r w6 pre tx w7 raw w8 w9 w10 eth_amount,
    built_by s amount min_out p s4 r w6 pre /\
    perform (OpBuildTransaction amount min_out p) w6 = (inr tx, w7) /\
    perform (OpSignTransaction tx) w7 = (inr raw, w8) /\
    perform (OpSendRawTransaction raw) w8 = (inr tx_hash, w9) /\
    perform (OpWaitForReceipt tx_hash 300) w9 = (inr receipt, w10) /\
    rc_status receipt = 1 /\
    from_wei_ether amount = inr eth_amount /\
    execute_swap s =
      (inr true, mkSt (self_ s) w10,
       pre ++
         [EvCall (OpBuildTransaction amount min_out p);
          EvCall (OpSignTransaction tx);
          EvCall (OpSendRawTransaction raw);
          EvLog INFO (MsgTransactionSent tx_hash);
          EvLog INFO
            (MsgAmounts eth_amount
               (usdc_floor eth_amount (slippage_tolerance (self_ s))));
          EvCall (OpWaitForReceipt tx_hash 300);
          EvLog INFO (MsgSwapExecuted (rc_gasUsed receipt))]).

End Paths.

(** The record of a completed swap. *)
Definition is_completed (ev : event) : bool :=
  match ev with
  | EvLog INFO MsgSwapCompleted => true
  | _ => false
  end.

(** ** The entry point

    [main], after [parser.parse_args()] has returned the two flags; a
    command line that does not parse ends the process inside [argparse],
    before [main] does anything. *)

Record Args : Type := mkArgs {
  arg_once : bool;      (* --once *)
  arg_status : bool     (* --status *)
}.

(** What [main] leaves behind: the events of the bot, the status it
    printed, and the record of the exception it caught. *)
Inductive main_event : Type :=
| Bot (ev : event)
| Printed (status : option Status)   (* print(json.dumps(status, indent=2, default=str)) *)
| FailedToStart (e : exn).           (* "Failed to start FarmBot: ..." *)

(** How an observation of [main] ends: with an exit code, with an
    exception that leaves it, or with the daemon still in its loop. *)
Inductive ending : Type :=
| Returned (code : Z)
| Raised (e : exn)
| Running.

Section Entry.

Context {World : Type} `{Chain World}.

(** The branch [main] takes once the bot exists; [None] is a daemon that
    has not left its loop within the [n] turns observed. *)
Definition dispatch (n : nat) (args : Args) (bot : FarmBot) (w : World)
  : option (result unit) * World * list main_event :=
  let s := mkSt bot w in
  if arg_status args then
    let '(r, s1, t) := get_status s in
    match r with
    | inl e => (Some (inl e), chain s1, List.map Bot t)
    | inr status => (Some (inr tt), chain s1, List.map Bot t ++ [Printed status])
    end
  else if arg_once args then
    let '(r, s1, t) := run_once s in
    (Some r, chain s1, List.map Bot t)
  else
    let '(r, s1, t) := run_daemon n s in
    match outcome (daemon_loop n s) with
    | inr _ => (None, chain s1, List.map Bot t)
    | inl _ => (Some r, chain s1, List.map Bot t)
    end.

(** [except Exception as e:] of [main] *)
Definition failed_to_start (e : exn) (w : World) (t : list main_event)
  : ending * World * list main_event :=
  if is_Exception e then (Returned 1, w, t ++ [FailedToStart e])
  else (Raised e, w, t).

(** [main] *)
Definition main (n : nat) (args : Args) (env : Env) (w : World)
  : ending * World * list main_event :=
  let '(r, w1, t1) := init env w in
  match r with
  | inl e => failed_to_start e w1 (List.map Bot t1)
  | inr bot =>
      let '(r2, w2, t2) := dispatch n args bot w1 in
      match r2 with
      | None => (Running, w2, List.map Bot t1 ++ t2)
      | Some (inl e) => failed_to_start e w2 (List.map Bot t1 ++ t2)
      | Some (inr _) => (Returned 0, w2, List.map Bot t1 ++ t2)
      end
  end.

End Entry.

(** The records of a failure among the events of [main]. *)
Definition is_failure_record (ev : main_event) : bool :=
  match ev with
  | FailedToStart _ => true
  | _ => false
  end.

(** A bot whose gas ceiling does not convert to wei. *)
Definition negative_ceiling_bot : FarmBot :=
  mkFarmBot None "0xKey"%string "0xFarmBot"%string "0xAccount"%string
    "0xFarmBot"%string
    300 (-1) (Decimal.mk 1 (-1)) (Decimal.mk 5 (-2)).

(** A bot whose reserve has thirty significant digits, one whose gas
    ceiling is beyond the wei range, and one whose slippage tolerance has
    twenty-eight digits. *)
Definition precise_reserve_bot : FarmBot :=
  mkFarmBot None "0xKey"%string "0xFarmBot"%string "0xAccount"%string
    "0xFarmBot"%string
    300 50 (Decimal.mk 100000000000000000000000000001 (-30)) (Decimal.mk 5 (-2)).

Definition huge_ceiling_bot : FarmBot :=
  mkFarmBot None "0xKey"%string "0xFarmBot"%string "0xAccount"%string
    "0xFarmBot"%string
    300 (10 ^ 69) (Decimal.mk 1 (-1)) (Decimal.mk 5 (-2)).

Definition third_slippage_bot : FarmBot :=
  mkFarmBot None "0xKey"%string "0xFarmBot"%string "0xAccount"%string
    "0xFarmBot"%string
    300 50 (Decimal.mk 1 (-1)) (Decimal.mk 3333333333333333333333333333 (-28)).





Definition empty_env : Env := fun _ => None.

(** The command lines [--once --status] and, with no flag, the daemon. *)
Definition status_args : Args := mkArgs true true.
Definition daemon_args : Args := mkArgs false false.

(** The record that closes a cycle. *)
Definition is_verdict (ev : event) : bool :=
  match ev with
  | EvLog ERROR MsgNoStatus
  | EvLog INFO MsgWaiting
  | EvLog INFO MsgSwapCompleted
  | EvLog ERROR MsgSwapExecutionFailed => true
  | _ => false
  end.

(* ===================================================================== *)
(** * Part II: properties *)
(* ===================================================================== *)

(** ** Rules of the monad *)

Section RespectsRules.

Context {S : Type}.
Variable P : event -> Prop.
Variable R : S -> S -> Prop.
Variable E : exn -> Prop.
Hypothesis R_refl : forall s, R s s.
Hypothesis R_trans : forall a b c, R a b -> R b c -> R a c.

Lemma respects_ret {A} (x : A) : respects P R E (ret x).
Proof.
  intros s; cbn; repeat split; auto. intros e He; discriminate.
Qed.

Lemma respects_raise {A} (e : exn) : E e -> respects P R E (@raise S A e).
Proof.
  intros He s; cbn; repeat split; auto. intros e' He'; congruence.
Qed.

Lemma respects_lift {A} (r : result A) :
  (forall e, r = inl e -> E e) -> respects P R E (@lift S A r).
Proof.
  intros Hr s; cbn; repeat split; auto.
Qed.

Lemma respects_log (l : level) (msg : log_msg) :
  P (EvLog l msg) -> respects P R E (@log S l msg).
Proof.
  intros Hp s; cbn; repeat split; auto. intros e He; discriminate.
Qed.

Lemma respects_bind {A B} (m : M S A) (f : A -> M S B) :
  respects P R E m -> (forall x, respects P R E (f x)) ->
  respects P R E (bind m f).
Proof.
  intros Hm Hf s. unfold bind, events, final, outcome.
  destruct (Hm s) as (Hp & Hr & He).
  unfold events, final, outcome in Hp, Hr, He.
  destruct (m s) as [[r s1] t1]; cbn in *.
  destruct r as [e | x]; cbn.
  - repeat split; auto.
    intros e' He'; injection He' as <-; apply He; reflexivity.
  - destruct (Hf x s1) as (Hp2 & Hr2 & He2).
    unfold events, final, outcome in Hp2, Hr2, He2.
    destruct (f x s1) as [[r2 s2] t2]; cbn in *.
    repeat split; eauto. apply Forall_app; split; assumption.
Qed.

Lemma respects_try_with {A} (catches : exn -> bool) (m : M S A) (h : exn -> M S A) :
  respects P R E m -> (forall e, respects P R E (h e)) ->
  respects P R E (try_with catches m h).
Proof.
  intros Hm Hh s. unfold try_with, events, final, outcome.
  destruct (Hm s) as (Hp & Hr & He).
  unfold events, final, outcome in Hp, Hr, He.
  destruct (m s) as [[r s1] t1]; cbn in *.
  destruct r as [e | x]; cbn.
  - destruct (catches e).
    + destruct (Hh e s1) as (Hp2 & Hr2 & He2).
      unfold events, final, outcome in Hp2, Hr2, He2.
      destruct (h e s1) as [[r2 s2] t2]; cbn in *.
      repeat split; eauto. apply Forall_app; split; assumption.
    + cbn. repeat split; auto.
  - repeat split; auto.
Qed.

End RespectsRules.

Section RespectsCalls.

Context {World : Type} `{Chain World}.
Variable P : event -> Prop.
Variable R : St World -> St World -> Prop.
Variable E : exn -> Prop.

Lemma respects_get_self :
  (forall s, R s s) -> respects P R E get_self.
Proof.
  intros Hr s; cbn; repeat split; auto. intros e He; discriminate.
Qed.

Lemma respects_call (o : op) :
  P (EvCall o) ->
  (forall s w, R s (mkSt (self_ s) w)) ->
  (forall w e, fst (perform o w) = inl e -> E e) ->
  respects P R E (call o).
Proof.
  intros Hp Hr He s. unfold call, events, final, outcome.
  specialize (He (chain s)).
  destruct (perform o (chain s)) as [r w']; cbn in *.
  repeat split; auto.
Qed.

End RespectsCalls.

Section TotalRules.

Context {S : Type}.

Lemma never_raises_ret {A} (x : A) : never_raises (@ret S A x).
Proof. intros s; exists x; reflexivity. Qed.

Lemma never_raises_log (l : level) (msg : log_msg) : never_raises (@log S l msg).
Proof. intros s; exists tt; reflexivity. Qed.

Lemma never_raises_lift {A} (r : result A) :
  (exists x, r = inr x) -> never_raises (@lift S A r).
Proof. intros [x ->] s; exists x; reflexivity. Qed.

Lemma never_raises_bind {A B} (m : M S A) (f : A -> M S B) :
  never_raises m -> (forall x, never_raises (f x)) -> never_raises (bind m f).
Proof.
  intros Hm Hf s. unfold bind, outcome.
  destruct (Hm s) as [x Hx]. unfold outcome in Hx.
  destruct (m s) as [[r s1] t1]; cbn in *; subst r.
  destruct (Hf x s1) as [y Hy]. unfold outcome in Hy.
  destruct (f x s1) as [[r2 s2] t2]; cbn in *; subst r2.
  exists y; reflexivity.
Qed.

Lemma never_raises_try_with {A} (catches : exn -> bool) (m : M S A)
    (h : exn -> M S A) :
  respects (fun _ => True) (fun _ _ => True) (fun e => catches e = true) m ->
  (forall e, never_raises (h e)) ->
  never_raises (try_with catches m h).
Proof.
  intros Hm Hh s. unfold try_with, outcome.
  destruct (Hm s) as (_ & _ & He). unfold outcome in He.
  destruct (m s) as [[r s1] t1]; cbn in *.
  destruct r as [e | x].
  - rewrite (He e eq_refl).
    destruct (Hh e s1) as [y Hy]. unfold outcome in Hy.
    destruct (h e s1) as [[r2 s2] t2]; cbn in *; subst r2.
    exists y; reflexivity.
  - exists x; reflexivity.
Qed.

End TotalRules.

Section SubmissionRules.

Context {S : Type}.

Lemma submissions_app (t1 t2 : list event) :
  submissions (t1 ++ t2) = (submissions t1 + submissions t2)%nat.
Proof.
  unfold submissions. rewrite List.filter_app, List.length_app. reflexivity.
Qed.

Lemma submits_weaken {A} (n k : nat) (m : M S A) :
  (n <= k)%nat -> submits_at_most n m -> submits_at_most k m.
Proof. intros Hle Hm s. specialize (Hm s). lia. Qed.

Lemma submits_ret {A} (x : A) : submits_at_most 0 (@ret S A x).
Proof. intros s; unfold submissions; cbn; lia. Qed.

Lemma submits_raise {A} (e : exn) : submits_at_most 0 (@raise S A e).
Proof. intros s; unfold submissions; cbn; lia. Qed.

Lemma submits_lift {A} (r : result A) : submits_at_most 0 (@lift S A r).
Proof. intros s; unfold submissions; cbn; lia. Qed.

Lemma submits_log (l : level) (msg : log_msg) : submits_at_most 0 (@log S l msg).
Proof. intros s; unfold submissions; cbn; lia. Qed.

Lemma submits_bind {A B} (n k : nat) (m : M S A) (f : A -> M S B) :
  submits_at_most n m -> (forall x, submits_at_most k (f x)) ->
  submits_at_most (n + k) (bind m f).
Proof.
  intros Hm Hf s. unfold bind, events.
  specialize (Hm s). unfold events in Hm.
  destruct (m s) as [[r s1] t1]; cbn in *.
  destruct r as [e | x]; cbn.
  - lia.
  - specialize (Hf x s1). unfold events in Hf.
    destruct (f x s1) as [[r2 s2] t2]; cbn in *.
    rewrite submissions_app. lia.
Qed.

Lemma submits_try_with {A} (n k : nat) (catches : exn -> bool) (m : M S A)
    (h : exn -> M S A) :
  submits_at_most n m -> (forall e, submits_at_most k (h e)) ->
  submits_at_most (n + k) (try_with catches m h).
Proof.
  intros Hm Hh s. unfold try_with, events.
  specialize (Hm s). unfold events in Hm.
  destruct (m s) as [[r s1] t1]; cbn in *.
  destruct r as [e | x]; cbn.
  - destruct (catches e); cbn.
    + specialize (Hh e s1). unfold events in Hh.
      destruct (h e s1) as [[r2 s2] t2]; cbn in *.
      rewrite submissions_app. lia.
    + lia.
  - lia.
Qed.

(** The three shapes used below: nothing is submitted, or the one
    submission is on either side of a sequence. *)
Lemma submits0_bind {A B} (m : M S A) (f : A -> M S B) :
  submits_at_most 0 m -> (forall x, submits_at_most 0 (f x)) ->
  submits_at_most 0 (bind m f).
Proof. intros; apply (submits_bind 0 0); assumption. Qed.

Lemma submits0_try_with {A} (catches : exn -> bool) (m : M S A) (h : exn -> M S A) :
  submits_at_most 0 m -> (forall e, submits_at_most 0 (h e)) ->
  submits_at_most 0 (try_with catches m h).
Proof. intros; apply (submits_try_with 0 0); assumption. Qed.

Lemma submits1_bind_later {A B} (m : M S A) (f : A -> M S B) :
  submits_at_most 0 m -> (forall x, submits_at_most 1 (f x)) ->
  submits_at_most 1 (bind m f).
Proof. intros; apply (submits_bind 0 1); assumption. Qed.

Lemma submits1_bind_now {A B} (m : M S A) (f : A -> M S B) :
  submits_at_most 1 m -> (forall x, submits_at_most 0 (f x)) ->
  submits_at_most 1 (bind m f).
Proof. intros; apply (submits_bind 1 0); assumption. Qed.

Lemma submits1_try_with {A} (catches : exn -> bool) (m : M S A) (h : exn -> M S A) :
  submits_at_most 1 m -> (forall e, submits_at_most 0 (h e)) ->
  submits_at_most 1 (try_with catches m h).
Proof. intros; apply (submits_try_with 1 0); assumption. Qed.

End SubmissionRules.

Section SubmissionCalls.

Context {World : Type} `{Chain World}.

Lemma submits_get_self : submits_at_most 0 (get_self (World := World)).
Proof. intros s; unfold submissions; cbn; lia. Qed.

Lemma submits_call_other (o : op) :
  is_submission (EvCall o) = false -> submits_at_most 0 (call o).
Proof.
  intros Ho s. unfold call, events, submissions.
  destruct (perform o (chain s)) as [r w']. unfold submissions; cbn [snd filter].
  rewrite Ho. cbn. lia.
Qed.

Lemma submits_call (o : op) : submits_at_most 1 (call o).
Proof.
  intros s. unfold call, events, submissions.
  destruct (perform o (chain s)) as [r w']. unfold submissions; cbn [snd filter].
  destruct (is_submission (EvCall o)); cbn; lia.
Qed.

End SubmissionCalls.

(** ** Proof automation over the structure of the methods *)

Ltac case_split :=
  match goal with
  | |- context [match ?x with _ => _ end] => destruct x
  end.

Create HintDb quiet.
Create HintDb single.
Create HintDb respectful.
Create HintDb total.

(** Nothing is submitted. *)
Ltac quiet :=
  repeat first
    [ apply submits_ret | apply submits_raise | apply submits_lift
    | apply submits_log | apply submits_get_self
    | apply submits_call_other; reflexivity
    | apply submits0_bind; [ | intros ? ]
    | apply submits0_try_with; [ | intros ? ]
    | solve [auto 1 with quiet nocore]
    | progress cbv zeta
    | case_split ].

(** At most one transaction is submitted. *)
Ltac single :=
  first
    [ solve [apply (submits_weaken 0 1); [lia | quiet]]
    | solve [auto 1 with single nocore]
    | apply submits_call
    | apply submits1_bind_later; [ solve [quiet] | intros ?; single ]
    | apply submits1_bind_now; [ single | intros ?; solve [quiet] ]
    | apply submits1_try_with; [ single | intros ?; solve [quiet] ]
    | progress cbv zeta; single
    | case_split; single ].

(** The exceptions of the pure conversions are of class [Exception]. *)
Create HintDb pure_exn.

Lemma to_wei_gwei_exn n e : to_wei_gwei n = inl e -> is_Exception e = true.
Proof.
  unfold to_wei_gwei. destruct (_ || _); intros He; inversion He; reflexivity.
Qed.

Lemma from_wei_ether_exn n e : from_wei_ether n = inl e -> is_Exception e = true.
Proof.
  unfold from_wei_ether. destruct (n =? 0); [discriminate |].
  destruct (_ || _); intros He; inversion He; reflexivity.
Qed.

Lemma float_of_int_exn n e : PyFloat.of_int n = inl e -> is_Exception e = true.
Proof.
  unfold PyFloat.of_int. destruct (PyFloat.round_binary64 n 1);
    intros He; inversion He; reflexivity.
Qed.

Lemma int_truediv_exn a b e :
  PyFloat.int_truediv a b = inl e -> is_Exception e = true.
Proof.
  unfold PyFloat.int_truediv. destruct (b =? 0).
  - intros He; inversion He; reflexivity.
  - destruct (PyFloat.round_binary64 _ _); intros He; inversion He; reflexivity.
Qed.

Lemma float_div_exn x y e : PyFloat.div x y = inl e -> is_Exception e = true.
Proof.
  unfold PyFloat.div. destruct x, y;
    repeat match goal with
           | |- context [if ?c then _ else _] => destruct c
           end;
    intros He; inversion He; reflexivity.
Qed.

Lemma int_div_exn n y e : PyFloat.int_div n y = inl e -> is_Exception e = true.
Proof.
  unfold PyFloat.int_div. destruct (PyFloat.of_int n) eqn:Hn.
  - intros He; inversion He; subst. eapply float_of_int_exn; eassumption.
  - apply float_div_exn.
Qed.

Lemma int_mul_exn n y e : PyFloat.int_mul n y = inl e -> is_Exception e = true.
Proof.
  unfold PyFloat.int_mul. destruct (PyFloat.of_int n) eqn:Hn.
  - intros He; inversion He; subst. eapply float_of_int_exn; eassumption.
  - discriminate.
Qed.

Lemma float_to_int_exn x e : PyFloat.to_int x = inl e -> is_Exception e = true.
Proof.
  unfold PyFloat.to_int. destruct x; intros He; inversion He; reflexivity.
Qed.

#[export] Hint Resolve to_wei_gwei_exn from_wei_ether_exn float_of_int_exn
  int_truediv_exn float_div_exn int_div_exn int_mul_exn float_to_int_exn
  : pure_exn.

Ltac pure_exn :=
  solve [intros; cbv beta delta [only_Exception]; eauto 2 with pure_exn nocore].

Ltac side :=
  first
    [ exact I | reflexivity | assumption
    | intros; exact I | intros; reflexivity
    | intros; cbn in *; congruence
    | match goal with
      | Hc : chain_errors_are_Exceptions _ |- _ =>
          intros;
          match goal with
          | Hp : fst (perform ?o ?w) = inl ?e |- _ =>
              apply (Hc o w e); [ reflexivity | exact Hp ]
          end
      end
    | pure_exn ].

Ltac respectful :=
  repeat first
    [ apply respects_ret; side
    | apply respects_raise; side
    | apply respects_lift; side
    | apply respects_log; side
    | apply respects_get_self; side
    | apply respects_call; side
    | apply respects_bind; [ side | | intros ? ]
    | apply respects_try_with; [ side | | intros ? ]
    | solve [auto 1 with respectful nocore]
    | progress cbv zeta
    | case_split ].

Ltac total :=
  repeat first
    [ apply never_raises_ret | apply never_raises_log
    | apply never_raises_lift; eexists; reflexivity
    | apply never_raises_bind; [ | intros ? ]
    | apply never_raises_try_with; [ solve [respectful] | intros ? ]
    | solve [auto 1 with total nocore]
    | progress cbv zeta
    | case_split ].

(** ** Facts about the methods, for every chain *)

Section Methods.

Context {World : Type} `{Chain World}.

(** *** Submissions *)

Lemma get_gas_price_quiet : submits_at_most 0 get_gas_price.
Proof. unfold get_gas_price, try_except. quiet. Qed.

Lemma get_eth_balance_quiet : submits_at_most 0 get_eth_balance.
Proof. unfold get_eth_balance. quiet. Qed.

#[local] Hint Resolve get_gas_price_quiet get_eth_balance_quiet : quiet.

Lemma get_status_quiet : submits_at_most 0 get_status.
Proof. unfold get_status, try_except. quiet. Qed.

Lemma estimate_usdc_output_quiet a :
  submits_at_most 0 (estimate_usdc_output (World := World) a).
Proof. unfold estimate_usdc_output. quiet. Qed.

#[local] Hint Resolve get_status_quiet estimate_usdc_output_quiet : quiet.

Lemma execute_swap_single : submits_at_most 1 execute_swap.
Proof. unfold execute_swap, try_except. single. Qed.

#[local] Hint Resolve execute_swap_single : single.

Lemma run_once_single : submits_at_most 1 run_once.
Proof. unfold run_once. single. Qed.

End Methods.

(** C1.  Within one evaluation cycle at most one transaction is submitted:
    whatever the chain answers (a confirmation timeout, a reverted
    receipt, an exception while the receipt is awaited), the events of
    [execute_swap], and of the whole cycle [run_once], contain at most one
    call of [send_raw_transaction]. *)
Theorem at_most_one_submission_per_cycle :
  forall (World : Type) (C : Chain World) (s : St World),
    (submissions (events (execute_swap s)) <= 1)%nat /\
    (submissions (events (run_once s)) <= 1)%nat.
Proof.
  intros World C s. split.
  - apply execute_swap_single.
  - apply run_once_single.
Qed.

(** The bound is reached: on the chain where everything succeeds the cycle
    submits once, and it still submits once when the wait for the receipt
    times out or the receipt reports a revert. *)
Example one_submission_when_confirmed :
  outcome (execute_swap (mkSt default_bot happy_chain)) = inr true /\
  submissions (events (run_once (mkSt default_bot happy_chain))) = 1%nat.
Proof. split; vm_compute; reflexivity. Qed.

Example one_submission_on_timeout :
  outcome (execute_swap (mkSt default_bot timeout_chain)) = inr false /\
  submissions (events (run_once (mkSt default_bot timeout_chain))) = 1%nat.
Proof. split; vm_compute; reflexivity. Qed.

Example one_submission_on_revert :
  outcome (execute_swap (mkSt default_bot revert_chain)) = inr false /\
  submissions (events (run_once (mkSt default_bot revert_chain))) = 1%nat.
Proof. split; vm_compute; reflexivity. Qed.

(** ** Exceptions: what a cycle lets through *)

Section Exceptions.

Context {World : Type} `{Chain World}.
Hypothesis Hpolite : chain_errors_are_Exceptions World.

Lemma get_gas_price_total : never_raises get_gas_price.
Proof. unfold get_gas_price, try_except. total. Qed.

Lemma get_eth_balance_Exception :
  respects any_event any_state only_Exception get_eth_balance.
Proof. unfold get_eth_balance. respectful. Qed.

Lemma get_gas_price_Exception :
  respects any_event any_state only_Exception get_gas_price.
Proof. unfold get_gas_price, try_except. respectful. Qed.

Lemma estimate_usdc_output_Exception a :
  respects any_event any_state only_Exception
    (estimate_usdc_output (World := World) a).
Proof. unfold estimate_usdc_output. respectful. Qed.

#[local] Hint Resolve get_eth_balance_Exception get_gas_price_Exception
  estimate_usdc_output_Exception : respectful.

Lemma get_status_total : never_raises get_status.
Proof. unfold get_status, try_except. total. Qed.

Lemma execute_swap_total : never_raises execute_swap.
Proof. unfold execute_swap, try_except. total. Qed.

#[local] Hint Resolve get_status_total execute_swap_total : total.

Lemma run_once_total : never_raises run_once.
Proof. unfold run_once. total. Qed.

End Exceptions.

(** One turn of the daemon's loop: the cycle, then the clock. *)
Lemma daemon_loop_turn {World : Type} `{Chain World} (n : nat) (s s1 : St World)
    (t1 : list event) :
  run_once s = (inr tt, s1, t1) ->
  daemon_loop (S n) s =
    let secs := poll_interval (self_ s1) in
    let turn := t1 ++ [EvLog INFO (MsgSleeping secs); EvCall (OpSleep secs)] in
    match perform (OpSleep secs) (chain s1) with
    | (inl e, w) => (inl e, mkSt (self_ s1) w, turn)
    | (inr _, w) =>
        let '(r, s', t') := daemon_loop n (mkSt (self_ s1) w) in
        (r, s', turn ++ t')
    end.
Proof.
  intros Hrun. cbn [daemon_loop]. unfold bind at 1. rewrite Hrun.
  unfold bind, get_self, log, call. cbn.
  destruct (perform (OpSleep (poll_interval (self_ s1))) (chain s1)) as [[e | []] w];
    cbn.
  - rewrite <- ?app_assoc. reflexivity.
  - destruct (daemon_loop n (mkSt (self_ s1) w)) as [[r s'] t'].
    rewrite <- ?app_assoc. reflexivity.
Qed.

Lemma daemon_loop_raises_at_sleep {World : Type} `{Chain World} :
  chain_errors_are_Exceptions World ->
  forall (n : nat) (s : St World) (e : exn),
    outcome (daemon_loop n s) = inl e ->
    exists evs secs, events (daemon_loop n s) = evs ++ [EvCall (OpSleep secs)].
Proof.
  intros Hpolite n. induction n as [| n IH]; intros s e He.
  - discriminate.
  - destruct (run_once_total Hpolite s) as [[] Hx].
    unfold outcome in Hx.
    destruct (run_once s) as [[r s1] t1] eqn:Hrun; cbn in Hx; subst r.
    rewrite (daemon_loop_turn n s s1 t1 Hrun) in *. cbv zeta in *.
    destruct (perform (OpSleep (poll_interval (self_ s1))) (chain s1))
      as [[e' | u] w].
    + eexists (t1 ++ [_]), _. cbn. rewrite <- app_assoc. reflexivity.
    + specialize (IH (mkSt (self_ s1) w)).
      destruct (daemon_loop n (mkSt (self_ s1) w)) as [[r s'] t'].
      cbn in He. subst r. destruct (IH e eq_refl) as (evs & secs & Hev).
      cbn in Hev. subst t'. eexists (_ ++ evs), secs. cbn.
      rewrite !app_assoc. reflexivity.
Qed.

(** C7.  No failure of a cycle leaves the cycle.  On every chain whose
    calls fail with exceptions of class [Exception], [run_once] returns
    normally from every state; each turn of the daemon's loop therefore
    reaches [time.sleep] and, when the clock returns, polls again; and the
    only thing that can leave the loop is an exception raised by the clock
    itself. *)
Theorem cycle_failures_never_escape :
  forall (World : Type) (C : Chain World),
    chain_errors_are_Exceptions World ->
    forall s : St World,
      (exists s1 t1,
          run_once s = (inr tt, s1, t1) /\
          forall n,
            daemon_loop (S n) s =
              let secs := poll_interval (self_ s1) in
              let turn :=
                t1 ++ [EvLog INFO (MsgSleeping secs); EvCall (OpSleep secs)] in
              match perform (OpSleep secs) (chain s1) with
              | (inl e, w) => (inl e, mkSt (self_ s1) w, turn)
              | (inr _, w) =>
                  let '(r, s', t') := daemon_loop n (mkSt (self_ s1) w) in
                  (r, s', turn ++ t')
              end) /\
      (forall n e,
          outcome (daemon_loop n s) = inl e ->
          exists evs secs,
            events (daemon_loop n s) = evs ++ [EvCall (OpSleep secs)]).
Proof.
  intros World C Hpolite s. split.
  - destruct (run_once_total Hpolite s) as [[] Hx].
    unfold outcome in Hx.
    destruct (run_once s) as [[r s1] t1] eqn:Hrun; cbn in Hx; subst r.
    exists s1, t1. split; [reflexivity |].
    intros n. apply daemon_loop_turn. exact Hrun.
  - intros n e. apply daemon_loop_raises_at_sleep. exact Hpolite.
Qed.

(** ** The status read and the signal *)

Lemma get_status_reads {World : Type} `{Chain World} :
  respects (fun ev => is_status_read ev = true) any_state any_exn
    (get_status (World := World)).
Proof. unfold get_status, get_eth_balance, try_except. respectful. Qed.

Lemma status_read_is_no_write (ev : event) :
  is_status_read ev = true ->
  is_chain_write ev = false /\ ev <> EvCall OpShouldExecute.
Proof.
  destruct ev as [o | l m]; [destruct o |]; cbn; intros Hs;
    try discriminate; split; congruence.
Qed.

(** The status read fails as soon as the contract read raises. *)
Lemma get_status_fails_with_the_read {World : Type} `{Chain World}
    (s : St World) (e : exn) (w : World) :
  perform OpGetStatus (chain s) = (inl e, w) ->
  is_Exception e = true ->
  get_status s =
    (inr None, mkSt (self_ s) w,
     [EvCall OpGetStatus; EvLog ERROR (MsgStatusFailed e)]).
Proof.
  intros Hp He. unfold get_status, try_except, try_with, bind, call.
  rewrite Hp, He. reflexivity.
Qed.

(** [run_once], step by step. *)
Lemma run_once_steps {World : Type} `{Chain World} (s : St World) :
  run_once s =
    let '(r, s1, t1) := get_status s in
    match r with
    | inl e => (inl e, s1, EvLog INFO MsgCheck :: t1)
    | inr None => (inr tt, s1, EvLog INFO MsgCheck :: t1 ++ [EvLog ERROR MsgNoStatus])
    | inr (Some st) =>
        if should_execute st then
          let '(r2, s2, t2) := execute_swap s1 in
          let before :=
            EvLog INFO MsgCheck :: t1 ++ status_logs st ++
              EvLog INFO MsgConditionsMet :: t2 in
          match r2 with
          | inl e => (inl e, s2, before)
          | inr true => (inr tt, s2, before ++ [EvLog INFO MsgSwapCompleted])
          | inr false => (inr tt, s2, before ++ [EvLog ERROR MsgSwapExecutionFailed])
          end
        else
          (inr tt, s1,
           EvLog INFO MsgCheck :: t1 ++ status_logs st ++ [EvLog INFO MsgWaiting])
    end.
Proof.
  unfold run_once, status_logs, bind at 1, log at 1. unfold bind at 1.
  destruct (get_status s) as [[[e | [st |]] s1] t1]; try reflexivity.
  destruct (should_execute st).
  - unfold bind, log.
    destruct (execute_swap s1) as [[[e | [|]] s2] t2]; cbn;
      rewrite <- ?app_assoc; cbn; rewrite <- ?app_assoc; reflexivity.
  - cbn. rewrite <- ?app_assoc. reflexivity.
Qed.

(** C8.  When the status read fails, that is when [get_status] comes back
    with the empty dictionary, the cycle ends there: [run_once] logs the
    failure and returns, and nothing it did is a call of the chain-write
    interface or the signal read that opens [execute_swap]. *)
Theorem status_failure_ends_the_cycle :
  forall (World : Type) (C : Chain World) (s s1 : St World) (t1 : list event),
    get_status s = (inr None, s1, t1) ->
    run_once s =
      (inr tt, s1, EvLog INFO MsgCheck :: t1 ++ [EvLog ERROR MsgNoStatus]) /\
    Forall (fun ev => is_chain_write ev = false /\ ev <> EvCall OpShouldExecute)
      (events (run_once s)).
Proof.
  intros World C s s1 t1 Hst.
  assert (Hrun : run_once s =
            (inr tt, s1, EvLog INFO MsgCheck :: t1 ++ [EvLog ERROR MsgNoStatus])).
  { unfold run_once, bind, log. rewrite Hst. reflexivity. }
  split; [exact Hrun |].
  rewrite Hrun. cbn [events snd].
  destruct (get_status_reads s) as (Hreads & _ & _).
  rewrite Hst in Hreads. cbn in Hreads.
  constructor; [split; [reflexivity | discriminate] |].
  apply Forall_app; split.
  - eapply Forall_impl; [| exact Hreads].
    intros ev; apply status_read_is_no_write.
  - constructor; [split; [reflexivity | discriminate] | constructor].
Qed.

Lemma status_failure_ends_the_cycle_witness :
  get_status (mkSt default_bot status_down_chain) =
    (inr None, mkSt default_bot status_down_chain,
     [EvCall OpGetStatus;
      EvLog ERROR (MsgStatusFailed (Web3Exception "connection timed out"))]) /\
  run_once (mkSt default_bot status_down_chain) =
    (inr tt, mkSt default_bot status_down_chain,
     [EvLog INFO MsgCheck; EvCall OpGetStatus;
      EvLog ERROR (MsgStatusFailed (Web3Exception "connection timed out"));
      EvLog ERROR MsgNoStatus]).
Proof.
  split; [reflexivity |].
  exact (proj1 (status_failure_ends_the_cycle Script Script_Chain
                  (mkSt default_bot status_down_chain) _ _ eq_refl)).
Defined.

(** C2.  A signal read as false ends the cycle as skipped, with no
    chain-write call.  In [execute_swap], when [shouldExecute] returns
    false the method logs that the threshold is not met and returns
    [False]; the read is the only call it made.  In [run_once], when the
    status reports the signal off the cycle ends waiting, and when the
    report says on but [execute_swap] then reads it off, the cycle ends
    with the skip of [execute_swap]; in both cases no event of the cycle
    is a chain-write call. *)
Theorem signal_false_skips_without_chain_write :
  forall (World : Type) (C : Chain World) (s : St World),
    (forall w,
        perform OpShouldExecute (chain s) = (inr false, w) ->
        execute_swap s =
          (inr false, mkSt (self_ s) w,
           [EvCall OpShouldExecute; EvLog INFO MsgAprNotMet])) /\
    (forall st s1 t1,
        get_status s = (inr (Some st), s1, t1) ->
        should_execute st = false ->
        run_once s =
          (inr tt, s1,
           EvLog INFO MsgCheck :: t1 ++ status_logs st ++ [EvLog INFO MsgWaiting]) /\
        Forall (fun ev => is_chain_write ev = false) (events (run_once s))) /\
    (forall st s1 t1 w,
        get_status s = (inr (Some st), s1, t1) ->
        should_execute st = true ->
        perform OpShouldExecute (chain s1) = (inr false, w) ->
        run_once s =
          (inr tt, mkSt (self_ s1) w,
           EvLog INFO MsgCheck :: t1 ++ status_logs st ++
             [EvLog INFO MsgConditionsMet; EvCall OpShouldExecute;
              EvLog INFO MsgAprNotMet; EvLog ERROR MsgSwapExecutionFailed]) /\
        Forall (fun ev => is_chain_write ev = false) (events (run_once s))).
Proof.
  intros World C s.
  assert (Hskip : forall (s' : St World) w,
             perform OpShouldExecute (chain s') = (inr false, w) ->
             execute_swap s' =
               (inr false, mkSt (self_ s') w,
                [EvCall OpShouldExecute; EvLog INFO MsgAprNotMet])).
  { intros s' w Hp. unfold execute_swap, try_except, try_with, bind, call.
    rewrite Hp. reflexivity. }
  assert (Hreads : forall st s1 t1,
             get_status s = (inr (Some st), s1, t1) ->
             Forall (fun ev => is_chain_write ev = false) t1).
  { intros st s1 t1 Hst. destruct (get_status_reads s) as (Hr & _ & _).
    rewrite Hst in Hr. cbn in Hr.
    eapply Forall_impl; [| exact Hr].
    intros ev Hev. apply status_read_is_no_write. exact Hev. }
  split; [apply Hskip |]. split.
  - intros st s1 t1 Hst Hoff.
    assert (Hrun : run_once s =
              (inr tt, s1,
               EvLog INFO MsgCheck :: t1 ++ status_logs st ++ [EvLog INFO MsgWaiting])).
    { rewrite run_once_steps, Hst, Hoff. reflexivity. }
    split; [exact Hrun |]. rewrite Hrun. cbn [events snd].
    constructor; [reflexivity |].
    apply Forall_app; split; [eapply Hreads; eassumption |].
    repeat constructor.
  - intros st s1 t1 w Hst Hon Hp.
    assert (Hrun : run_once s =
              (inr tt, mkSt (self_ s1) w,
               EvLog INFO MsgCheck :: t1 ++ status_logs st ++
                 [EvLog INFO MsgConditionsMet; EvCall OpShouldExecute;
                  EvLog INFO MsgAprNotMet; EvLog ERROR MsgSwapExecutionFailed])).
    { rewrite run_once_steps, Hst, Hon, (Hskip s1 w Hp). cbn.
      rewrite <- ?app_assoc. reflexivity. }
    split; [exact Hrun |]. rewrite Hrun. cbn [events snd].
    constructor; [reflexivity |].
    apply Forall_app; split; [eapply Hreads; eassumption |].
    repeat constructor.
Qed.

Lemma signal_false_skips_without_chain_write_witness :
  execute_swap (mkSt default_bot signal_off_chain) =
    (inr false, mkSt default_bot signal_off_chain,
     [EvCall OpShouldExecute; EvLog INFO MsgAprNotMet]) /\
  Forall (fun ev => is_chain_write ev = false)
    (events (run_once (mkSt default_bot signal_off_chain))) /\
  Forall (fun ev => is_chain_write ev = false)
    (events (run_once (mkSt default_bot signal_flip_chain))).
Proof.
  pose proof (signal_false_skips_without_chain_write Script Script_Chain
                (mkSt default_bot signal_off_chain)) as (Hswap & Hoff & _).
  pose proof (signal_false_skips_without_chain_write Script Script_Chain
                (mkSt default_bot signal_flip_chain)) as (_ & _ & Hflip).
  split; [apply Hswap; reflexivity |]. split.
  - eapply Hoff; [vm_compute; reflexivity | reflexivity].
  - eapply Hflip; [vm_compute; reflexivity | reflexivity | reflexivity].
Defined.

(** ** The gas price *)

(** C4 as stated fails: the fallback is not used only when the read
    raised.  A ceiling of 10^69 gwei is beyond the range of [to_wei]; the
    conversion raises inside the [try], and the method returns the 20 gwei
    fallback although the read returned 30 gwei, which is the minimum of
    the observed price and the ceiling. *)
Lemma fallback_despite_a_successful_read :
  0 <= max_gas_price huge_ceiling_bot /\
  perform OpGasPrice happy_chain = (inr (30 * 10 ^ 9), happy_chain) /\
  Z.min (30 * 10 ^ 9) (max_gas_price huge_ceiling_bot * 10 ^ 9) = 30 * 10 ^ 9 /\
  get_gas_price (mkSt huge_ceiling_bot happy_chain) =
    (inr (20 * 10 ^ 9), mkSt huge_ceiling_bot happy_chain,
     [EvCall OpGasPrice;
      EvLog ERROR
        (MsgGasPriceFailed
           (ValueError "Resulting wei value must be between 1 and 2**256 - 1"))]).
Proof.
  split; [vm_compute; discriminate |]. split; [reflexivity |].
  split; vm_compute; reflexivity.
Qed.

(** C4, amended.  [get_gas_price] clamps the observed price when the
    configured ceiling is an amount of wei.  With [ceiling] the configured
    maximum expressed in wei, which exists when it lies between 0 and
    2^256 - 1 wei: when the read of the price succeeds the method returns
    [min observed ceiling], an observed price of zero included (the result
    is then zero, not the fallback); when the read raises, it logs the
    failure and returns the fallback of 20 gwei; and the method itself
    raises nothing: an exception can only leave it if the read raised one
    that [except Exception] does not catch. *)
Theorem get_gas_price_clamps :
  forall (World : Type) (C : Chain World) (s : St World) (ceiling : Z),
    to_wei_gwei (max_gas_price (self_ s)) = inr ceiling ->
    0 <= ceiling /\
    (forall observed w,
        perform OpGasPrice (chain s) = (inr observed, w) ->
        get_gas_price s =
          (inr (Z.min observed ceiling), mkSt (self_ s) w, [EvCall OpGasPrice])) /\
    (forall w,
        perform OpGasPrice (chain s) = (inr 0, w) ->
        outcome (get_gas_price s) = inr 0) /\
    (forall e w,
        perform OpGasPrice (chain s) = (inl e, w) ->
        is_Exception e = true ->
        get_gas_price s =
          (inr (20 * 10 ^ 9), mkSt (self_ s) w,
           [EvCall OpGasPrice; EvLog ERROR (MsgGasPriceFailed e)])) /\
    (forall e,
        outcome (get_gas_price s) = inl e ->
        fst (perform OpGasPrice (chain s)) = inl e /\ is_Exception e = false).
Proof.
  intros World C s ceiling Hc.
  assert (Hpos : 0 <= ceiling).
  { unfold to_wei_gwei in Hc.
    destruct ((max_gas_price (self_ s) * 10 ^ 9 <? 0)
              || (MAX_WEI <? max_gas_price (self_ s) * 10 ^ 9)) eqn:Hr;
      [discriminate |].
    injection Hc as <-. apply orb_false_iff in Hr. lia. }
  assert (Hok : forall observed w,
             perform OpGasPrice (chain s) = (inr observed, w) ->
             get_gas_price s =
               (inr (Z.min observed ceiling), mkSt (self_ s) w, [EvCall OpGasPrice])).
  { intros observed w Hp.
    unfold get_gas_price, try_except, try_with, bind, call, get_self, lift, ret.
    rewrite Hp. cbn. rewrite Hc. reflexivity. }
  split; [exact Hpos |]. split; [exact Hok |]. split; [| split].
  - intros w Hp. rewrite (Hok 0 w Hp). cbn. f_equal. lia.
  - intros e w Hp He.
    unfold get_gas_price, try_except, try_with, bind, call, get_self, lift, ret, log.
    rewrite Hp. cbn. rewrite He. reflexivity.
  - intros e.
    unfold get_gas_price, try_except, try_with, bind, call, get_self, lift, ret, log.
    destruct (perform OpGasPrice (chain s)) as [[e' | observed] w]; cbn.
    + destruct (is_Exception e') eqn:He'; cbn.
      * discriminate.
      * intros Heq; injection Heq as <-. split; [reflexivity | exact He'].
    + rewrite Hc. cbn. discriminate.
Qed.

Lemma get_gas_price_clamps_witness :
  to_wei_gwei (max_gas_price (self_ (mkSt default_bot happy_chain)))
    = inr (50 * 10 ^ 9) /\
  get_gas_price (mkSt default_bot happy_chain) =
    (inr (30 * 10 ^ 9), mkSt default_bot happy_chain, [EvCall OpGasPrice]).
Proof.
  split; [reflexivity |].
  exact (proj1 (proj2 (get_gas_price_clamps Script Script_Chain
                         (mkSt default_bot happy_chain) (50 * 10 ^ 9) eq_refl))
           (30 * 10 ^ 9) happy_chain eq_refl).
Defined.

(** ** Rounding half to even *)

Section HalfEven.

Variables a b : Z.
Hypothesis Ha : 0 <= a.
Hypothesis Hb : 0 < b.

Lemma div_half_even_error : 2 * Z.abs (b * div_half_even a b - a) <= b.
Proof.
  unfold div_half_even.
  pose proof (Z.div_mod a b ltac:(lia)) as Hdiv.
  pose proof (Z.mod_pos_bound a b Hb) as Hmod.
  destruct (Z.compare_spec (2 * (a mod b)) b) as [Heq | Hlt | Hgt];
    [destruct (Z.even (a / b)) |..]; nia.
Qed.

Lemma div_half_even_nonneg : 0 <= div_half_even a b.
Proof.
  unfold div_half_even.
  pose proof (Z.div_pos a b Ha Hb).
  destruct (2 * (a mod b) ?= b); [destruct (Z.even (a / b)) |..]; lia.
Qed.

Lemma div_half_even_between : a / b <= div_half_even a b <= a / b + 1.
Proof.
  unfold div_half_even.
  destruct (2 * (a mod b) ?= b); [destruct (Z.even (a / b)) |..]; lia.
Qed.

End HalfEven.

Lemma div_half_even_exact (q b : Z) : 0 < b -> div_half_even (q * b) b = q.
Proof.
  intros Hb. unfold div_half_even.
  rewrite Z.div_mul, Z.mod_mul by lia.
  destruct b; try lia. reflexivity.
Qed.

Lemma div_half_even_mono (a1 a2 b : Z) :
  0 <= a1 -> a1 <= a2 -> 0 < b -> div_half_even a1 b <= div_half_even a2 b.
Proof.
  intros H1 H12 Hb.
  pose proof (Z.div_le_mono a1 a2 b Hb H12) as Hq.
  pose proof (div_half_even_between a1 b) as B1.
  pose proof (div_half_even_between a2 b) as B2.
  destruct (Z.eq_dec (a1 / b) (a2 / b)) as [Heq | Hne]; [| lia].
  pose proof (Z.div_mod a1 b ltac:(lia)) as D1.
  pose proof (Z.div_mod a2 b ltac:(lia)) as D2.
  assert (Hr : a1 mod b <= a2 mod b) by (rewrite Heq in D1; nia).
  unfold div_half_even. rewrite Heq.
  destruct (Z.compare_spec (2 * (a1 mod b)) b);
    destruct (Z.compare_spec (2 * (a2 mod b)) b);
    destruct (Z.even (a2 / b)); lia.
Qed.

Lemma div_half_even_scale (a b m : Z) :
  0 <= a -> 0 < b -> 0 < m -> div_half_even (a * m) (b * m) = div_half_even a b.
Proof.
  intros Ha Hb Hm. unfold div_half_even.
  rewrite Z.div_mul_cancel_r by lia.
  rewrite Z.mul_mod_distr_r by lia.
  destruct (Z.compare_spec (2 * (a mod b * m)) (b * m));
    destruct (Z.compare_spec (2 * (a mod b)) b); try reflexivity; nia.
Qed.

(** ** Decimal digits *)

Lemma pow10_pos (k : Z) : 0 <= k -> 0 < 10 ^ k.
Proof. intros Hk. apply Z.pow_pos_nonneg; lia. Qed.

Lemma ndigits_fuel_spec (fuel : nat) :
  forall n, 0 < n < 2 ^ Z.of_nat fuel ->
    let d := Decimal.ndigits_fuel fuel n in
    1 <= d /\ 10 ^ (d - 1) <= n < 10 ^ d.
Proof.
  induction fuel as [| f IH]; intros n Hn.
  - cbn in Hn. lia.
  - cbn [Decimal.ndigits_fuel]. destruct (Z.ltb_spec n 10) as [Hlt | Hge].
    + cbn. lia.
    + assert (Hq : 0 < n / 10 < 2 ^ Z.of_nat f).
      { split.
        - apply Z.div_str_pos. lia.
        - rewrite Nat2Z.inj_succ, Z.pow_succ_r in Hn by lia.
          apply Z.div_lt_upper_bound; lia. }
      specialize (IH (n / 10) Hq). cbv zeta in *.
      set (d := Decimal.ndigits_fuel f (n / 10)) in *.
      destruct IH as (Hd & Hlo & Hhi).
      pose proof (Z.div_mod n 10 ltac:(lia)) as Hdiv.
      pose proof (Z.mod_pos_bound n 10 ltac:(lia)) as Hmod.
      replace (1 + d - 1) with d by lia.
      replace (1 + d) with (Z.succ d) by lia.
      rewrite Z.pow_succ_r by lia.
      replace d with (Z.succ (d - 1)) in * by lia.
      rewrite Z.pow_succ_r in * by lia.
      replace (Z.succ (d - 1) - 1) with (d - 1) in * by lia.
      lia.
Qed.

Lemma ndigits_spec (n : Z) :
  0 < n ->
  1 <= Decimal.ndigits n /\
  10 ^ (Decimal.ndigits n - 1) <= n < 10 ^ Decimal.ndigits n.
Proof.
  intros Hn. unfold Decimal.ndigits. apply ndigits_fuel_spec.
  split; [exact Hn |].
  rewrite Nat2Z.inj_succ, Z2Nat.id by apply Z.log2_nonneg.
  apply Z.log2_spec. exact Hn.
Qed.

Lemma ndigits_zero : Decimal.ndigits 0 = 1.
Proof. reflexivity. Qed.

Lemma ndigits_unique (n d : Z) :
  1 <= d -> 10 ^ (d - 1) <= n < 10 ^ d -> Decimal.ndigits n = d.
Proof.
  intros Hd Hn.
  assert (Hpos : 0 < n) by (pose proof (pow10_pos (d - 1)); lia).
  destruct (ndigits_spec n Hpos) as (Hd' & Hlo & Hhi).
  set (d' := Decimal.ndigits n) in *.
  destruct (Z.lt_trichotomy d d') as [Hlt | [Heq | Hgt]]; [| congruence |].
  - assert (10 ^ d <= 10 ^ (d' - 1)) by (apply Z.pow_le_mono_r; lia). lia.
  - assert (10 ^ d' <= 10 ^ (d - 1)) by (apply Z.pow_le_mono_r; lia). lia.
Qed.

Lemma ndigits_scale (c j : Z) :
  0 < c -> 0 <= j -> Decimal.ndigits (c * 10 ^ j) = Decimal.ndigits c + j.
Proof.
  intros Hc Hj. destruct (ndigits_spec c Hc) as (Hd & Hlo & Hhi).
  pose proof (pow10_pos j Hj) as Hp.
  apply ndigits_unique; [lia |].
  replace (Decimal.ndigits c + j - 1) with (Decimal.ndigits c - 1 + j) by lia.
  rewrite !Z.pow_add_r by lia. nia.
Qed.

Lemma ndigits_mono (c1 c2 : Z) :
  0 < c1 -> c1 <= c2 -> Decimal.ndigits c1 <= Decimal.ndigits c2.
Proof.
  intros H1 H12.
  destruct (ndigits_spec c1 H1) as (Hd1 & Hlo1 & Hhi1).
  destruct (ndigits_spec c2 ltac:(lia)) as (Hd2 & Hlo2 & Hhi2).
  destruct (Z.le_gt_cases (Decimal.ndigits c1) (Decimal.ndigits c2)) as [Hle | Hgt];
    [exact Hle |].
  assert (10 ^ Decimal.ndigits c2 <= 10 ^ (Decimal.ndigits c1 - 1))
    by (apply Z.pow_le_mono_r; lia).
  lia.
Qed.

(** ** The value of a decimal and of its rounding *)

Lemma ten_neq_0 : ~ (10 == 0)%Q.
Proof. intros H; discriminate H. Qed.

Lemma pow10Q_pos (e : Z) : (0 < 10 ^ e)%Q.
Proof. apply Qpower_0_lt. reflexivity. Qed.

Lemma toQ_shift (c e j : Z) :
  0 <= j ->
  (Decimal.toQ (Decimal.mk c (e + j)) == inject_Z (c * 10 ^ j) * 10 ^ e)%Q.
Proof.
  intros Hj. unfold Decimal.toQ. cbn [Decimal.coef Decimal.expo].
  rewrite inject_Z_mult, Zpower_Qpower by lia.
  rewrite Qpower_plus by apply ten_neq_0.
  change (inject_Z 10) with 10%Q. ring.
Qed.

Lemma toQ_align (d : Decimal.t) (E : Z) :
  E <= Decimal.expo d ->
  (Decimal.toQ d ==
   inject_Z (Decimal.coef d * 10 ^ (Decimal.expo d - E)) * 10 ^ E)%Q.
Proof.
  intros HE. destruct d as [c e]. cbn [Decimal.coef Decimal.expo] in *.
  rewrite <- toQ_shift by lia.
  replace (E + (e - E)) with e by lia. reflexivity.
Qed.

Lemma toQ_opp (d : Decimal.t) : (Decimal.toQ (Decimal.opp d) == - Decimal.toQ d)%Q.
Proof.
  unfold Decimal.toQ, Decimal.opp. cbn [Decimal.coef Decimal.expo].
  rewrite inject_Z_opp. ring.
Qed.

Lemma toQ_add_exact (a b : Decimal.t) :
  (Decimal.toQ (Decimal.add_exact a b) == Decimal.toQ a + Decimal.toQ b)%Q.
Proof.
  unfold Decimal.add_exact.
  set (E := Z.min (Decimal.expo a) (Decimal.expo b)).
  rewrite (toQ_align a E), (toQ_align b E) by lia.
  unfold Decimal.toQ at 1. cbn [Decimal.coef Decimal.expo].
  rewrite inject_Z_plus. ring.
Qed.

Lemma toQ_sub_exact (a b : Decimal.t) :
  (Decimal.toQ (Decimal.sub_exact a b) == Decimal.toQ a - Decimal.toQ b)%Q.
Proof.
  unfold Decimal.sub_exact. rewrite toQ_add_exact, toQ_opp. ring.
Qed.

Lemma toQ_mul_exact (a b : Decimal.t) :
  (Decimal.toQ (Decimal.mul_exact a b) == Decimal.toQ a * Decimal.toQ b)%Q.
Proof.
  unfold Decimal.mul_exact, Decimal.toQ. cbn [Decimal.coef Decimal.expo].
  rewrite inject_Z_mult, Qpower_plus by apply ten_neq_0. ring.
Qed.

(** Comparison is comparison of the values. *)
Lemma compare_aligned (a b : Decimal.t) :
  let E := Z.min (Decimal.expo a) (Decimal.expo b) in
  forall x y,
    x = Decimal.coef a * 10 ^ (Decimal.expo a - E) ->
    y = Decimal.coef b * 10 ^ (Decimal.expo b - E) ->
    ((x < y <-> (Decimal.toQ a < Decimal.toQ b)%Q) /\
     (x <= y <-> (Decimal.toQ a <= Decimal.toQ b)%Q)).
Proof.
  intros E x y -> ->.
  rewrite (toQ_align a E), (toQ_align b E) by (unfold E; lia).
  pose proof (pow10Q_pos E) as Hp.
  rewrite Qmult_lt_r, Qmult_le_r by exact Hp.
  rewrite Zlt_Qlt, Zle_Qle. split; reflexivity.
Qed.

Lemma ltb_spec (a b : Decimal.t) :
  Decimal.ltb a b = true <-> (Decimal.toQ a < Decimal.toQ b)%Q.
Proof.
  destruct (compare_aligned a b _ _ eq_refl eq_refl) as [Hlt _].
  rewrite <- Hlt. unfold Decimal.ltb, Decimal.compare.
  destruct (Z.compare_spec
              (Decimal.coef a * 10 ^ (Decimal.expo a - Z.min (Decimal.expo a) (Decimal.expo b)))
              (Decimal.coef b * 10 ^ (Decimal.expo b - Z.min (Decimal.expo a) (Decimal.expo b))));
    split; intros; try discriminate; try reflexivity; lia.
Qed.

Lemma ltb_false_spec (a b : Decimal.t) :
  Decimal.ltb a b = false <-> (Decimal.toQ b <= Decimal.toQ a)%Q.
Proof.
  split.
  - intros Hf. apply Qnot_lt_le. intros Hlt.
    apply ltb_spec in Hlt. congruence.
  - intros Hle. destruct (Decimal.ltb a b) eqn:Hb; [| reflexivity].
    apply ltb_spec in Hb. apply Qle_not_lt in Hle. contradiction.
Qed.

(** *** The rounded coefficient *)

Lemma round_coef_pos_eq (c : Z) :
  0 < c ->
  round_coef c =
    if Decimal.ndigits c <=? Decimal.prec then c
    else div_half_even c (10 ^ (Decimal.ndigits c - Decimal.prec))
         * 10 ^ (Decimal.ndigits c - Decimal.prec).
Proof.
  intros Hc. unfold round_coef.
  rewrite Z.abs_eq, Z.sgn_pos by lia.
  destruct (Decimal.ndigits c <=? Decimal.prec); lia.
Qed.

Lemma round_coef_zero : round_coef 0 = 0.
Proof. reflexivity. Qed.

Lemma round_coef_opp (c : Z) : round_coef (- c) = - round_coef c.
Proof.
  unfold round_coef. rewrite Z.abs_opp, Z.sgn_opp.
  destruct (Decimal.ndigits (Z.abs c) <=? Decimal.prec); lia.
Qed.

Lemma round_coef_bounds (c : Z) :
  0 < c ->
  10 ^ (Decimal.ndigits c - 1) <= round_coef c <= 10 ^ Decimal.ndigits c.
Proof.
  intros Hc. rewrite round_coef_pos_eq by exact Hc.
  destruct (ndigits_spec c Hc) as (Hd & Hlo & Hhi).
  set (n := Decimal.ndigits c) in *.
  destruct (Z.leb_spec n Decimal.prec) as [Hle | Hgt]; [lia |].
  unfold Decimal.prec in *.
  set (k := n - 28) in *.
  pose proof (pow10_pos k ltac:(lia)) as Hk.
  assert (Hn1 : 10 ^ (n - 1) = 10 ^ 27 * 10 ^ k).
  { replace (n - 1) with (27 + k) by lia. apply Z.pow_add_r; lia. }
  assert (Hn : 10 ^ n = 10 ^ 28 * 10 ^ k).
  { replace n with (28 + k) at 1 by lia. apply Z.pow_add_r; lia. }
  rewrite Hn1, Hn in *.
  pose proof (div_half_even_mono (10 ^ 27 * 10 ^ k) c (10 ^ k) ltac:(lia) ltac:(lia) Hk)
    as Hlow.
  pose proof (div_half_even_mono c (10 ^ 28 * 10 ^ k) (10 ^ k) ltac:(lia) ltac:(lia) Hk)
    as Hup.
  rewrite div_half_even_exact in Hlow, Hup by exact Hk.
  split; apply Z.mul_le_mono_nonneg_r; lia.
Qed.

Lemma round_coef_nonneg (c : Z) : 0 <= c -> 0 <= round_coef c.
Proof.
  intros Hc. destruct (Z.eq_dec c 0) as [-> | Hne]; [cbn; lia |].
  pose proof (round_coef_bounds c ltac:(lia)) as [Hlo _].
  destruct (ndigits_spec c ltac:(lia)) as (Hd & _).
  pose proof (pow10_pos (Decimal.ndigits c - 1) ltac:(lia)). lia.
Qed.

Lemma round_coef_mono_pos (c1 c2 : Z) :
  0 < c1 -> c1 <= c2 -> round_coef c1 <= round_coef c2.
Proof.
  intros H1 H12.
  pose proof (ndigits_mono c1 c2 H1 H12) as Hn.
  destruct (Z.eq_dec (Decimal.ndigits c1) (Decimal.ndigits c2)) as [Heq | Hne].
  - rewrite !round_coef_pos_eq by lia. rewrite Heq.
    destruct (Z.leb_spec (Decimal.ndigits c2) Decimal.prec) as [Hle | Hgt]; [lia |].
    pose proof (pow10_pos (Decimal.ndigits c2 - Decimal.prec) ltac:(lia)) as Hk.
    apply Z.mul_le_mono_nonneg_r; [lia |].
    apply div_half_even_mono; lia.
  - pose proof (round_coef_bounds c1 H1) as [_ Hup].
    pose proof (round_coef_bounds c2 ltac:(lia)) as [Hlo _].
    assert (10 ^ Decimal.ndigits c1 <= 10 ^ (Decimal.ndigits c2 - 1))
      by (apply Z.pow_le_mono_r; lia).
    lia.
Qed.

Lemma round_coef_mono (c1 c2 : Z) : c1 <= c2 -> round_coef c1 <= round_coef c2.
Proof.
  intros H12.
  destruct (Z.lt_trichotomy c1 0) as [Hn1 | [-> | Hp1]].
  - destruct (Z.lt_trichotomy c2 0) as [Hn2 | [-> | Hp2]].
    + pose proof (round_coef_mono_pos (- c2) (- c1) ltac:(lia) ltac:(lia)) as Hm.
      rewrite !round_coef_opp in Hm. lia.
    + pose proof (round_coef_nonneg (- c1) ltac:(lia)) as Hm.
      rewrite round_coef_opp in Hm. cbn. lia.
    + pose proof (round_coef_nonneg (- c1) ltac:(lia)) as Hm.
      rewrite round_coef_opp in Hm.
      pose proof (round_coef_nonneg c2 ltac:(lia)). lia.
  - rewrite round_coef_zero. apply round_coef_nonneg. exact H12.
  - apply round_coef_mono_pos; assumption.
Qed.

Lemma round_coef_scale_pos (c j : Z) :
  0 < c -> 0 <= j -> round_coef (c * 10 ^ j) = round_coef c * 10 ^ j.
Proof.
  intros Hc Hj.
  pose proof (pow10_pos j Hj) as Hpj.
  rewrite !round_coef_pos_eq by nia.
  rewrite ndigits_scale by assumption.
  destruct (ndigits_spec c Hc) as (Hd & _).
  set (n := Decimal.ndigits c) in *.
  destruct (Z.leb_spec (n + j) Decimal.prec) as [Hle' | Hgt'];
    destruct (Z.leb_spec n Decimal.prec) as [Hle | Hgt]; try lia.
  - set (k := n + j - Decimal.prec) in *.
    replace (c * 10 ^ j) with (c * 10 ^ (j - k) * 10 ^ k).
    + rewrite div_half_even_exact by (apply pow10_pos; lia). reflexivity.
    + rewrite <- Z.mul_assoc, <- Z.pow_add_r by lia.
      replace (j - k + k) with j by lia. reflexivity.
  - replace (n + j - Decimal.prec) with (n - Decimal.prec + j) by lia.
    rewrite Z.pow_add_r by lia.
    rewrite div_half_even_scale by (try apply pow10_pos; lia). ring.
Qed.

Lemma round_coef_scale (c j : Z) :
  0 <= j -> round_coef (c * 10 ^ j) = round_coef c * 10 ^ j.
Proof.
  intros Hj. destruct (Z.lt_trichotomy c 0) as [Hn | [-> | Hp]].
  - pose proof (round_coef_scale_pos (- c) j ltac:(lia) Hj) as Hs.
    rewrite Z.mul_opp_l, !round_coef_opp in Hs. lia.
  - reflexivity.
  - apply round_coef_scale_pos; assumption.
Qed.

Lemma fix_value (d : Decimal.t) :
  (Decimal.toQ (Decimal.fix_ d) ==
   inject_Z (round_coef (Decimal.coef d)) * 10 ^ Decimal.expo d)%Q.
Proof.
  destruct d as [c e]. unfold Decimal.fix_, round_coef.
  cbn [Decimal.coef Decimal.expo].
  set (n := Decimal.ndigits (Z.abs c)).
  destruct (Z.leb_spec n Decimal.prec) as [Hle | Hgt]; [reflexivity |].
  set (k := n - Decimal.prec).
  set (q := div_half_even (Z.abs c) (10 ^ k)).
  destruct (Z.eqb_spec q (10 ^ Decimal.prec)) as [Heq | Hne].
  - replace (e + k + 1) with (e + (k + 1)) by lia.
    rewrite toQ_shift by lia. rewrite Heq.
    replace (Z.sgn c * 10 ^ (Decimal.prec - 1) * 10 ^ (k + 1))
      with (Z.sgn c * (10 ^ Decimal.prec * 10 ^ k)); [reflexivity |].
    rewrite Z.pow_add_r by lia. unfold Decimal.prec.
    change (28 - 1) with 27. change (10 ^ 28) with (10 ^ 27 * 10).
    change (10 ^ 1) with 10. ring.
  - rewrite toQ_shift by lia.
    replace (Z.sgn c * q * 10 ^ k) with (Z.sgn c * (q * 10 ^ k)) by ring.
    reflexivity.
Qed.

(** Rounding is monotone. *)
Lemma fix_mono (a b : Decimal.t) :
  (Decimal.toQ a <= Decimal.toQ b)%Q ->
  (Decimal.toQ (Decimal.fix_ a) <= Decimal.toQ (Decimal.fix_ b))%Q.
Proof.
  intros Hab.
  set (E := Z.min (Decimal.expo a) (Decimal.expo b)).
  destruct (compare_aligned a b _ _ eq_refl eq_refl) as [_ Hle].
  apply Hle in Hab. fold E in Hab.
  apply round_coef_mono in Hab.
  rewrite !round_coef_scale in Hab by lia.
  rewrite !fix_value.
  pose proof (toQ_align (Decimal.mk (round_coef (Decimal.coef a)) (Decimal.expo a)) E)
    as Ha.
  pose proof (toQ_align (Decimal.mk (round_coef (Decimal.coef b)) (Decimal.expo b)) E)
    as Hb.
  unfold Decimal.toQ at 1 in Ha. unfold Decimal.toQ at 1 in Hb.
  cbn [Decimal.coef Decimal.expo] in Ha, Hb.
  rewrite Ha, Hb by (unfold E; lia).
  apply Qmult_le_compat_r; [| apply Qlt_le_weak, pow10Q_pos].
  rewrite <- Zle_Qle. exact Hab.
Qed.

(** Rounding leaves what fits as it is, and what it yields fits. *)
Lemma fix_fits (d : Decimal.t) : fits d -> Decimal.fix_ d = d.
Proof.
  unfold fits, Decimal.fix_. intros Hf.
  destruct (Z.leb_spec (Decimal.ndigits (Z.abs (Decimal.coef d))) Decimal.prec);
    [reflexivity | lia].
Qed.

Lemma fix_is_rounded (d : Decimal.t) : fits (Decimal.fix_ d).
Proof.
  destruct d as [c e]. unfold fits, Decimal.fix_.
  cbn [Decimal.coef Decimal.expo].
  set (n := Decimal.ndigits (Z.abs c)).
  destruct (Z.leb_spec n Decimal.prec) as [Hle | Hgt]; [exact Hle |].
  assert (Hc : c <> 0).
  { intros ->. unfold n in Hgt. cbn in Hgt. unfold Decimal.prec in Hgt. lia. }
  assert (Habs : 0 < Z.abs c) by lia.
  pose proof (round_coef_bounds (Z.abs c) Habs) as Hb.
  rewrite round_coef_pos_eq in Hb by exact Habs. fold n in Hb.
  destruct (Z.leb_spec n Decimal.prec) as [Hle | _]; [lia |].
  set (k := n - Decimal.prec) in *.
  set (q := div_half_even (Z.abs c) (10 ^ k)) in *.
  pose proof (pow10_pos k ltac:(lia)) as Hk.
  assert (Hq : 10 ^ 27 <= q <= 10 ^ 28).
  { assert (E1 : 10 ^ (n - 1) = 10 ^ 27 * 10 ^ k).
    { replace (n - 1) with (27 + k) by (unfold k, Decimal.prec; lia).
      apply Z.pow_add_r; lia. }
    assert (E2 : 10 ^ n = 10 ^ 28 * 10 ^ k).
    { replace n with (28 + k) at 1 by (unfold k, Decimal.prec; lia).
      apply Z.pow_add_r; lia. }
    rewrite E1, E2 in Hb. destruct Hb as [Hb1 Hb2].
    split; apply (Z.mul_le_mono_pos_r _ _ (10 ^ k)); assumption. }
  assert (Hs : Z.abs (Z.sgn c) = 1) by (destruct c; [contradiction | reflexivity ..]).
  unfold Decimal.prec in *.
  destruct (Z.eqb_spec q (10 ^ 28)) as [Heq | Hne]; cbn [Decimal.coef];
    rewrite Z.abs_mul, Hs, Z.mul_1_l.
  - apply Z.leb_le. vm_compute. reflexivity.
  - rewrite Z.abs_eq by lia.
    rewrite (ndigits_unique q 28); [lia | lia |].
    change (28 - 1) with 27. lia.
Qed.

(** ** The minimum-output estimator *)

Lemma estimate_usdc_output_run {World : Type} (a : Decimal.t) (s : St World) :
  estimate_usdc_output a s =
    (inr (usdc_floor a (slippage_tolerance (self_ s))), s, []).
Proof. reflexivity. Qed.

Lemma toQ_of_int (n : Z) : (Decimal.toQ (Decimal.of_int n) == inject_Z n)%Q.
Proof. unfold Decimal.toQ, Decimal.of_int. cbn. ring. Qed.

(** A value the precision holds survives rounding, whatever its
    representation. *)
Lemma fix_keeps_value (x u : Decimal.t) :
  fits u -> (Decimal.toQ x == Decimal.toQ u)%Q ->
  (Decimal.toQ (Decimal.fix_ x) == Decimal.toQ u)%Q.
Proof.
  intros Hu Hx.
  pose proof (fix_mono x u) as Hle. pose proof (fix_mono u x) as Hge.
  rewrite (fix_fits u Hu) in Hle, Hge.
  apply Qle_antisym; [apply Hle | apply Hge]; rewrite Hx; apply Qle_refl.
Qed.

Lemma fix_nonneg (x : Decimal.t) :
  (0 <= Decimal.toQ x)%Q -> (0 <= Decimal.toQ (Decimal.fix_ x))%Q.
Proof.
  intros Hx.
  pose proof (fix_mono (Decimal.of_int 0) x) as Hm.
  change (Decimal.fix_ (Decimal.of_int 0)) with (Decimal.of_int 0) in Hm.
  assert (H0 : (Decimal.toQ (Decimal.of_int 0) == 0)%Q) by reflexivity.
  rewrite H0 in Hm. apply Hm. exact Hx.
Qed.

Lemma usdc_floor_mono (a s1 s2 : Decimal.t) :
  (0 <= Decimal.toQ a)%Q ->
  (Decimal.toQ s1 <= Decimal.toQ s2)%Q ->
  (Decimal.toQ (usdc_floor a s2) <= Decimal.toQ (usdc_floor a s1))%Q.
Proof.
  intros Ha Hs. unfold usdc_floor, Decimal.mul at 1 3, Decimal.sub.
  set (u := Decimal.mul a (Decimal.of_int 2500)).
  assert (Hu : (0 <= Decimal.toQ u)%Q).
  { unfold u, Decimal.mul. apply fix_nonneg.
    rewrite toQ_mul_exact, toQ_of_int.
    apply Qmult_le_0_compat; [exact Ha | discriminate]. }
  apply fix_mono. rewrite !toQ_mul_exact.
  rewrite (Qmult_comm (Decimal.toQ u)), (Qmult_comm (Decimal.toQ u)).
  apply Qmult_le_compat_r; [| exact Hu].
  apply fix_mono. rewrite !toQ_sub_exact.
  apply Qplus_le_r. apply Qopp_le_compat. exact Hs.
Qed.

Lemma usdc_floor_zero_slippage (a s0 : Decimal.t) :
  (Decimal.toQ s0 == 0)%Q ->
  (Decimal.toQ (usdc_floor a s0) ==
   Decimal.toQ (Decimal.mul a (Decimal.of_int 2500)))%Q.
Proof.
  intros Hs. unfold usdc_floor.
  set (u := Decimal.mul a (Decimal.of_int 2500)).
  assert (Hone : (Decimal.toQ (Decimal.sub (Decimal.of_int 1) s0) == 1)%Q).
  { unfold Decimal.sub.
    assert (H1 : fits (Decimal.of_int 1)) by (apply Z.leb_le; reflexivity).
    rewrite (fix_keeps_value _ (Decimal.of_int 1) H1).
    - reflexivity.
    - rewrite toQ_sub_exact, Hs. ring. }
  unfold Decimal.mul at 1. apply fix_keeps_value.
  - unfold u, Decimal.mul. apply fix_is_rounded.
  - rewrite toQ_mul_exact, Hone. ring.
Qed.

Lemma usdc_floor_exact (a s : Decimal.t) :
  fits (Decimal.mul_exact a (Decimal.of_int 2500)) ->
  fits (Decimal.sub_exact (Decimal.of_int 1) s) ->
  fits (Decimal.mul_exact (Decimal.mul_exact a (Decimal.of_int 2500))
          (Decimal.sub_exact (Decimal.of_int 1) s)) ->
  (Decimal.toQ (usdc_floor a s) == Decimal.toQ a * 2500 * (1 - Decimal.toQ s))%Q.
Proof.
  intros F1 F2 F3. unfold usdc_floor, Decimal.mul, Decimal.sub.
  rewrite (fix_fits _ F1), (fix_fits _ F2), (fix_fits _ F3).
  rewrite !toQ_mul_exact, toQ_sub_exact, !toQ_of_int. reflexivity.
Qed.

(** C6 as stated fails: the result is not always the product.  For an
    input of 1 and a slippage tolerance of 0.3333333333333333333333333333
    the product has thirty digits, and the method returns it rounded to
    twenty-eight: 1666.666666666666666666666667. *)
Lemma minimum_output_is_a_rounded_product :
  (0 <= Decimal.toQ (Decimal.mk 1 0))%Q /\
  (0 <= Decimal.toQ (slippage_tolerance third_slippage_bot) < 1)%Q /\
  estimate_usdc_output (Decimal.mk 1 0) (mkSt third_slippage_bot happy_chain) =
    (inr (Decimal.mk 1666666666666666666666666667 (-24)),
     mkSt third_slippage_bot happy_chain, []) /\
  ~ (Decimal.toQ (Decimal.mk 1666666666666666666666666667 (-24)) ==
     Decimal.toQ (Decimal.mk 1 0) * 2500
       * (1 - Decimal.toQ (slippage_tolerance third_slippage_bot)))%Q.
Proof.
  split; [vm_compute; discriminate |].
  split; [split; vm_compute; [discriminate | reflexivity] |].
  split; [vm_compute; reflexivity |].
  intros Heq. vm_compute in Heq. discriminate Heq.
Qed.

(** C6, amended.  [estimate_usdc_output] returns
    [eth_amount * 2500 * (1 - slippage_tolerance)], the products and the
    difference being those of [Decimal], each rounded to the 28 digits of
    the context; the result equals the rational
    [eth_amount * 2500 * (1 - slippage)] whenever the three intermediate
    results fit the context precision.  For a non-negative input the
    result does not increase when the slippage tolerance increases, and at
    a slippage of zero it is [eth_amount * 2500], rounded likewise. *)
Theorem estimate_usdc_output_floor :
  forall (World : Type) (a : Decimal.t) (s1 s2 : St World),
    (0 <= Decimal.toQ a)%Q ->
    (Decimal.toQ (slippage_tolerance (self_ s1)) <=
     Decimal.toQ (slippage_tolerance (self_ s2)))%Q ->
    exists out1 out2,
      estimate_usdc_output a s1 = (inr out1, s1, []) /\
      estimate_usdc_output a s2 = (inr out2, s2, []) /\
      out1 = Decimal.mul (Decimal.mul a (Decimal.of_int 2500))
               (Decimal.sub (Decimal.of_int 1) (slippage_tolerance (self_ s1))) /\
      (fits (Decimal.mul_exact a (Decimal.of_int 2500)) ->
       fits (Decimal.sub_exact (Decimal.of_int 1) (slippage_tolerance (self_ s1))) ->
       fits (Decimal.mul_exact (Decimal.mul_exact a (Decimal.of_int 2500))
               (Decimal.sub_exact (Decimal.of_int 1)
                  (slippage_tolerance (self_ s1)))) ->
       (Decimal.toQ out1 ==
        Decimal.toQ a * 2500 * (1 - Decimal.toQ (slippage_tolerance (self_ s1))))%Q) /\
      (Decimal.toQ out2 <= Decimal.toQ out1)%Q /\
      ((Decimal.toQ (slippage_tolerance (self_ s1)) == 0)%Q ->
       (Decimal.toQ out1 == Decimal.toQ (Decimal.mul a (Decimal.of_int 2500)))%Q /\
       (fits (Decimal.mul_exact a (Decimal.of_int 2500)) ->
        (Decimal.toQ out1 == Decimal.toQ a * 2500)%Q)).
Proof.
  intros World a s1 s2 Ha Hs.
  exists (usdc_floor a (slippage_tolerance (self_ s1))),
         (usdc_floor a (slippage_tolerance (self_ s2))).
  split; [apply estimate_usdc_output_run |].
  split; [apply estimate_usdc_output_run |].
  split; [reflexivity |].
  split; [apply usdc_floor_exact |].
  split; [apply usdc_floor_mono; assumption |].
  intros H0. split; [apply usdc_floor_zero_slippage; exact H0 |].
  intros F1. rewrite usdc_floor_zero_slippage by exact H0.
  unfold Decimal.mul. rewrite (fix_fits _ F1), toQ_mul_exact, toQ_of_int.
  reflexivity.
Qed.

Lemma estimate_usdc_output_floor_witness :
  (0 <= Decimal.toQ one_ether)%Q /\
  (Decimal.toQ (slippage_tolerance default_bot) <=
   Decimal.toQ (slippage_tolerance cautious_bot))%Q /\
  exists out1 out2,
    estimate_usdc_output one_ether (mkSt default_bot happy_chain)
      = (inr out1, mkSt default_bot happy_chain, []) /\
    estimate_usdc_output one_ether (mkSt cautious_bot happy_chain)
      = (inr out2, mkSt cautious_bot happy_chain, []) /\
    (Decimal.toQ out2 <= Decimal.toQ out1)%Q.
Proof.
  assert (Ha : (0 <= Decimal.toQ one_ether)%Q) by (vm_compute; discriminate).
  assert (Hs : (Decimal.toQ (slippage_tolerance default_bot) <=
                Decimal.toQ (slippage_tolerance cautious_bot))%Q)
    by (vm_compute; discriminate).
  split; [exact Ha |]. split; [exact Hs |].
  destruct (estimate_usdc_output_floor Script one_ether
              (mkSt default_bot happy_chain) (mkSt cautious_bot happy_chain)
              Ha Hs)
    as (out1 & out2 & E1 & E2 & _ & _ & Hm & _).
  exists out1, out2. split; [exact E1 |]. split; [exact E2 | exact Hm].
Defined.

Example usdc_floor_of_one_ether :
  usdc_floor one_ether (Decimal.mk 5 (-2)) = Decimal.mk (2375 * 10 ^ 20) (-20) /\
  Decimal.to_int (Decimal.mul (usdc_floor one_ether (Decimal.mk 5 (-2)))
                    (Decimal.mk 1 6)) = 2375 * 10 ^ 6.
Proof. split; vm_compute; reflexivity. Qed.

(** ** Running a method step by step *)

Section Steps.

Context {S : Type}.

Lemma starts_with_eq {A} (pre pre' : list event) (x : result A * S * list event) :
  starts_with pre x -> pre = pre' -> starts_with pre' x.
Proof. intros Hx <-. exact Hx. Qed.

Lemma starts_bind {A B} (m : M S A) (f : A -> M S B) (s s1 : S) (x : A)
    (t1 pre : list event) :
  m s = (inr x, s1, t1) ->
  starts_with pre (f x s1) ->
  starts_with (t1 ++ pre) (bind m f s).
Proof.
  intros Hm [rest Hrest]. unfold bind. rewrite Hm.
  unfold events in *. destruct (f x s1) as [[r2 s2] t2]. cbn in *.
  exists rest. rewrite Hrest. apply app_assoc.
Qed.

Lemma starts_bind_first {A B} (m : M S A) (f : A -> M S B) (s : S)
    (pre : list event) :
  starts_with pre (m s) -> starts_with pre (bind m f s).
Proof.
  intros [rest Hrest]. unfold bind. unfold events in *.
  destruct (m s) as [[[e | x] s1] t1]; cbn in *.
  - exists rest. exact Hrest.
  - destruct (f x s1) as [[r2 s2] t2]. cbn.
    exists (rest ++ t2). rewrite Hrest. symmetry. apply app_assoc.
Qed.

Lemma starts_try_with {A} (catches : exn -> bool) (m : M S A) (h : exn -> M S A)
    (s : S) (pre : list event) :
  starts_with pre (m s) -> starts_with pre (try_with catches m h s).
Proof.
  intros [rest Hrest]. unfold try_with. unfold events in *.
  destruct (m s) as [[[e | x] s1] t1]; cbn in *.
  - destruct (catches e).
    + destruct (h e s1) as [[r2 s2] t2]. cbn.
      exists (rest ++ t2). rewrite Hrest. symmetry. apply app_assoc.
    + exists rest. exact Hrest.
  - exists rest. exact Hrest.
Qed.


Lemma try_with_returns {A} (catches : exn -> bool) (m : M S A) (h : exn -> M S A)
    (s s1 : S) (x : A) (t1 : list event) :
  m s = (inr x, s1, t1) -> try_with catches m h s = (inr x, s1, t1).
Proof. intros Hm. unfold try_with. rewrite Hm. reflexivity. Qed.

Lemma bind_returns {A B} (m : M S A) (f : A -> M S B) (s s1 s2 : S) (x : A)
    (r : result B) (t1 t2 : list event) :
  m s = (inr x, s1, t1) -> f x s1 = (r, s2, t2) ->
  bind m f s = (r, s2, t1 ++ t2).
Proof. intros Hm Hf. unfold bind. rewrite Hm, Hf. reflexivity. Qed.

Lemma bind_raises {A B} (m : M S A) (f : A -> M S B) (s s1 : S) (e : exn)
    (t1 : list event) :
  m s = (inl e, s1, t1) -> bind m f s = (inl e, s1, t1).
Proof. intros Hm. unfold bind. rewrite Hm. reflexivity. Qed.

End Steps.

Lemma call_run {World : Type} `{Chain World} (o : op) (s : St World)
    (r : result (resp o)) (w : World) :
  perform o (chain s) = (r, w) ->
  call o s = (r, mkSt (self_ s) w, [EvCall o]).
Proof. intros Hp. unfold call. rewrite Hp. reflexivity. Qed.

Lemma get_eth_balance_run {World : Type} `{Chain World} (s : St World) (b : Z)
    (w : World) (r : result Decimal.t) :
  perform (OpGetBalance (address_ (self_ s))) (chain s) = (inr b, w) ->
  from_wei_ether b = r ->
  get_eth_balance s =
    (r, mkSt (self_ s) w, [EvCall (OpGetBalance (address_ (self_ s)))]).
Proof.
  intros Hp Hr. unfold get_eth_balance, bind, get_self, call, lift. cbn.
  rewrite Hp. cbn. rewrite Hr. reflexivity.
Qed.

Lemma get_gas_price_starts {World : Type} `{Chain World} (s : St World) :
  starts_with [EvCall OpGasPrice] (get_gas_price s).
Proof.
  unfold get_gas_price, try_except. apply starts_try_with, starts_bind_first.
  unfold call. destruct (perform OpGasPrice (chain s)) as [r w].
  exists []. reflexivity.
Qed.

(** ** The reserve check *)

Ltac run_step tac :=
  eapply bind_returns; [ tac | cbv beta; cbn [negb self_ chain] ].

Ltac start_step tac :=
  eapply starts_bind; [ tac | cbv beta; cbn [negb self_ chain] ].

(** C3 as stated fails: the balance is not compared with the sum of the
    three amounts, but with that sum as [Decimal] addition rounds it.
    With a reserve of 0.100000000000000000000000000001 ether, a trade of
    1 ether and a balance of 1.15 ether, the balance is below the sum, yet
    the cycle is not skipped: the transaction is submitted and
    confirmed. *)
Lemma reserve_check_uses_the_rounded_sum :
  Parse.decimal "0.100000000000000000000000000001"
    = inr (min_eth_balance precise_reserve_bot) /\
  from_wei_ether (10 ^ 18) = inr one_ether /\
  from_wei_ether (115 * 10 ^ 16) = inr (Decimal.mk (115 * 10 ^ 16) (-18)) /\
  (Decimal.toQ (Decimal.mk (115 * 10 ^ 16) (-18)) <
   Decimal.toQ one_ether + Decimal.toQ (min_eth_balance precise_reserve_bot)
     + Decimal.toQ (Decimal.mk 5 (-2)))%Q /\
  outcome (execute_swap
             (mkSt precise_reserve_bot (chain_with_balance (115 * 10 ^ 16))))
    = inr true /\
  submissions
    (events (execute_swap
               (mkSt precise_reserve_bot (chain_with_balance (115 * 10 ^ 16)))))
    = 1%nat.
Proof.
  split; [vm_compute; reflexivity |]. split; [reflexivity |].
  split; [reflexivity |]. split; [vm_compute; reflexivity |].
  split; vm_compute; reflexivity.
Qed.

Section Sizing.

Context {World : Type} `{Chain World}.
Variables (s : St World) (w1 w2 w3 : World) (amount balance : Z).
Variables (eth_amount account_balance : Decimal.t).

Hypothesis Hsignal : perform OpShouldExecute (chain s) = (inr true, w1).
Hypothesis Hamount : perform OpDefaultSwapAmount w1 = (inr amount, w2).
Hypothesis Heth : from_wei_ether amount = inr eth_amount.
Hypothesis Hbalance :
  perform (OpGetBalance (address_ (self_ s))) w2 = (inr balance, w3).
Hypothesis Haccount : from_wei_ether balance = inr account_balance.

Lemma execute_swap_skips_on_low_balance :
  Decimal.ltb account_balance (required_balance_of (self_ s) eth_amount) = true ->
  execute_swap s =
    (inr false, mkSt (self_ s) w3,
     sizing_events (self_ s) ++
       [EvLog WARNING
          (MsgInsufficientBalance account_balance
             (required_balance_of (self_ s) eth_amount))]).
Proof.
  intros Hlow. etransitivity.
  { unfold execute_swap, try_except. eapply try_with_returns.
    run_step ltac:(apply call_run; exact Hsignal).
    run_step ltac:(apply call_run; exact Hamount).
    run_step ltac:(unfold lift; rewrite Heth; reflexivity).
    run_step ltac:(eapply get_eth_balance_run; [exact Hbalance | exact Haccount]).
    run_step ltac:(reflexivity).
    cbv zeta. fold (required_balance_of (self_ s) eth_amount). rewrite Hlow.
    run_step ltac:(reflexivity). reflexivity. }
  reflexivity.
Qed.

Lemma execute_swap_prices_on_enough_balance :
  Decimal.ltb account_balance (required_balance_of (self_ s) eth_amount) = false ->
  starts_with (sizing_events (self_ s) ++ [EvCall OpGasPrice]) (execute_swap s).
Proof.
  intros Henough. eapply starts_with_eq.
  { unfold execute_swap, try_except. apply starts_try_with.
    start_step ltac:(apply call_run; exact Hsignal).
    start_step ltac:(apply call_run; exact Hamount).
    start_step ltac:(unfold lift; rewrite Heth; reflexivity).
    start_step ltac:(eapply get_eth_balance_run; [exact Hbalance | exact Haccount]).
    start_step ltac:(reflexivity).
    cbv zeta. fold (required_balance_of (self_ s) eth_amount). rewrite Henough.
    start_step ltac:(apply estimate_usdc_output_run).
    apply starts_bind_first. apply get_gas_price_starts. }
  reflexivity.
Qed.

(** C3, amended.  [execute_swap] compares the account balance with the
    required balance: the sum of the trade size, the configured minimum
    reserve and the fixed 0.05 ether gas buffer as [Decimal] addition
    computes it, each addition rounded to the 28 digits of the context.
    If the balance is strictly below the required balance, the method logs
    the shortfall with both amounts and returns [False] without any
    chain-write call; otherwise, the case of equality included, it goes on
    to price the gas. *)
Theorem reserve_check_is_strict :
  let required := required_balance_of (self_ s) eth_amount in
  ((Decimal.toQ account_balance < Decimal.toQ required)%Q ->
   execute_swap s =
     (inr false, mkSt (self_ s) w3,
      sizing_events (self_ s) ++
        [EvLog WARNING (MsgInsufficientBalance account_balance required)]) /\
   Forall (fun ev => is_chain_write ev = false) (events (execute_swap s))) /\
  ((Decimal.toQ required <= Decimal.toQ account_balance)%Q ->
   starts_with (sizing_events (self_ s) ++ [EvCall OpGasPrice]) (execute_swap s)).
Proof.
  intros required. split.
  - intros Hlt. apply ltb_spec in Hlt.
    pose proof (execute_swap_skips_on_low_balance Hlt) as Hrun.
    split; [exact Hrun |]. rewrite Hrun. cbn. repeat constructor.
  - intros Hle. apply ltb_false_spec in Hle.
    apply execute_swap_prices_on_enough_balance. exact Hle.
Qed.

End Sizing.

(** ** The gas limit *)


Section GasLimit.

Context {World : Type} `{Chain World}.
Variables (s : St World) (w1 w2 w3 : World) (amount balance : Z).
Variables (eth_amount account_balance : Decimal.t).
Variables (s4 : St World) (t4 : list event) (gas_price : Z).

Hypothesis Hsignal : perform OpShouldExecute (chain s) = (inr true, w1).
Hypothesis Hamount : perform OpDefaultSwapAmount w1 = (inr amount, w2).
Hypothesis Heth : from_wei_ether amount = inr eth_amount.
Hypothesis Hbalance :
  perform (OpGetBalance (address_ (self_ s))) w2 = (inr balance, w3).
Hypothesis Haccount : from_wei_ether balance = inr account_balance.
Hypothesis Henough :
  (Decimal.toQ (required_balance_of (self_ s) eth_amount) <=
   Decimal.toQ account_balance)%Q.
Hypothesis Hprice : get_gas_price (mkSt (self_ s) w3) = (inr gas_price, s4, t4).



End GasLimit.

(** ** The percentage of the status report *)

Lemma two_neq_0 : ~ (2 == 0)%Q.
Proof. intros H0; discriminate H0. Qed.

Lemma floor_log2_ratio_upper (a b : Z) :
  PyFloat.floor_log2_ratio a b <= Z.log2 a - Z.log2 b.
Proof.
  unfold PyFloat.floor_log2_ratio.
  destruct (if 0 <=? Z.log2 a - Z.log2 b then _ else _); lia.
Qed.

(** Below 2^52 the percentage is within half of 1/100 of the quotient:
    the raw signal is the integer nearest to a hundred times the
    percentage. *)
Lemma int_truediv_100_accurate (raw : Z) :
  0 <= raw < 2 ^ 52 ->
  exists m e,
    PyFloat.int_truediv raw 100 = inr (PyFloat.Fin m e) /\
    (Qabs (100 * PyFloat.toQ (PyFloat.Fin m e) - inject_Z raw) < 1 # 2)%Q.
Proof.
  intros [Hlo Hhi].
  destruct (Z.eq_dec raw 0) as [-> | Hne].
  { exists 0, 0. split; [reflexivity |]. vm_compute. reflexivity. }
  assert (Hpos : 0 < raw) by lia.
  unfold PyFloat.int_truediv. cbn [Z.eqb Z.sgn Z.abs].
  rewrite Z.mul_1_r. unfold PyFloat.round_binary64.
  destruct (Z.eqb_spec raw 0) as [| _]; [contradiction |].
  rewrite Z.abs_eq, Z.sgn_pos by lia.
  pose proof (floor_log2_ratio_upper raw 100) as HL.
  assert (Hlog : Z.log2 raw < 52) by (apply Z.log2_lt_pow2; lia).
  change (Z.log2 100) with 6 in HL.
  set (e := Z.max (PyFloat.floor_log2_ratio raw 100 - 52) (-1074)) in *.
  assert (He : -1074 <= e <= -7) by (unfold e; lia).
  destruct (Z.leb_spec 0 e) as [| _]; [lia |].
  destruct (Z.ltb_spec 971 e) as [| _]; [lia |].
  destruct (Z.eqb_spec e 971) as [| _]; [lia |].
  cbn [orb andb]. rewrite Z.mul_1_l.
  set (m := div_half_even (raw * 2 ^ (- e)) 100).
  exists m, e. split; [reflexivity |].
  assert (Hp : 0 < 2 ^ (- e)) by (apply Z.pow_pos_nonneg; lia).
  pose proof (div_half_even_error (raw * 2 ^ (- e)) 100 ltac:(lia)) as Herr.
  fold m in Herr.
  set (D := 100 * m - raw * 2 ^ (- e)) in *.
  assert (HD : -50 <= D <= 50) by lia.
  assert (Hval : (100 * PyFloat.toQ (PyFloat.Fin m e) - inject_Z raw
                  == inject_Z D * 2 ^ e)%Q).
  { unfold PyFloat.toQ, D.
    unfold Z.sub. rewrite inject_Z_plus, inject_Z_opp, !inject_Z_mult.
    rewrite Zpower_Qpower by lia. change (inject_Z 2) with 2%Q.
    change (inject_Z 100) with 100%Q.
    assert (Hinv : (2 ^ (- e) * 2 ^ e == 1)%Q).
    { rewrite <- Qpower_plus by apply two_neq_0.
      replace (- e + e) with 0 by lia. reflexivity. }
    transitivity (100 * (inject_Z m * 2 ^ e) - inject_Z raw * (2 ^ (- e) * 2 ^ e))%Q.
    - rewrite Hinv. ring.
    - ring. }
  rewrite Hval.
  assert (Hsmall : (2 ^ e <= 2 ^ (-7))%Q).
  { apply Qpower_le_compat_l; [lia | discriminate]. }
  assert (Hpow : (0 < 2 ^ e)%Q) by (apply Qpower_0_lt; reflexivity).
  apply Qabs_Qlt_condition. split.
  - apply Qlt_le_trans with (y := (inject_Z (-50) * 2 ^ (-7))%Q);
      [vm_compute; reflexivity |].
    apply Qle_trans with (y := (inject_Z (-50) * 2 ^ e)%Q).
    + assert (H50 : (inject_Z (-50) == - inject_Z 50)%Q) by reflexivity.
      rewrite !H50.
      setoid_replace (- inject_Z 50 * 2 ^ (-7))%Q with (- (inject_Z 50 * 2 ^ (-7)))%Q
        by ring.
      setoid_replace (- inject_Z 50 * 2 ^ e)%Q with (- (inject_Z 50 * 2 ^ e))%Q
        by ring.
      apply Qopp_le_compat. apply Qmult_le_l; [reflexivity | exact Hsmall].
    + apply Qmult_le_compat_r; [| apply Qlt_le_weak; exact Hpow].
      rewrite <- Zle_Qle. lia.
  - apply Qle_lt_trans with (y := (inject_Z 50 * 2 ^ (-7))%Q);
      [| vm_compute; reflexivity].
    apply Qle_trans with (y := (inject_Z 50 * 2 ^ e)%Q).
    + apply Qmult_le_compat_r; [| apply Qlt_le_weak; exact Hpow].
      rewrite <- Zle_Qle. lia.
    + apply Qmult_le_l; [reflexivity | exact Hsmall].
Qed.

(** The percentage of a status report is the quotient of its raw signal. *)
Lemma get_status_percentage {World : Type} `{Chain World} (s s' : St World)
    (st : Status) (evs : list event) :
  get_status s = (inr (Some st), s', evs) ->
  PyFloat.int_truediv (current_apr st) 100 = inr (current_apr_percentage st).
Proof.
  unfold get_status, try_except, try_with, bind at 1, call.
  destruct (perform OpGetStatus (chain s)) as [[e | [[[apr flag] eth] usdc]] w].
  - cbn. destruct (is_Exception e); cbn; intros Heq; inversion Heq.
  - unfold bind at 1, lift at 1.
    destruct (PyFloat.int_truediv apr 100) as [e | pct] eqn:Hpct.
    + cbn. destruct (is_Exception e); cbn; intros Heq; inversion Heq.
    + unfold bind at 1, lift at 1.
      destruct (from_wei_ether eth) as [e | ceth].
      * cbn. destruct (is_Exception e); cbn; intros Heq; inversion Heq.
      * unfold bind at 1, lift at 1.
        destruct (PyFloat.int_div usdc PyFloat.lit_1e6) as [e | cusdc].
        -- cbn. destruct (is_Exception e); cbn; intros Heq; inversion Heq.
        -- unfold bind at 1.
           destruct (get_eth_balance _) as [[[e | bal] s1] t1].
           ++ cbn. destruct (is_Exception e); cbn; intros Heq; inversion Heq.
           ++ cbn. intros Heq. inversion Heq. subst. cbn. exact Hpct.
Qed.

(** C9 as stated fails: the percentage is a binary float, so it is not
    the exact hundredth of the raw signal (already for a raw signal of 1),
    and from 2^53 on neighbouring raw signals report the same percentage
    (2^60 and 2^60 + 1 do). *)
Lemma percentage_is_not_the_exact_quotient :
  (exists st,
      outcome (get_status (mkSt default_bot (chain_with_apr 1))) = inr (Some st) /\
      current_apr st = 1 /\
      ~ (PyFloat.toQ (current_apr_percentage st) == 1 # 100)%Q) /\
  (exists st st',
      outcome (get_status (mkSt default_bot (chain_with_apr (2 ^ 60))))
        = inr (Some st) /\
      outcome (get_status (mkSt default_bot (chain_with_apr (2 ^ 60 + 1))))
        = inr (Some st') /\
      current_apr st <> current_apr st' /\
      current_apr_percentage st = current_apr_percentage st' /\
      ~ (PyFloat.toQ (current_apr_percentage st') == inject_Z (2 ^ 60 + 1) / 100)%Q).
Proof.
  split.
  - eexists. split; [vm_compute; reflexivity |]. split; [reflexivity |].
    cbn [current_apr_percentage]. intros Heq. vm_compute in Heq. discriminate Heq.
  - eexists. eexists. split; [vm_compute; reflexivity |].
    split; [vm_compute; reflexivity |].
    split; [cbn; discriminate |]. split; [reflexivity |].
    cbn [current_apr_percentage]. intros Heq. vm_compute in Heq. discriminate Heq.
Qed.

(** C9, amended.  The percentage of a status report is the float quotient
    [current_apr / 100], a function of the raw signal alone; for every raw
    signal below 2^52 a hundred times the percentage is within one half of
    the raw signal, so that nothing is lost at the scale of 1/100 of a
    percent. *)
Theorem percentage_is_the_float_quotient :
  forall (World : Type) (C : Chain World) (s s' : St World) (st : Status)
         (evs : list event),
    get_status s = (inr (Some st), s', evs) ->
    PyFloat.int_truediv (current_apr st) 100 = inr (current_apr_percentage st) /\
    (0 <= current_apr st < 2 ^ 52 ->
     (Qabs (100 * PyFloat.toQ (current_apr_percentage st)
            - inject_Z (current_apr st)) < 1 # 2)%Q).
Proof.
  intros World C s s' st evs Hst.
  pose proof (get_status_percentage s s' st evs Hst) as Hpct.
  split; [exact Hpct |].
  intros Hraw.
  destruct (int_truediv_100_accurate (current_apr st) Hraw) as (m & e & Hdiv & Hacc).
  rewrite Hdiv in Hpct. injection Hpct as <-. exact Hacc.
Qed.

Lemma percentage_is_the_float_quotient_witness :
  get_status (mkSt default_bot happy_chain) =
    (inr (Some (mkStatus 450 (PyFloat.Fin 5066549580791808 (-50)) true
                  (Decimal.mk (10 ^ 18) (-18))
                  (PyFloat.Fin 5629499534213120 (-50))
                  (PyFloat.Fin 4503599627370496 (-51)))),
     mkSt default_bot happy_chain,
     [EvCall OpGetStatus; EvCall (OpGetBalance "0xAccount"%string)]) /\
  PyFloat.int_truediv 450 100 = inr (PyFloat.Fin 5066549580791808 (-50)).
Proof.
  assert (Hst : get_status (mkSt default_bot happy_chain) =
    (inr (Some (mkStatus 450 (PyFloat.Fin 5066549580791808 (-50)) true
                  (Decimal.mk (10 ^ 18) (-18))
                  (PyFloat.Fin 5629499534213120 (-50))
                  (PyFloat.Fin 4503599627370496 (-51)))),
     mkSt default_bot happy_chain,
     [EvCall OpGetStatus; EvCall (OpGetBalance "0xAccount"%string)]))
    by (vm_compute; reflexivity).
  split; [exact Hst |].
  exact (proj1 (percentage_is_the_float_quotient Script Script_Chain _ _ _ _ Hst)).
Defined.

(** The float model agrees with the binary64 specification of the
    standard library on the quotients used above. *)
Example int_truediv_agrees_with_SFdiv :
  PyFloat.to_spec (PyFloat.round_binary64 1 100)
    = SFdiv 53 1024 (S754_finite false 1 0) (S754_finite false 100 0) /\
  PyFloat.to_spec (PyFloat.round_binary64 450 100)
    = SFdiv 53 1024 (S754_finite false 450 0) (S754_finite false 100 0) /\
  PyFloat.to_spec (PyFloat.round_binary64 (2 ^ 60 + 1) 100)
    = SFdiv 53 1024 (S754_finite false (2 ^ 60 + 1) 0) (S754_finite false 100 0) /\
  PyFloat.to_spec (PyFloat.round_binary64 (2 ^ 256 - 1) 100)
    = SFdiv 53 1024 (S754_finite false (2 ^ 256 - 1) 0) (S754_finite false 100 0).
Proof. repeat split; vm_compute; reflexivity. Qed.

Example gas_buffer_of_twenty_percent :
  PyFloat.to_spec PyFloat.lit_1_2
    = SFdiv 53 1024 (S754_finite false 12 0) (S754_finite false 10 0) /\
  (forall x, PyFloat.int_mul 21000 PyFloat.lit_1_2 = inr x -> PyFloat.to_int x = inr 25200) /\
  (forall x, PyFloat.int_mul 100000 PyFloat.lit_1_2 = inr x -> PyFloat.to_int x = inr 120000).
Proof.
  split; [vm_compute; reflexivity |].
  split; intros x Hx; vm_compute in Hx; injection Hx as <-; vm_compute; reflexivity.
Qed.

(** ** The configuration *)

Section Frame.

Context {World : Type} `{Chain World}.

Lemma same_self_refl (s : St World) : same_self s s.
Proof. reflexivity. Qed.

Lemma same_self_trans (a b c : St World) :
  same_self a b -> same_self b c -> same_self a c.
Proof. unfold same_self. congruence. Qed.

Lemma get_gas_price_keeps_self :
  respects any_event same_self any_exn get_gas_price.
Proof. unfold get_gas_price, try_except. respectful. Qed.

Lemma get_eth_balance_keeps_self :
  respects any_event same_self any_exn get_eth_balance.
Proof. unfold get_eth_balance. respectful. Qed.

Lemma estimate_usdc_output_keeps_self a :
  respects any_event same_self any_exn (estimate_usdc_output (World := World) a).
Proof. unfold estimate_usdc_output. respectful. Qed.

#[local] Hint Resolve get_gas_price_keeps_self get_eth_balance_keeps_self
  estimate_usdc_output_keeps_self : respectful.

Lemma get_status_keeps_self :
  respects any_event same_self any_exn get_status.
Proof. unfold get_status, try_except. respectful. Qed.

Lemma execute_swap_keeps_self :
  respects any_event same_self any_exn execute_swap.
Proof. unfold execute_swap, try_except. respectful. Qed.

#[local] Hint Resolve get_status_keeps_self execute_swap_keeps_self : respectful.

Lemma run_once_keeps_self :
  respects any_event same_self any_exn run_once.
Proof. unfold run_once. respectful. Qed.

#[local] Hint Resolve run_once_keeps_self : respectful.

Lemma daemon_loop_keeps_self (n : nat) :
  respects any_event same_self any_exn (daemon_loop n).
Proof.
  induction n as [| n IH]; cbn [daemon_loop]; respectful.
Qed.

Lemma run_daemon_keeps_self (n : nat) :
  respects any_event same_self any_exn (run_daemon n).
Proof.
  pose proof (daemon_loop_keeps_self n).
  unfold run_daemon. respectful; assumption.
Qed.

End Frame.

Lemma init_reads_the_environment {World : Type} `{Chain World} (env : Env)
    (w w' : World) (bot : FarmBot) (evs : list event) :
  init env w = (inr bot, w', evs) ->
  getenv_int env "POLL_INTERVAL" 300 = inr (poll_interval bot) /\
  getenv_int env "MAX_GAS_PRICE" 50 = inr (max_gas_price bot) /\
  getenv_Decimal env "MIN_ETH_BALANCE" "0.1" = inr (min_eth_balance bot) /\
  getenv_Decimal env "SLIPPAGE_TOLERANCE" "0.05" = inr (slippage_tolerance bot).
Proof.
  unfold init. intros Hinit.
  destruct (truthy (env "PRIVATE_KEY"%string)) as [key |]; [| discriminate].
  destruct (truthy (env "FARMBOT_CONTRACT_ADDRESS"%string)) as [addr |];
    [| discriminate].
  unfold bind, call0, lift, log, ret, raise in Hinit.
  destruct (perform OpIsConnected w) as [[e | connected] w1]; [discriminate |].
  destruct connected; cbn [negb] in Hinit; [| discriminate].
  destruct (perform (OpFromKey key) w1) as [[e | a] w2]; [discriminate |].
  destruct (perform (OpLoadContract addr) w2) as [[e | c] w3]; [discriminate |].
  destruct (getenv_int env "POLL_INTERVAL" 300) as [e | poll]; [discriminate |].
  destruct (getenv_int env "MAX_GAS_PRICE" 50) as [e | gas]; [discriminate |].
  destruct (getenv_Decimal env "MIN_ETH_BALANCE" "0.1") as [e | reserve];
    [discriminate |].
  destruct (getenv_Decimal env "SLIPPAGE_TOLERANCE" "0.05") as [e | slippage];
    [discriminate |].
  cbn in Hinit. injection Hinit as <- _ _. cbn. repeat split.
Qed.

(** C10 as stated fails: [__init__] checks none of the four values, so a
    negative poll interval and a slippage tolerance of 1.5 are accepted. *)
Lemma careless_configuration_is_accepted :
  exists bot w evs,
    init careless_env happy_chain = (inr bot, w, evs) /\
    poll_interval bot = -5 /\
    (1 < Decimal.toQ (slippage_tolerance bot))%Q /\
    ~ config_invariant bot.
Proof.
  eexists; eexists; eexists. split; [vm_compute; reflexivity |].
  split; [reflexivity |]. split; [vm_compute; reflexivity |].
  intros (Hpoll & _). cbn in Hpoll. lia.
Qed.

(** C10, amended.  After startup the four configuration values are the
    ones the environment supplied, the defaults 300, 50, 0.1 and 0.05
    standing in for unset variables; with the defaults they are
    non-negative and the slippage tolerance lies in [0, 1).  No method
    changes them, or any other attribute of the bot, afterwards. *)
Theorem configuration_is_read_once :
  forall (World : Type) (C : Chain World) (env : Env) (w w' : World)
         (bot : FarmBot) (evs : list event),
    init env w = (inr bot, w', evs) ->
    (getenv_int env "POLL_INTERVAL" 300 = inr (poll_interval bot) /\
     getenv_int env "MAX_GAS_PRICE" 50 = inr (max_gas_price bot) /\
     getenv_Decimal env "MIN_ETH_BALANCE" "0.1" = inr (min_eth_balance bot) /\
     getenv_Decimal env "SLIPPAGE_TOLERANCE" "0.05"
       = inr (slippage_tolerance bot)) /\
    (env "POLL_INTERVAL"%string = None ->
     env "MAX_GAS_PRICE"%string = None ->
     env "MIN_ETH_BALANCE"%string = None ->
     env "SLIPPAGE_TOLERANCE"%string = None ->
     poll_interval bot = 300 /\ max_gas_price bot = 50 /\
     min_eth_balance bot = Decimal.mk 1 (-1) /\
     slippage_tolerance bot = Decimal.mk 5 (-2) /\
     config_invariant bot) /\
    (forall (s : St World) (a : Decimal.t) (n : nat),
        self_ s = bot ->
        self_ (final (get_gas_price s)) = bot /\
        self_ (final (get_eth_balance s)) = bot /\
        self_ (final (get_status s)) = bot /\
        self_ (final (estimate_usdc_output a s)) = bot /\
        self_ (final (execute_swap s)) = bot /\
        self_ (final (run_once s)) = bot /\
        self_ (final (run_daemon n s)) = bot).
Proof.
  intros World C env w w' bot evs Hinit.
  pose proof (init_reads_the_environment env w w' bot evs Hinit)
    as (Hpoll & Hgas & Hreserve & Hslip).
  split; [repeat split; assumption |]. split.
  - intros E1 E2 E3 E4.
    unfold getenv_int, getenv_Decimal in *. rewrite E1 in Hpoll.
    rewrite E2 in Hgas. rewrite E3 in Hreserve. rewrite E4 in Hslip.
    injection Hpoll as Hpoll. injection Hgas as Hgas.
    assert (P1 : Parse.decimal "0.1" = inr (Decimal.mk 1 (-1))) by reflexivity.
    assert (P2 : Parse.decimal "0.05" = inr (Decimal.mk 5 (-2))) by reflexivity.
    rewrite P1 in Hreserve. rewrite P2 in Hslip.
    injection Hreserve as Hreserve. injection Hslip as Hslip.
    unfold config_invariant.
    rewrite <- Hpoll, <- Hgas, <- Hreserve, <- Hslip.
    split; [reflexivity |]. split; [reflexivity |].
    split; [reflexivity |]. split; [reflexivity |].
    split; [lia |]. split; [lia |].
    split; [vm_compute; discriminate |].
    split; [vm_compute; discriminate |].
    vm_compute. reflexivity.
  - intros s a n <-.
    split; [apply (get_gas_price_keeps_self s) |].
    split; [apply (get_eth_balance_keeps_self s) |].
    split; [apply (get_status_keeps_self s) |].
    split; [apply (estimate_usdc_output_keeps_self a s) |].
    split; [apply (execute_swap_keeps_self s) |].
    split; [apply (run_once_keeps_self s) |].
    apply (run_daemon_keeps_self n s).
Qed.

Lemma configuration_is_read_once_witness :
  init default_env happy_chain =
    (inr default_bot, happy_chain,
     [EvCall OpIsConnected; EvCall (OpFromKey "0xKey");
      EvCall (OpLoadContract "0xFarmBot");
      EvLog INFO (MsgInitialized "0xAccount"%string);
      EvLog INFO (MsgContractAddress "0xFarmBot");
      EvLog INFO (MsgPollInterval 300)]) /\
  config_invariant default_bot /\
  self_ (final (run_once (mkSt default_bot happy_chain))) = default_bot.
Proof.
  assert (Hinit : init default_env happy_chain =
    (inr default_bot, happy_chain,
     [EvCall OpIsConnected; EvCall (OpFromKey "0xKey");
      EvCall (OpLoadContract "0xFarmBot");
      EvLog INFO (MsgInitialized "0xAccount"%string);
      EvLog INFO (MsgContractAddress "0xFarmBot");
      EvLog INFO (MsgPollInterval 300)])) by (vm_compute; reflexivity).
  split; [exact Hinit |].
  destruct (configuration_is_read_once Script Script_Chain _ _ _ _ _ Hinit)
    as (_ & Hdefault & Hkeep).
  split.
  - apply Hdefault; reflexivity.
  - apply (Hkeep (mkSt default_bot happy_chain) one_ether 0%nat eq_refl).
Defined.

(** For every estimate a node can report (below 2^64) the buffered gas
    limit [int(g * 1.2)] exists: neither the conversion of [g] to a float
    nor the product overflows. *)
Lemma floor_log2_ratio_lower (a b : Z) :
  Z.log2 a - Z.log2 b - 1 <= PyFloat.floor_log2_ratio a b.
Proof.
  unfold PyFloat.floor_log2_ratio.
  destruct (if 0 <=? Z.log2 a - Z.log2 b then _ else _); lia.
Qed.

Lemma round_binary64_finite (num den : Z) :
  Z.log2 (Z.abs num) - Z.log2 den < 1023 ->
  exists m e, PyFloat.round_binary64 num den = PyFloat.Fin m e.
Proof.
  intros Hlog. unfold PyFloat.round_binary64.
  destruct (num =? 0); [exists 0, 0; reflexivity |].
  pose proof (floor_log2_ratio_upper (Z.abs num) den) as HL.
  set (e := Z.max (PyFloat.floor_log2_ratio (Z.abs num) den - 52) (-1074)) in *.
  assert (He : e < 971) by (unfold e; lia).
  destruct (Z.ltb_spec 971 e) as [| _]; [lia |].
  destruct (Z.eqb_spec e 971) as [| _]; [lia |].
  cbn [orb andb]. eexists; eexists; reflexivity.
Qed.

Lemma float_of_int_small (g : Z) :
  0 < g < 2 ^ 64 ->
  exists m e,
    PyFloat.of_int g = inr (PyFloat.Fin m e) /\ 0 <= m < 2 ^ 118 /\ e <= 11.
Proof.
  intros [Hpos Hlt]. unfold PyFloat.of_int, PyFloat.round_binary64.
  destruct (Z.eqb_spec g 0) as [| _]; [lia |].
  rewrite Z.abs_eq, Z.sgn_pos, Z.mul_1_l by lia.
  pose proof (floor_log2_ratio_upper g 1) as Hup.
  pose proof (floor_log2_ratio_lower g 1) as Hlow.
  change (Z.log2 1) with 0 in Hup, Hlow.
  assert (Hlog : 0 <= Z.log2 g < 64).
  { split; [apply Z.log2_nonneg | apply Z.log2_lt_pow2; lia]. }
  set (e := Z.max (PyFloat.floor_log2_ratio g 1 - 52) (-1074)) in *.
  assert (He : -53 <= e <= 11) by (unfold e; lia).
  destruct (Z.ltb_spec 971 e) as [| _]; [lia |].
  destruct (Z.eqb_spec e 971) as [| _]; [lia |].
  cbn [orb andb]. eexists; eexists. split; [reflexivity |]. split; [| lia].
  destruct (Z.leb_spec 0 e) as [Hnn | Hneg].
  - assert (Hp : 0 < 2 ^ e) by (apply Z.pow_pos_nonneg; lia).
    pose proof (div_half_even_between g (2 ^ e)) as Hb.
    pose proof (div_half_even_nonneg g (2 ^ e) ltac:(lia) Hp) as Hn.
    assert (Hq : g / 2 ^ e <= g) by (apply Z.div_le_upper_bound; nia).
    assert (H64 : 2 ^ 64 < 2 ^ 118) by reflexivity.
    lia.
  - replace (g * 2 ^ (- e)) with (g * 2 ^ (- e) * 1) by ring.
    rewrite div_half_even_exact by lia.
    assert (Hp : 0 < 2 ^ (- e)) by (apply Z.pow_pos_nonneg; lia).
    assert (Hle : 2 ^ (- e) <= 2 ^ 53) by (apply Z.pow_le_mono_r; lia).
    assert (H118 : 2 ^ 64 * 2 ^ 53 < 2 ^ 118) by reflexivity.
    split; [nia |].
    apply Z.le_lt_trans with (m := g * 2 ^ 53); [nia |].
    apply Z.lt_trans with (m := 2 ^ 64 * 2 ^ 53); [| exact H118].
    apply Z.mul_lt_mono_pos_r; [reflexivity | exact Hlt].
Qed.

Lemma buffered_gas_limit_defined (g : Z) :
  0 <= g < 2 ^ 64 ->
  exists scaled limit,
    PyFloat.int_mul g PyFloat.lit_1_2 = inr scaled /\
    PyFloat.to_int scaled = inr limit.
Proof.
  intros [Hnn Hlt].
  destruct (Z.eq_dec g 0) as [-> | Hne].
  { eexists; eexists. split; vm_compute; reflexivity. }
  destruct (float_of_int_small g ltac:(lia)) as (m & e & Hof & Hm & He).
  unfold PyFloat.int_mul. rewrite Hof.
  unfold PyFloat.mul, PyFloat.lit_1_2.
  destruct (Z.leb_spec 0 (e + -52)) as [| _]; [lia |].
  destruct (round_binary64_finite (m * 5404319552844595) (2 ^ (- (e + -52))))
    as (m' & e' & Hr).
  - rewrite Z.log2_pow2 by lia.
    destruct (Z.eq_dec m 0) as [-> | Hm0]; [cbn; lia |].
    assert (Hprod : 0 < m * 5404319552844595 < 2 ^ 171).
    { split; [lia |].
      apply Z.lt_trans with (m := 2 ^ 118 * 5404319552844595); [lia | reflexivity]. }
    rewrite Z.abs_eq by lia.
    assert (Z.log2 (m * 5404319552844595) < 171) by (apply Z.log2_lt_pow2; lia).
    lia.
  - rewrite Hr. eexists; eexists. split; reflexivity.
Qed.

(** The float model agrees with the binary64 specification of the
    standard library on the conversions and products of the gas buffer. *)
Example gas_buffer_agrees_with_SFmul :
  PyFloat.to_spec (PyFloat.mul (PyFloat.Fin 21000 0) PyFloat.lit_1_2)
    = SFmul 53 1024 (binary_normalize 53 1024 21000 0 false)
        (PyFloat.to_spec PyFloat.lit_1_2) /\
  PyFloat.to_spec (PyFloat.mul (PyFloat.Fin 4503599627370499 0) PyFloat.lit_1_2)
    = SFmul 53 1024 (binary_normalize 53 1024 4503599627370499 0 false)
        (PyFloat.to_spec PyFloat.lit_1_2) /\
  PyFloat.to_spec (PyFloat.round_binary64 (2 ^ 64 - 1) 1)
    = binary_normalize 53 1024 (2 ^ 64 - 1) 0 false /\
  PyFloat.to_spec (PyFloat.round_binary64 (2 ^ 1024 - 1) 1)
    = binary_normalize 53 1024 (2 ^ 1024 - 1) 0 false.
Proof. repeat split; vm_compute; reflexivity. Qed.

(** ** The properties at work on scripted chains *)

Lemma script_errors_are_Exceptions : chain_errors_are_Exceptions Script.
Proof.
  intros o w e Hsleep He. unfold perform, Script_Chain in He. cbn [fst] in He.
  destruct o; cbn in He, Hsleep; try discriminate;
    unfold answer, answer_with in He;
    repeat match type of He with
           | context [match ?x with _ => _ end] => destruct x
           end;
    try discriminate; injection He as <-; reflexivity.
Qed.

Lemma cycle_failures_never_escape_witness :
  chain_errors_are_Exceptions Script /\
  exists s1 t1, run_once (mkSt default_bot timeout_chain) = (inr tt, s1, t1).
Proof.
  split; [exact script_errors_are_Exceptions |].
  destruct (cycle_failures_never_escape Script Script_Chain
              script_errors_are_Exceptions (mkSt default_bot timeout_chain))
    as [(s1 & t1 & Hrun & _) _].
  exists s1, t1. exact Hrun.
Defined.

Lemma reserve_check_is_strict_witness :
  let chain := chain_with_balance (115 * 10 ^ 16) in
  let balance := Decimal.mk (115 * 10 ^ 16) (-18) in
  perform OpShouldExecute chain = (inr true, chain) /\
  perform OpDefaultSwapAmount chain = (inr (10 ^ 18), chain) /\
  from_wei_ether (10 ^ 18) = inr one_ether /\
  perform (OpGetBalance "0xAccount"%string) chain = (inr (115 * 10 ^ 16), chain) /\
  from_wei_ether (115 * 10 ^ 16) = inr balance /\
  (Decimal.toQ (required_balance_of default_bot one_ether) == Decimal.toQ balance)%Q /\
  starts_with (sizing_events default_bot ++ [EvCall OpGasPrice])
    (execute_swap (mkSt default_bot chain)).
Proof.
  intros chain balance.
  split; [reflexivity |]. split; [reflexivity |]. split; [reflexivity |].
  split; [reflexivity |]. split; [reflexivity |].
  split; [vm_compute; reflexivity |].
  apply (proj2 (reserve_check_is_strict (mkSt default_bot chain) chain chain chain
                  (10 ^ 18) (115 * 10 ^ 16) one_ether balance
                  eq_refl eq_refl eq_refl eq_refl eq_refl)).
  vm_compute. discriminate.
Defined.

Example low_balance_is_skipped :
  execute_swap (mkSt default_bot (chain_with_balance (115 * 10 ^ 16 - 1))) =
    (inr false, mkSt default_bot (chain_with_balance (115 * 10 ^ 16 - 1)),
     sizing_events default_bot ++
       [EvLog WARNING
          (MsgInsufficientBalance (Decimal.mk (115 * 10 ^ 16 - 1) (-18))
             (Decimal.mk (115 * 10 ^ 16) (-18)))]).
Proof. vm_compute. reflexivity. Qed.

(** The required balance is a [Decimal] sum: beyond 28 significant digits
    it is the rounded sum. *)
Example required_balance_is_a_rounded_sum :
  let trade := Decimal.mk (10 ^ 28 + 1) (-18) in
  required_balance_of default_bot trade = Decimal.mk (1000000000015 * 10 ^ 15) (-17) /\
  (Decimal.toQ (required_balance_of default_bot trade) <
   Decimal.toQ trade + Decimal.toQ (min_eth_balance default_bot) + (5 # 100))%Q.
Proof. split; vm_compute; reflexivity. Qed.


Example gas_limit_on_the_happy_chain :
  exists rest,
    events (execute_swap (mkSt default_bot happy_chain)) =
      sizing_events default_bot ++
        [EvCall OpGasPrice;
         EvCall (OpEstimateGas (10 ^ 18) 2375000000 "0xAccount"%string (10 ^ 18));
         EvCall (OpGetTransactionCount "0xAccount"%string);
         EvCall (OpBuildTransaction (10 ^ 18) 2375000000
                   (mkTxParams "0xAccount"%string (10 ^ 18) 120000 (30 * 10 ^ 9) 7))]
        ++ rest.
Proof. eexists. vm_compute. reflexivity. Qed.

(* ===================================================================== *)
(** * Part III: further properties of the code *)
(* ===================================================================== *)

(** ** The daemon *)

Lemma daemon_loop_unfold {World : Type} `{Chain World} (n : nat) (s : St World) :
  daemon_loop (S n) s =
    let '(r, s1, t1) := run_once s in
    match r with
    | inl e => (inl e, s1, t1)
    | inr _ =>
        let secs := poll_interval (self_ s1) in
        let turn := t1 ++ [EvLog INFO (MsgSleeping secs); EvCall (OpSleep secs)] in
        match perform (OpSleep secs) (chain s1) with
        | (inl e, w) => (inl e, mkSt (self_ s1) w, turn)
        | (inr _, w) =>
            let '(r', s', t') := daemon_loop n (mkSt (self_ s1) w) in
            (r', s', turn ++ t')
        end
    end.
Proof.
  destruct (run_once s) as [[[e | []] s1] t1] eqn:Hrun.
  - cbn [daemon_loop]. apply bind_raises. exact Hrun.
  - apply daemon_loop_turn. exact Hrun.
Qed.

Lemma run_once_turn_marks {World : Type} `{Chain World} (s : St World) :
  List.filter is_turn_mark (events (run_once s)) = [EvLog INFO MsgCheck].
Proof.
  assert (Hstatus : respects (fun ev => is_turn_mark ev = false) any_state any_exn
                      (get_status (World := World))).
  { unfold get_status, get_eth_balance, try_except. respectful. }
  assert (Hswap : respects (fun ev => is_turn_mark ev = false) any_state any_exn
                    (execute_swap (World := World))).
  { unfold execute_swap, get_eth_balance, get_gas_price, estimate_usdc_output,
      try_except. respectful. }
  assert (Hnone : forall t, Forall (fun ev => is_turn_mark ev = false) t ->
                            List.filter is_turn_mark t = []).
  { induction t as [| ev t IH]; intros Hf; [reflexivity |].
    inversion Hf as [| ? ? Hev Ht]; subst. cbn. rewrite Hev. apply IH, Ht. }
  rewrite run_once_steps.
  destruct (Hstatus s) as (Hs & _ & _).
  destruct (get_status s) as [[[e | [st |]] s1] t1]; cbn [events snd] in *.
  - cbn. rewrite (Hnone t1 Hs). reflexivity.
  - destruct (should_execute st).
    + destruct (Hswap s1) as (Hx & _ & _).
      destruct (execute_swap s1) as [[[e | [|]] s2] t2]; cbn [events snd] in *;
        cbn; rewrite ?List.filter_app; cbn; rewrite ?List.filter_app;
        rewrite (Hnone t1 Hs), (Hnone t2 Hx); reflexivity.
    + cbn. rewrite ?List.filter_app. rewrite (Hnone t1 Hs). reflexivity.
  - cbn. rewrite ?List.filter_app. rewrite (Hnone t1 Hs). reflexivity.
Qed.

(** X1.  The turns of the daemon's loop.  Whatever the chain does, the
    loop's cycles and sleeps alternate, starting with a cycle, and every
    sleep is for [poll_interval] seconds; when the loop is still running
    after [n] turns it has made exactly [n] cycles and [n] sleeps. *)
Theorem daemon_loop_alternates :
  forall (World : Type) (C : Chain World) (n : nat) (s : St World),
    let turn :=
      [EvLog INFO MsgCheck; EvCall (OpSleep (poll_interval (self_ s)))] in
    exists k,
      (k <= n)%nat /\
      (List.filter is_turn_mark (events (daemon_loop n s)) = List.concat (List.repeat turn k)
       \/ List.filter is_turn_mark (events (daemon_loop n s))
          = List.concat (List.repeat turn k) ++ [EvLog INFO MsgCheck]) /\
      (forall x, outcome (daemon_loop n s) = inr x ->
         k = n /\
         List.filter is_turn_mark (events (daemon_loop n s))
           = List.concat (List.repeat turn n)).
Proof.
  intros World C n. induction n as [| n IH]; intros s turn.
  - exists 0%nat. cbn. split; [lia |]. split; [left; reflexivity |].
    intros _ _. split; reflexivity.
  - rewrite daemon_loop_unfold.
    pose proof (run_once_turn_marks s) as Hmarks.
    pose proof (run_once_keeps_self s) as (_ & Hself & _).
    unfold same_self in Hself.
    destruct (run_once s) as [[[e | []] s1] t1]; cbn [events snd final fst] in *.
    + exists 0%nat. cbn. split; [lia |]. split; [right; exact Hmarks |].
      intros x Hx. discriminate Hx.
    + cbv zeta. rewrite Hself.
      destruct (perform (OpSleep (poll_interval (self_ s))) (chain s1))
        as [[e | []] w].
      * exists 1%nat. cbn [events snd outcome fst]. split; [lia |].
        split; [| intros x Hx; discriminate Hx].
        left. rewrite List.filter_app, Hmarks. reflexivity.
      * specialize (IH (mkSt (self_ s) w)). cbv zeta in IH.
        cbn [self_] in IH.
        destruct IH as (k & Hk & Hshape & Hdone).
        destruct (daemon_loop n (mkSt (self_ s) w)) as [[r s'] t'].
        cbn [events snd outcome fst] in *.
        exists (S k). split; [lia |].
        rewrite !List.filter_app, Hmarks.
        split.
        -- destruct Hshape as [-> | ->]; [left | right]; reflexivity.
        -- intros x Hx. destruct (Hdone x Hx) as [-> ->].
           split; reflexivity.
Qed.

(** X2.  How [run_daemon] ends.  It begins by logging that it starts, and
    what follows is decided by how its loop ends.  A [KeyboardInterrupt]
    that leaves the loop ends [run_daemon] normally, after the record that
    the user stopped it.  Every other exception that leaves the loop
    leaves [run_daemon] as well, unchanged, after the crash record naming
    it when it is of class [Exception] and with no further record
    otherwise.  Conversely an exception that leaves [run_daemon] is the
    one that left the loop, and is never [KeyboardInterrupt]. *)
Theorem run_daemon_exits :
  forall (World : Type) (C : Chain World) (n : nat) (s : St World),
    let loop := daemon_loop n s in
    (exists rest,
        events (run_daemon n s) = EvLog INFO MsgDaemonStarting :: rest) /\
    (forall x,
        outcome loop = inr x ->
        run_daemon n s =
          (inr x, final loop, EvLog INFO MsgDaemonStarting :: events loop)) /\
    (outcome loop = inl KeyboardInterrupt ->
     run_daemon n s =
       (inr tt, final loop,
        EvLog INFO MsgDaemonStarting :: events loop
          ++ [EvLog INFO MsgDaemonStopped])) /\
    (forall e,
        outcome loop = inl e ->
        e <> KeyboardInterrupt ->
        run_daemon n s =
          (inl e, final loop,
           EvLog INFO MsgDaemonStarting :: events loop
             ++ (if is_Exception e then [EvLog ERROR (MsgDaemonCrashed e)]
                 else []))) /\
    (forall e,
        outcome (run_daemon n s) = inl e ->
        e <> KeyboardInterrupt /\ outcome loop = inl e).
Proof.
  intros World C n s loop. subst loop.
  unfold run_daemon, bind, log, try_with, raise, outcome, final, events.
  destruct (daemon_loop n s) as [[[e | []] s1] t1]; cbn [fst snd].
  - split; [destruct e; cbn; eexists; reflexivity |].
    split; [intros x Hx; discriminate Hx |].
    split; [intros Heq; injection Heq as ->; reflexivity |].
    split.
    + intros e' Heq Hne. injection Heq as <-.
      destruct e; cbn; rewrite ?app_nil_r; try reflexivity.
      contradiction Hne. reflexivity.
    + intros e'. destruct e; cbn; intros Heq; inversion Heq; subst;
        (split; [discriminate | reflexivity]).
  - split; [eexists; reflexivity |].
    split; [intros [] _; reflexivity |].
    split; [intros Heq; discriminate Heq |].
    split; [intros e Heq; discriminate Heq |].
    intros e Heq. discriminate Heq.
Qed.

(** ** Startup *)

(** X3.  [__init__] fails fast.  Without a private key, or without a
    contract address, it raises [ValueError] before anything is asked of
    the node; on a node that is not connected it raises [ConnectionError]
    after that one question, before the account or the contract is
    loaded. *)
Theorem init_fails_fast :
  forall (World : Type) (C : Chain World) (env : Env) (w : World),
    (truthy (env "PRIVATE_KEY"%string) = None ->
     init env w =
       (inl (ValueError "PRIVATE_KEY environment variable is required"), w, [])) /\
    (truthy (env "PRIVATE_KEY"%string) <> None ->
     truthy (env "FARMBOT_CONTRACT_ADDRESS"%string) = None ->
     init env w =
       (inl (ValueError "FARMBOT_CONTRACT_ADDRESS environment variable is required"),
        w, [])) /\
    (truthy (env "PRIVATE_KEY"%string) <> None ->
     truthy (env "FARMBOT_CONTRACT_ADDRESS"%string) <> None ->
     forall w',
       perform OpIsConnected w = (inr false, w') ->
       init env w =
         (inl (ConnectionError "Failed to connect"), w', [EvCall OpIsConnected])).
Proof.
  intros World C env w. unfold init. split; [| split].
  - intros ->. reflexivity.
  - intros Hkey ->.
    destruct (truthy (env "PRIVATE_KEY"%string)); [reflexivity | contradiction].
  - intros Hkey Haddr w' Hconn.
    destruct (truthy (env "PRIVATE_KEY"%string)); [| contradiction].
    destruct (truthy (env "FARMBOT_CONTRACT_ADDRESS"%string)); [| contradiction].
    unfold bind, call0. rewrite Hconn. reflexivity.
Qed.

Lemma init_fails_fast_witness :
  truthy ((fun _ => Some EmptyString) "PRIVATE_KEY"%string) = None /\
  init (fun _ => Some EmptyString) happy_chain =
    (inl (ValueError "PRIVATE_KEY environment variable is required"),
     happy_chain, []).
Proof.
  split; [reflexivity |].
  exact (proj1 (init_fails_fast Script Script_Chain (fun _ => Some EmptyString)
                  happy_chain) eq_refl).
Defined.

Lemma truthy_some (v : option string) (x : string) :
  truthy v = Some x -> v = Some x /\ x <> EmptyString.
Proof.
  destruct v as [[| c v'] |]; cbn; intros Heq; inversion Heq; subst.
  split; [reflexivity | discriminate].
Qed.

(** X4.  What a constructed bot is made of.  When [__init__] returns, the
    key and the contract address are the non-empty values of the
    environment, the node answered that it is connected, the account
    address and the contract are the ones the libraries returned for that
    key and that address, and nothing else was asked: three calls, then
    the three records of the startup. *)
Theorem init_builds_from_valid_settings :
  forall (World : Type) (C : Chain World) (env : Env) (w w' : World)
         (bot : FarmBot) (evs : list event),
    init env w = (inr bot, w', evs) ->
    env "PRIVATE_KEY"%string = Some (private_key bot) /\
    private_key bot <> EmptyString /\
    env "FARMBOT_CONTRACT_ADDRESS"%string = Some (contract_address bot) /\
    contract_address bot <> EmptyString /\
    rpc_url bot = env "RPC_URL"%string /\
    (exists w1 w2,
        perform OpIsConnected w = (inr true, w1) /\
        perform (OpFromKey (private_key bot)) w1 = (inr (address_ bot), w2) /\
        perform (OpLoadContract (contract_address bot)) w2
          = (inr (contract bot), w')) /\
    evs =
      [ EvCall OpIsConnected;
        EvCall (OpFromKey (private_key bot));
        EvCall (OpLoadContract (contract_address bot));
        EvLog INFO (MsgInitialized (address_ bot));
        EvLog INFO (MsgContractAddress (contract_address bot));
        EvLog INFO (MsgPollInterval (poll_interval bot)) ].
Proof.
  intros World C env w w' bot evs. unfold init.
  destruct (truthy (env "PRIVATE_KEY"%string)) as [key |] eqn:Hkey;
    [| discriminate].
  destruct (truthy (env "FARMBOT_CONTRACT_ADDRESS"%string)) as [addr |] eqn:Haddr;
    [| discriminate].
  apply truthy_some in Hkey. apply truthy_some in Haddr.
  destruct Hkey as [Hkey Hkey']. destruct Haddr as [Haddr Haddr'].
  unfold bind, call0, lift, log, ret, raise.
  destruct (perform OpIsConnected w) as [[e | connected] w1] eqn:Hconn;
    [discriminate |].
  destruct connected; cbn [negb]; [| discriminate].
  destruct (perform (OpFromKey key) w1) as [[e | a] w2] eqn:Hfrom; [discriminate |].
  destruct (perform (OpLoadContract addr) w2) as [[e | c] w3] eqn:Hload;
    [discriminate |].
  destruct (getenv_int env "POLL_INTERVAL" 300) as [e | poll]; [discriminate |].
  destruct (getenv_int env "MAX_GAS_PRICE" 50) as [e | gas]; [discriminate |].
  destruct (getenv_Decimal env "MIN_ETH_BALANCE" "0.1") as [e | reserve];
    [discriminate |].
  destruct (getenv_Decimal env "SLIPPAGE_TOLERANCE" "0.05") as [e | slippage];
    [discriminate |].
  cbn. intros Heq. injection Heq as <- <- <-. cbn.
  split; [exact Hkey |]. split; [exact Hkey' |].
  split; [exact Haddr |]. split; [exact Haddr' |].
  split; [reflexivity |].
  split; [| reflexivity].
  exists w1, w2. split; [reflexivity |]. split; [exact Hfrom | exact Hload].
Qed.

Lemma init_builds_from_valid_settings_witness :
  init default_env happy_chain =
    (inr default_bot, happy_chain,
     [EvCall OpIsConnected; EvCall (OpFromKey "0xKey");
      EvCall (OpLoadContract "0xFarmBot");
      EvLog INFO (MsgInitialized "0xAccount"%string);
      EvLog INFO (MsgContractAddress "0xFarmBot");
      EvLog INFO (MsgPollInterval 300)]) /\
  default_env "PRIVATE_KEY"%string = Some (private_key default_bot).
Proof.
  assert (Hinit : init default_env happy_chain =
    (inr default_bot, happy_chain,
     [EvCall OpIsConnected; EvCall (OpFromKey "0xKey");
      EvCall (OpLoadContract "0xFarmBot");
      EvLog INFO (MsgInitialized "0xAccount"%string);
      EvLog INFO (MsgContractAddress "0xFarmBot");
      EvLog INFO (MsgPollInterval 300)])) by (vm_compute; reflexivity).
  split; [exact Hinit |].
  exact (proj1 (init_builds_from_valid_settings Script Script_Chain _ _ _ _ _ Hinit)).
Defined.

(** ** The minimum output, bounded *)

Lemma toQ_nonneg_coef (d : Decimal.t) :
  (0 <= Decimal.toQ d)%Q <-> 0 <= Decimal.coef d.
Proof.
  unfold Decimal.toQ. pose proof (pow10Q_pos (Decimal.expo d)) as Hp.
  split.
  - intros Hq. rewrite Zle_Qle.
    apply (Qmult_le_r _ _ _ Hp). rewrite Qmult_0_l. exact Hq.
  - intros Hc. apply Qmult_le_0_compat; [| apply Qlt_le_weak; exact Hp].
    rewrite Zle_Qle in Hc. exact Hc.
Qed.

Lemma to_int_nonneg (d : Decimal.t) :
  (0 <= Decimal.toQ d)%Q -> 0 <= Decimal.to_int d.
Proof.
  intros Hd. apply toQ_nonneg_coef in Hd. unfold Decimal.to_int.
  destruct (Z.leb_spec 0 (Decimal.expo d)) as [Hnn | Hneg].
  - pose proof (pow10_pos (Decimal.expo d) Hnn). nia.
  - apply Z.quot_pos; [exact Hd |].
    apply pow10_pos. lia.
Qed.

(** X5.  The minimum output is a sound floor.  For a non-negative trade
    and a slippage tolerance between 0 and 1, [estimate_usdc_output]
    returns an amount between zero and the reference value
    [eth_amount * 2500], and the integer [execute_swap] passes to the
    contract as minimum output is not negative. *)
Theorem estimate_usdc_output_is_bounded :
  forall (World : Type) (a : Decimal.t) (s : St World),
    (0 <= Decimal.toQ a)%Q ->
    (0 <= Decimal.toQ (slippage_tolerance (self_ s)))%Q ->
    (Decimal.toQ (slippage_tolerance (self_ s)) <= 1)%Q ->
    exists out,
      estimate_usdc_output a s = (inr out, s, []) /\
      (0 <= Decimal.toQ out)%Q /\
      (Decimal.toQ out <= Decimal.toQ (Decimal.mul a (Decimal.of_int 2500)))%Q /\
      0 <= Decimal.to_int (Decimal.mul out (Decimal.mk 1 6)) /\
      Decimal.to_int (Decimal.mul out (Decimal.mk 1 6))
        = min_usdc_out_wei_of (self_ s) a.
Proof.
  intros World a s Ha Hlo Hhi.
  set (slip := slippage_tolerance (self_ s)) in *.
  exists (usdc_floor a slip).
  split; [apply estimate_usdc_output_run |].
  assert (Hfloor : (0 <= Decimal.toQ (usdc_floor a slip))%Q).
  { unfold usdc_floor, Decimal.mul at 1. apply fix_nonneg.
    rewrite toQ_mul_exact. apply Qmult_le_0_compat.
    - unfold Decimal.mul. apply fix_nonneg.
      rewrite toQ_mul_exact, toQ_of_int.
      apply Qmult_le_0_compat; [exact Ha | discriminate].
    - unfold Decimal.sub. apply fix_nonneg.
      rewrite toQ_sub_exact, toQ_of_int.
      setoid_replace 0%Q with (Decimal.toQ slip - Decimal.toQ slip)%Q by ring.
      apply Qplus_le_l. exact Hhi. }
  split; [exact Hfloor |]. split; [| split; [| reflexivity]].
  - rewrite <- (usdc_floor_zero_slippage a (Decimal.of_int 0)) by reflexivity.
    apply usdc_floor_mono; [exact Ha |].
    rewrite toQ_of_int. exact Hlo.
  - apply to_int_nonneg. unfold Decimal.mul at 1. apply fix_nonneg.
    rewrite toQ_mul_exact. apply Qmult_le_0_compat; [exact Hfloor |].
    vm_compute. discriminate.
Qed.

Lemma estimate_usdc_output_is_bounded_witness :
  (0 <= Decimal.toQ one_ether)%Q /\
  (0 <= Decimal.toQ (slippage_tolerance default_bot))%Q /\
  (Decimal.toQ (slippage_tolerance default_bot) <= 1)%Q /\
  exists out,
    estimate_usdc_output one_ether (mkSt default_bot happy_chain)
      = (inr out, mkSt default_bot happy_chain, []) /\
    0 <= Decimal.to_int (Decimal.mul out (Decimal.mk 1 6)).
Proof.
  assert (Ha : (0 <= Decimal.toQ one_ether)%Q) by (vm_compute; discriminate).
  assert (Hlo : (0 <= Decimal.toQ (slippage_tolerance default_bot))%Q)
    by (vm_compute; discriminate).
  assert (Hhi : (Decimal.toQ (slippage_tolerance default_bot) <= 1)%Q)
    by (vm_compute; discriminate).
  split; [exact Ha |]. split; [exact Hlo |]. split; [exact Hhi |].
  destruct (estimate_usdc_output_is_bounded Script one_ether
              (mkSt default_bot happy_chain) Ha Hlo Hhi)
    as (out & Hrun & _ & _ & Hint & _).
  exists out. split; [exact Hrun | exact Hint].
Defined.

(** With the slippage tolerance of 1.5 that [__init__] accepts, the
    minimum output is negative. *)
Example minimum_output_below_zero :
  min_usdc_out_wei_of
    (mkFarmBot None "0xKey"%string "0xFarmBot"%string "0xAccount"%string
       "0xFarmBot"%string 300 50 (Decimal.mk 1 (-1)) (Decimal.mk 15 (-1)))
    one_ether = -1250000000.
Proof. vm_compute. reflexivity. Qed.

(** ** What the bot asks of the chain *)

Section TripleRules.

Context {World : Type} `{Chain World}.
Variable bot : FarmBot.
Variable P : event -> Prop.

Lemma triple_ret {A} (Q : A -> Prop) (x : A) :
  Q x -> triple (World := World) bot P Q (ret x).
Proof.
  intros Hq s Hs. cbn. repeat split; auto. intros y Hy. congruence.
Qed.

Lemma triple_raise {A} (Q : A -> Prop) (e : exn) :
  triple (World := World) bot P Q (raise e).
Proof.
  intros s Hs. cbn. repeat split; auto. intros y Hy. discriminate Hy.
Qed.

Lemma triple_lift {A} (Q : A -> Prop) (r : result A) :
  (forall x, r = inr x -> Q x) -> triple (World := World) bot P Q (lift r).
Proof. intros Hq s Hs. cbn. repeat split; auto. Qed.

Lemma triple_lift_eq {A} (r : result A) :
  triple (World := World) bot P (fun x => r = inr x) (lift r).
Proof. apply triple_lift. auto. Qed.

Lemma triple_log (Q : unit -> Prop) (l : level) (msg : log_msg) :
  P (EvLog l msg) -> Q tt -> triple (World := World) bot P Q (log l msg).
Proof.
  intros Hp Hq s Hs. cbn. repeat split; auto. intros [] _. exact Hq.
Qed.

Lemma triple_log_any (l : level) (msg : log_msg) :
  P (EvLog l msg) -> triple (World := World) bot P (fun _ => True) (log l msg).
Proof. intros Hp. apply triple_log; auto. Qed.

Lemma triple_get_self_eq :
  triple (World := World) bot P (fun x => x = bot) get_self.
Proof.
  intros s Hs. cbn. repeat split; auto. intros x Hx. congruence.
Qed.

Lemma triple_call_any (o : op) :
  P (EvCall o) -> triple bot P (fun _ => True) (call o).
Proof.
  intros Hp s Hs. unfold call, events, final, outcome.
  destruct (perform o (chain s)) as [r w]. cbn. repeat split; auto.
Qed.

Lemma triple_bind {A B} (Q : A -> Prop) (Q' : B -> Prop)
    (m : M (St World) A) (f : A -> M (St World) B) :
  triple bot P Q m -> (forall x, Q x -> triple bot P Q' (f x)) ->
  triple bot P Q' (bind m f).
Proof.
  intros Hm Hf s Hs. unfold bind, events, final, outcome.
  destruct (Hm s Hs) as (Hp & Hself & Hq).
  unfold events, final, outcome in Hp, Hself, Hq.
  destruct (m s) as [[[e | x] s1] t1]; cbn in *.
  - repeat split; auto. intros y Hy. discriminate Hy.
  - destruct (Hf x (Hq x eq_refl) s1 Hself) as (Hp2 & Hself2 & Hq2).
    unfold events, final, outcome in Hp2, Hself2, Hq2.
    destruct (f x s1) as [[r2 s2] t2]; cbn in *.
    repeat split; auto. apply Forall_app; split; assumption.
Qed.

Lemma triple_try_with {A} (Q : A -> Prop) (catches : exn -> bool)
    (m : M (St World) A) (h : exn -> M (St World) A) :
  triple bot P Q m -> (forall e, triple bot P Q (h e)) ->
  triple bot P Q (try_with catches m h).
Proof.
  intros Hm Hh s Hs. unfold try_with, events, final, outcome.
  destruct (Hm s Hs) as (Hp & Hself & Hq).
  unfold events, final, outcome in Hp, Hself, Hq.
  destruct (m s) as [[[e | x] s1] t1]; cbn in *.
  - destruct (catches e); cbn.
    + destruct (Hh e s1 Hself) as (Hp2 & Hself2 & Hq2).
      unfold events, final, outcome in Hp2, Hself2, Hq2.
      destruct (h e s1) as [[r2 s2] t2]; cbn in *.
      repeat split; auto. apply Forall_app; split; assumption.
    + repeat split; auto.
  - repeat split; auto.
Qed.

Lemma triple_weaken {A} (Q Q' : A -> Prop) (m : M (St World) A) :
  triple bot P Q m -> (forall x, Q x -> Q' x) -> triple bot P Q' m.
Proof.
  intros Hm Hq s Hs. destruct (Hm s Hs) as (Hp & Hself & Hx).
  repeat split; auto.
Qed.

End TripleRules.

Create HintDb hoare.

Ltac hoare_side :=
  try solve
    [ exact I | reflexivity | assumption
    | cbn; repeat split; first [exact I | reflexivity | assumption | eauto] ].

Ltac hoare_leaf :=
  first
    [ apply triple_lift_eq
    | apply triple_get_self_eq
    | apply triple_call_any; hoare_side
    | apply triple_log_any; hoare_side
    | solve [eauto 3 with hoare nocore] ].

Ltac hoare_intro :=
  let x := fresh "x" in
  let Hx := fresh "Hx" in
  intros x Hx; cbv beta in Hx; try subst x.

Ltac hoare :=
  repeat first
    [ apply triple_ret; hoare_side
    | apply triple_log; hoare_side
    | eapply triple_bind; [ hoare_leaf | hoare_intro ]
    | apply triple_try_with; [ | intros ? ]
    | progress cbv zeta
    | case_split ].

Section Calls.

Context {World : Type} `{Chain World}.
Variable bot : FarmBot.

Lemma get_eth_balance_calls :
  triple bot (call_ok bot) (fun _ => True) get_eth_balance.
Proof.
  unfold get_eth_balance. hoare.
  eapply triple_weaken; [apply triple_lift_eq | auto].
Qed.

Lemma get_gas_price_calls :
  triple bot (call_ok bot) (price_ok bot) get_gas_price.
Proof.
  unfold get_gas_price, try_except. apply triple_try_with.
  - eapply triple_bind; [hoare_leaf | intros gas_price _].
    eapply triple_bind; [hoare_leaf | hoare_intro].
    eapply triple_bind; [hoare_leaf | intros ceiling Hceiling].
    apply triple_ret. right. exists ceiling. split; [exact Hceiling | lia].
  - intros e. eapply triple_bind; [hoare_leaf | intros _ _].
    apply triple_lift. intros x Hx. left.
    vm_compute in Hx. injection Hx as <-. reflexivity.
Qed.

Lemma estimate_usdc_output_calls (a : Decimal.t) :
  triple (World := World) bot (call_ok bot)
    (fun out => out = usdc_floor a (slippage_tolerance bot))
    (estimate_usdc_output a).
Proof.
  unfold estimate_usdc_output.
  eapply triple_bind; [hoare_leaf | hoare_intro].
  cbv zeta. apply triple_ret. reflexivity.
Qed.

Lemma gas_limit_calls (amount min_out : Z) (from : address) (value : Z) :
  call_ok bot (EvCall (OpEstimateGas amount min_out from value)) ->
  triple bot (call_ok bot) (fun _ => True)
    (try_except
       (gas_estimate <- call (OpEstimateGas amount min_out from value) ;;
        scaled <- lift (PyFloat.int_mul gas_estimate PyFloat.lit_1_2) ;;
        lift (PyFloat.to_int scaled))
       (fun e => log ERROR (MsgGasEstimationFailed e) ;; ret 500000)).
Proof.
  intros Hcall. unfold try_except. apply triple_try_with.
  - eapply triple_bind; [apply triple_call_any; exact Hcall | intros g _].
    eapply triple_bind; [hoare_leaf | intros scaled _].
    apply triple_lift. intros limit _. exact I.
  - intros e. eapply triple_bind; [hoare_leaf | intros _ _].
    apply triple_ret. exact I.
Qed.

#[local] Hint Resolve get_eth_balance_calls get_gas_price_calls
  estimate_usdc_output_calls : hoare.

Lemma get_status_calls :
  triple bot (call_ok bot) (fun _ => True) get_status.
Proof. unfold get_status, try_except. hoare. Qed.

Lemma execute_swap_calls :
  triple bot (call_ok bot) (fun _ => True) execute_swap.
Proof.
  unfold execute_swap, try_except. apply triple_try_with; [| intros e; hoare].
  eapply triple_bind; [hoare_leaf | intros signal _].
  destruct (negb signal); [hoare |].
  eapply triple_bind; [hoare_leaf | intros amount _].
  eapply triple_bind; [hoare_leaf | intros eth_amount Heth].
  eapply triple_bind; [hoare_leaf | intros balance _].
  eapply triple_bind; [hoare_leaf | hoare_intro].
  cbv zeta. destruct (Decimal.ltb _ _); [hoare |].
  eapply triple_bind; [hoare_leaf | hoare_intro].
  fold (min_usdc_out_wei_of bot eth_amount).
  assert (Htrade : trade_of bot amount (min_usdc_out_wei_of bot eth_amount)
                     (address_ bot) amount).
  { split; [reflexivity |]. split; [reflexivity |].
    exists eth_amount. split; [exact Heth | reflexivity]. }
  eapply triple_bind; [hoare_leaf | intros gas_price Hprice].
  eapply triple_bind;
    [apply gas_limit_calls; split; [exact I | exact Htrade]
    | intros gas_limit _].
  eapply triple_bind; [hoare_leaf | intros nonce _].
  eapply triple_bind;
    [apply triple_call_any; split; [exact Hprice | exact Htrade]
    | intros tx _].
  hoare.
Qed.

#[local] Hint Resolve get_status_calls execute_swap_calls : hoare.

Lemma run_once_calls :
  triple bot (call_ok bot) (fun _ => True) run_once.
Proof. unfold run_once. hoare. Qed.

#[local] Hint Resolve run_once_calls : hoare.

Lemma daemon_loop_calls (n : nat) :
  triple bot (call_ok bot) (fun _ => True) (daemon_loop n).
Proof.
  induction n as [| n IH]; cbn [daemon_loop]; [hoare |].
  eapply triple_bind; [hoare_leaf | intros _ _].
  eapply triple_bind; [hoare_leaf | hoare_intro].
  eapply triple_bind; [hoare_leaf | intros _ _].
  eapply triple_bind; [hoare_leaf | intros _ _].
  exact IH.
Qed.

Lemma run_daemon_calls (n : nat) :
  triple bot (call_ok bot) (fun _ => True) (run_daemon n).
Proof.
  unfold run_daemon.
  eapply triple_bind; [hoare_leaf | intros _ _].
  apply triple_try_with; [apply daemon_loop_calls |].
  intros e. destruct e; hoare; apply triple_raise.
Qed.

End Calls.

(** ** The path of a trade *)

Lemma builds_app (l1 l2 : list event) : builds (l1 ++ l2) = builds l1 ++ builds l2.
Proof. apply List.flat_map_app. Qed.

Lemma builds_none (evs : list event) :
  Forall (fun ev => build_of ev = []) evs -> builds evs = [].
Proof.
  induction 1 as [| ev evs Hev _ IH]; [reflexivity |].
  cbn. rewrite Hev. exact IH.
Qed.

Lemma In_builds (amount min_out : Z) (p : TxParams) (evs : list event) :
  In (EvCall (OpBuildTransaction amount min_out p)) evs <->
  In (amount, min_out, p) (builds evs).
Proof.
  unfold builds. rewrite List.in_flat_map. split.
  - intros Hin. eexists. split; [exact Hin |]. left. reflexivity.
  - intros (ev & Hin & Hev).
    destruct ev as [[] | l m]; cbn in Hev; try contradiction.
    destruct Hev as [Heq | []]. injection Heq as -> -> ->. exact Hin.
Qed.

Lemma get_gas_price_builds_nothing {World : Type} `{Chain World} :
  respects (fun ev => build_of ev = []) any_state any_exn
    (get_gas_price (World := World)).
Proof. unfold get_gas_price, try_except. respectful. Qed.

Lemma flat_map_build_nil (evs : list event) :
  Forall (fun ev => build_of ev = []) evs -> List.flat_map build_of evs = [].
Proof. apply builds_none. Qed.

Lemma get_status_builds_nothing {World : Type} `{Chain World} :
  respects (fun ev => build_of ev = []) any_state any_exn
    (get_status (World := World)).
Proof. unfold get_status, get_eth_balance, try_except. respectful. Qed.

Lemma gas_limit_block_run {World : Type} `{Chain World} (amount min_out : Z)
    (from : address) (value : Z) (s4 : St World) (r : result Z) (w5 : World) :
  perform (OpEstimateGas amount min_out from value) (chain s4) = (r, w5) ->
  (forall e, r = inl e -> is_Exception e = true) ->
  try_except
    (gas_estimate <- call (OpEstimateGas amount min_out from value) ;;
     scaled <- lift (PyFloat.int_mul gas_estimate PyFloat.lit_1_2) ;;
     lift (PyFloat.to_int scaled))
    (fun e => log ERROR (MsgGasEstimationFailed e) ;; ret 500000) s4
  = (inr (gas_limit_for r), mkSt (self_ s4) w5,
     estimation_events (OpEstimateGas amount min_out from value) r).
Proof.
  intros Hest Hexc.
  unfold try_except, try_with, bind at 1, call. rewrite Hest.
  destruct r as [e | g].
  - rewrite (Hexc e eq_refl). reflexivity.
  - unfold bind at 1, lift at 1. unfold gas_limit_for, estimation_events, buffered.
    destruct (PyFloat.int_mul g PyFloat.lit_1_2) as [e | scaled] eqn:Hmul.
    + rewrite (int_mul_exn _ _ _ Hmul). reflexivity.
    + unfold lift.
      destruct (PyFloat.to_int scaled) as [e | limit] eqn:Hint.
      * rewrite (float_to_int_exn _ _ Hint). reflexivity.
      * reflexivity.
Qed.

Lemma gas_limit_block_raises {World : Type} `{Chain World} (amount min_out : Z)
    (from : address) (value : Z) (s4 : St World) (e : exn) (w5 : World) :
  perform (OpEstimateGas amount min_out from value) (chain s4) = (inl e, w5) ->
  is_Exception e = false ->
  try_except
    (gas_estimate <- call (OpEstimateGas amount min_out from value) ;;
     scaled <- lift (PyFloat.int_mul gas_estimate PyFloat.lit_1_2) ;;
     lift (PyFloat.to_int scaled))
    (fun e => log ERROR (MsgGasEstimationFailed e) ;; ret 500000) s4
  = (inl e, mkSt (self_ s4) w5, [EvCall (OpEstimateGas amount min_out from value)]).
Proof.
  intros Hest He.
  unfold try_except, try_with, bind at 1, call. rewrite Hest, He. reflexivity.
Qed.

Lemma estimation_builds_nothing (amount min_out : Z) (from : address) (value : Z)
    (r : result Z) :
  List.flat_map build_of
    (estimation_events (OpEstimateGas amount min_out from value) r) = [].
Proof.
  unfold estimation_events. destruct r as [e | g]; [reflexivity |].
  destruct (buffered g); reflexivity.
Qed.

Ltac early_exit Hrun :=
  cbn in Hrun; injection Hrun as <- <- <-; left;
  split; [reflexivity | discriminate].

Ltac after_build Hrun :=
  cbn in Hrun; injection Hrun as <- <- <-;
  split;
    [ eexists; unfold events, sizing_events; cbn; rewrite <- ?app_assoc; cbn;
      reflexivity |];
  split;
    [ unfold events, builds; cbn;
      repeat (rewrite ?List.flat_map_app; cbn);
      match goal with
      | H4 : List.flat_map build_of _ = [], H5 : List.flat_map build_of _ = [] |- _ =>
          rewrite ?H4, ?H5
      end; reflexivity
    | discriminate ].

Lemma execute_swap_paths {World : Type} `{Chain World} (s : St World) :
  (builds (events (execute_swap s)) = [] /\ outcome (execute_swap s) <> inr true) \/
  (exists amount min_out p s4 r w6 pre,
      built_by s amount min_out p s4 r w6 pre /\
      starts_with (pre ++ [EvCall (OpBuildTransaction amount min_out p)])
        (execute_swap s) /\
      builds (events (execute_swap s)) = [(amount, min_out, p)] /\
      (outcome (execute_swap s) = inr true ->
       exists tx_hash receipt, confirmed_run s tx_hash receipt)).
Proof.
  destruct (execute_swap s) as [[r0 s0] t0] eqn:Hrun.
  pose proof Hrun as Hkeep.
  unfold execute_swap in Hrun. unfold try_except at 1 in Hrun.
  unfold try_with at 1 in Hrun.
  unfold bind at 1 in Hrun. unfold call at 1 in Hrun.
  destruct (perform OpShouldExecute (chain s)) as [[e | signal] w1] eqn:Hsignal.
  { destruct (is_Exception e); early_exit Hrun. }
  destruct signal; cbn [negb] in Hrun; [| early_exit Hrun].
  unfold bind at 1 in Hrun. unfold call at 1 in Hrun. cbn [chain self_] in Hrun.
  destruct (perform OpDefaultSwapAmount w1) as [[e | amount] w2] eqn:Hamount.
  { destruct (is_Exception e); early_exit Hrun. }
  unfold bind at 1 in Hrun. unfold lift at 1 in Hrun.
  destruct (from_wei_ether amount) as [e | eth_amount] eqn:Heth.
  { destruct (is_Exception e); early_exit Hrun. }
  unfold bind at 1 in Hrun. unfold get_eth_balance at 1 in Hrun.
  unfold bind at 1 in Hrun. unfold get_self at 1 in Hrun.
  unfold bind at 1 in Hrun. unfold call at 1 in Hrun. cbn [chain self_] in Hrun.
  destruct (perform (OpGetBalance (address_ (self_ s))) w2) as [[e | balance] w3]
    eqn:Hbalance.
  { destruct (is_Exception e); early_exit Hrun. }
  unfold lift at 1 in Hrun.
  destruct (from_wei_ether balance) as [e | account_balance] eqn:Haccount.
  { destruct (is_Exception e); early_exit Hrun. }
  unfold bind at 1 in Hrun. unfold get_self at 1 in Hrun. cbv zeta in Hrun.
  cbn [self_ chain] in Hrun.
  fold (required_balance_of (self_ s) eth_amount) in Hrun.
  destruct (Decimal.ltb account_balance (required_balance_of (self_ s) eth_amount))
    eqn:Hlow; [early_exit Hrun |].
  unfold bind at 1 in Hrun. unfold estimate_usdc_output at 1 in Hrun.
  unfold bind at 1 in Hrun. unfold get_self at 1 in Hrun. cbv zeta in Hrun.
  unfold ret at 1 in Hrun. cbn [self_ chain] in Hrun.
  fold (usdc_floor eth_amount (slippage_tolerance (self_ s))) in Hrun.
  fold (min_usdc_out_wei_of (self_ s) eth_amount) in Hrun.
  unfold bind at 1 in Hrun.
  destruct (get_gas_price_builds_nothing (mkSt (self_ s) w3)) as (Hquiet4 & _ & _).
  destruct (get_gas_price_keeps_self (mkSt (self_ s) w3)) as (_ & Hself4 & _).
  apply flat_map_build_nil in Hquiet4.
  unfold same_self, events, final in *.
  destruct (get_gas_price (mkSt (self_ s) w3)) as [[[e | gas_price] s4] t4]
    eqn:Hprice; cbn [fst snd self_] in *.
  { destruct (is_Exception e); cbn in Hrun; injection Hrun as <- <- <-; left;
      (split; [| discriminate]); cbn; rewrite ?List.flat_map_app, Hquiet4;
      reflexivity. }
  destruct s4 as [bot4 w4]. cbn [self_] in Hself4. subst bot4.
  unfold bind at 1 in Hrun.
  destruct (perform (OpEstimateGas amount (min_usdc_out_wei_of (self_ s) eth_amount)
                       (address_ (self_ s)) amount) w4) as [r w5] eqn:Hest.
  assert (Hcase : (forall e, r = inl e -> is_Exception e = true) \/
                  (exists e, r = inl e /\ is_Exception e = false)).
  { destruct r as [e | g]; [| left; discriminate].
    destruct (is_Exception e) eqn:He.
    - left. intros e' Heq. injection Heq as <-. exact He.
    - right. exists e. split; [reflexivity | exact He]. }
  destruct Hcase as [Hexc | (e & -> & He)].
  2:{ rewrite (gas_limit_block_raises _ _ _ _ (mkSt (self_ s) w4) e w5 Hest He)
        in Hrun.
      cbn in Hrun. rewrite He in Hrun. injection Hrun as <- <- <-. left.
      (split; [| discriminate]); cbn; rewrite ?List.flat_map_app, Hquiet4;
        reflexivity. }
  rewrite (gas_limit_block_run _ _ _ _ (mkSt (self_ s) w4) r w5 Hest Hexc) in Hrun.
  cbn [self_ chain] in Hrun.
  pose proof (estimation_builds_nothing amount
                (min_usdc_out_wei_of (self_ s) eth_amount) (address_ (self_ s))
                amount r) as Hquiet5.
  unfold bind at 1 in Hrun. unfold call at 1 in Hrun. cbn [chain self_] in Hrun.
  destruct (perform (OpGetTransactionCount (address_ (self_ s))) w5)
    as [[e | nonce] w6] eqn:Hnonce.
  { destruct (is_Exception e); cbn in Hrun; injection Hrun as <- <- <-; left;
      (split; [| discriminate]); cbn;
      rewrite ?List.flat_map_app, ?Hquiet4, ?Hquiet5; reflexivity. }
  set (min_out := min_usdc_out_wei_of (self_ s) eth_amount) in *.
  set (p := mkTxParams (address_ (self_ s)) amount (gas_limit_for r) gas_price nonce)
    in *.
  set (estimate := OpEstimateGas amount min_out (address_ (self_ s)) amount) in *.
  set (pre := sizing_events (self_ s) ++ t4 ++ estimation_events estimate r ++
              [EvCall (OpGetTransactionCount (address_ (self_ s)))]).
  assert (Hbuilt : built_by s amount min_out p (mkSt (self_ s) w4) r w6 pre).
  { exists eth_amount, w3, t4, w5.
    split; [exists w1, w2, balance, account_balance; repeat split; assumption |].
    split; [reflexivity |]. split; [exact Hprice |]. split; [exact Hest |].
    split; [exact Hexc |]. split; [exact Hnonce |]. split; reflexivity. }
  right. exists amount, min_out, p, (mkSt (self_ s) w4), r, w6, pre.
  split; [exact Hbuilt |].
  unfold bind at 1 in Hrun. unfold call at 1 in Hrun. cbn [chain self_] in Hrun.
  destruct (perform (OpBuildTransaction amount min_out p) w6) as [[e | tx] w7]
    eqn:Hbuild.
  { destruct (is_Exception e); after_build Hrun. }
  unfold bind at 1 in Hrun. unfold call at 1 in Hrun. cbn [chain self_] in Hrun.
  destruct (perform (OpSignTransaction tx) w7) as [[e | raw] w8] eqn:Hsign.
  { destruct (is_Exception e); after_build Hrun. }
  unfold bind at 1 in Hrun. unfold call at 1 in Hrun. cbn [chain self_] in Hrun.
  destruct (perform (OpSendRawTransaction raw) w8) as [[e | tx_hash] w9] eqn:Hsend.
  { destruct (is_Exception e); after_build Hrun. }
  unfold bind at 1 in Hrun. unfold log at 1 in Hrun.
  unfold bind at 1 in Hrun. unfold log at 1 in Hrun.
  unfold bind at 1 in Hrun. unfold call at 1 in Hrun. cbn [chain self_] in Hrun.
  destruct (perform (OpWaitForReceipt tx_hash 300) w9) as [[e | receipt] w10]
    eqn:Hwait.
  { destruct (is_Exception e); after_build Hrun. }
  destruct (rc_status receipt =? 1) eqn:Hstatus; [| after_build Hrun].
  cbn in Hrun. injection Hrun as <- <- <-.
  split;
    [ eexists; unfold events, sizing_events; cbn; rewrite <- ?app_assoc; cbn;
      reflexivity |].
  split;
    [ unfold events, builds; cbn; repeat (rewrite ?List.flat_map_app; cbn);
      rewrite ?Hquiet4, ?Hquiet5; reflexivity |].
  intros _. exists tx_hash, receipt.
  exists amount, min_out, p, (mkSt (self_ s) w4), r, w6, pre, tx, w7, raw, w8, w9,
         w10, eth_amount.
  split; [exact Hbuilt |]. split; [exact Hbuild |]. split; [exact Hsign |].
  split; [exact Hsend |]. split; [exact Hwait |].
  split; [apply Z.eqb_eq; exact Hstatus |]. split; [exact Heth |].
  rewrite Hkeep. unfold pre, sizing_events. cbn. rewrite <- ?app_assoc. cbn.
  reflexivity.
Qed.

(** The transactions a cycle asks for are those of its [execute_swap]. *)
Lemma run_once_builds {World : Type} `{Chain World} (s : St World)
    (b : Z * Z * TxParams) :
  In b (builds (events (run_once s))) ->
  exists st s1 t1,
    get_status s = (inr (Some st), s1, t1) /\
    should_execute st = true /\
    In b (builds (events (execute_swap s1))).
Proof.
  destruct (get_status_builds_nothing s) as (Hquiet & _ & _).
  apply flat_map_build_nil in Hquiet.
  rewrite run_once_steps. unfold events, builds in *.
  destruct (get_status s) as [[[e | [st |]] s1] t1]; cbn [fst snd] in *.
  - cbn. rewrite Hquiet. intros [].
  - destruct (should_execute st) eqn:Hflag.
    + intros Hin. exists st, s1, t1.
      split; [reflexivity |]. split; [exact Hflag |].
      destruct (execute_swap s1) as [[[e | [|]] s2] t2]; cbn [fst snd] in *;
        cbn in Hin; repeat (rewrite ?List.flat_map_app in Hin; cbn in Hin);
        rewrite ?Hquiet, ?app_nil_r in Hin; exact Hin.
    + cbn. repeat (rewrite ?List.flat_map_app; cbn). rewrite Hquiet. intros [].
  - cbn. repeat (rewrite ?List.flat_map_app; cbn). rewrite Hquiet. intros [].
Qed.

(** X6.  The gas fields of a built transaction.  Every transaction the bot
    asks for, in one cycle or in any number of daemon turns, carries a gas
    price that is the 20 gwei fallback or lies within the configured
    ceiling.  In [execute_swap] the request comes after the run passed the
    signal and the reserve check, priced the gas, asked for the estimate
    and read the nonce, each in the state the step before left; the gas
    price is the one that pricing returned, and the gas limit is the one
    derived from the answer this estimate received: [int(g * 1.2)] for a
    returned [g], 500000 when the call or the buffer raised.  The request
    of a cycle is the request of its [execute_swap], run in the state the
    status read left. *)
Theorem built_transactions_respect_the_gas_policy :
  forall (World : Type) (C : Chain World) (s : St World)
         (amount min_out : Z) (p : TxParams),
    let request := EvCall (OpBuildTransaction amount min_out p) in
    ((In request (events (run_once s)) \/
      exists n, In request (events (run_daemon n s))) ->
     price_ok (self_ s) (tx_gasPrice p)) /\
    (In request (events (execute_swap s)) ->
     exists s4 r w6 pre,
       built_by s amount min_out p s4 r w6 pre /\
       starts_with (pre ++ [request]) (execute_swap s) /\
       tx_gas p = gas_limit_for r) /\
    (In request (events (run_once s)) ->
     exists st s1 t1,
       get_status s = (inr (Some st), s1, t1) /\
       should_execute st = true /\
       In request (events (execute_swap s1))).
Proof.
  intros World C s amount min_out p request. subst request.
  split; [| split].
  - intros Hin.
    assert (Hall : forall evs,
              Forall (call_ok (self_ s)) evs ->
              In (EvCall (OpBuildTransaction amount min_out p)) evs ->
              price_ok (self_ s) (tx_gasPrice p)).
    { intros evs Hevs Hev. rewrite Forall_forall in Hevs.
      destruct (Hevs _ Hev) as [Hgas _]. exact Hgas. }
    destruct Hin as [Hin | [n Hin]].
    + apply (Hall (events (run_once s))); [| exact Hin].
      apply (run_once_calls (self_ s) s eq_refl).
    + apply (Hall (events (run_daemon n s))); [| exact Hin].
      apply (run_daemon_calls (self_ s) n s eq_refl).
  - intros Hin. apply In_builds in Hin.
    destruct (execute_swap_paths s)
      as [[Hnone _] | (a & m & q & s4 & r & w6 & pre & Hbuilt & Hstart & Hone & _)].
    + rewrite Hnone in Hin. destruct Hin.
    + rewrite Hone in Hin. destruct Hin as [Heq | []].
      injection Heq as -> -> ->.
      exists s4, r, w6, pre. split; [exact Hbuilt |]. split; [exact Hstart |].
      destruct Hbuilt as (eth & w3 & t4 & w5 & _ & _ & _ & _ & _ & _ & Hp & _).
      rewrite Hp. reflexivity.
  - intros Hin. apply In_builds in Hin.
    destruct (run_once_builds s _ Hin) as (st & s1 & t1 & Hst & Hflag & Hin1).
    exists st, s1, t1. split; [exact Hst |]. split; [exact Hflag |].
    apply In_builds. exact Hin1.
Qed.

Lemma built_transactions_respect_the_gas_policy_witness :
  exists s4 r w6 pre,
    built_by (mkSt default_bot happy_chain) (10 ^ 18) 2375000000
      (mkTxParams "0xAccount"%string (10 ^ 18) 120000 (30 * 10 ^ 9) 7)
      s4 r w6 pre /\
    starts_with
      (pre ++
         [EvCall (OpBuildTransaction (10 ^ 18) 2375000000
            (mkTxParams "0xAccount"%string (10 ^ 18) 120000 (30 * 10 ^ 9) 7))])
      (execute_swap (mkSt default_bot happy_chain)) /\
    120000 = gas_limit_for r.
Proof.
  apply (proj1 (proj2 (built_transactions_respect_the_gas_policy Script Script_Chain
                  (mkSt default_bot happy_chain) (10 ^ 18) 2375000000
                  (mkTxParams "0xAccount"%string (10 ^ 18) 120000 (30 * 10 ^ 9) 7)))).
  vm_compute. tauto.
Defined.

(** X7.  Whatever the chain answers, the bot reads balances and nonces of
    its own address only, and every gas estimate and every transaction it
    builds is sent from that address, attaches the trade amount as value,
    and asks for the minimum output computed from that amount; it waits
    300 seconds for a receipt and sleeps for its configured interval. *)
Theorem calls_concern_the_bot_and_its_trade :
  forall (World : Type) (C : Chain World) (s : St World) (ev : event),
    (In ev (events (run_once s)) \/
     exists n, In ev (events (run_daemon n s))) ->
    funds_fields_ok (self_ s) ev.
Proof.
  intros World C s ev Hin.
  assert (Hall : forall evs,
            Forall (call_ok (self_ s)) evs -> In ev evs ->
            funds_fields_ok (self_ s) ev).
  { intros evs Hevs Hev. rewrite Forall_forall in Hevs.
    destruct (Hevs _ Hev) as [_ Hfunds]. exact Hfunds. }
  destruct Hin as [Hin | [n Hin]].
  - apply (Hall (events (run_once s))); [| exact Hin].
    apply (run_once_calls (self_ s) s eq_refl).
  - apply (Hall (events (run_daemon n s))); [| exact Hin].
    apply (run_daemon_calls (self_ s) n s eq_refl).
Qed.

Lemma calls_concern_the_bot_and_its_trade_witness :
  trade_of default_bot (10 ^ 18) 2375000000 "0xAccount"%string (10 ^ 18).
Proof.
  apply (calls_concern_the_bot_and_its_trade Script Script_Chain
           (mkSt default_bot happy_chain)
           (EvCall (OpBuildTransaction (10 ^ 18) 2375000000
              (mkTxParams "0xAccount"%string (10 ^ 18) 120000 (30 * 10 ^ 9) 7)))).
  right. exists 1%nat. vm_compute. tauto.
Defined.

(** ** What a reported success rests on *)

(** X8.  [execute_swap] returns [True] only at the end of a confirmed run:
    from the state it started in, the run passed every check, asked for
    the transaction, signed and sent it, each call in the state the call
    before left; the chain returned the hash, and the wait for that hash
    (300 seconds at most), made in the state the send left, was answered
    with a receipt of status 1.  The events of the run are then exactly
    those of this path, ending with the record of the success and the gas
    the receipt reports, and one transaction was submitted. *)
Theorem reported_success_is_a_confirmed_receipt :
  forall (World : Type) (C : Chain World) (s : St World),
    outcome (execute_swap s) = inr true ->
    (exists tx_hash receipt, confirmed_run s tx_hash receipt) /\
    submissions (events (execute_swap s)) = 1%nat.
Proof.
  intros World C s Htrue.
  destruct (execute_swap_paths s)
    as [[_ Hnot] | (a & m & q & s4 & r & w6 & pre & _ & _ & _ & Hdone)];
    [contradiction |].
  destruct (Hdone Htrue) as (tx_hash & receipt & Hrun).
  split; [exists tx_hash, receipt; exact Hrun |].
  destruct Hrun as (a' & m' & q' & s4' & r' & w6' & pre' & tx & w7 & raw & w8 & w9
                    & w10 & eth & _ & _ & _ & _ & _ & _ & _ & Hevs).
  pose proof (execute_swap_single s) as Hmost.
  rewrite Hevs in *. unfold events, submissions in *. cbn [snd] in *.
  rewrite List.filter_app, List.length_app in *. cbn in *. lia.
Qed.

Lemma reported_success_is_a_confirmed_receipt_witness :
  (exists tx_hash receipt,
      confirmed_run (mkSt default_bot happy_chain) tx_hash receipt) /\
  submissions (events (execute_swap (mkSt default_bot happy_chain))) = 1%nat.
Proof.
  apply (reported_success_is_a_confirmed_receipt Script Script_Chain
           (mkSt default_bot happy_chain)).
  vm_compute. reflexivity.
Defined.

Lemma get_status_not_completed {World : Type} `{Chain World} :
  respects (fun ev => is_completed ev = false) any_state any_exn
    (get_status (World := World)).
Proof. unfold get_status, get_eth_balance, try_except. respectful. Qed.

Lemma execute_swap_not_completed {World : Type} `{Chain World} :
  respects (fun ev => is_completed ev = false) any_state any_exn
    (execute_swap (World := World)).
Proof.
  unfold execute_swap, get_eth_balance, get_gas_price, estimate_usdc_output,
    try_except.
  respectful.
Qed.

Lemma not_completed_absent (evs : list event) :
  Forall (fun ev => is_completed ev = false) evs ->
  ~ In (EvLog INFO MsgSwapCompleted) evs.
Proof.
  intros Hall Hin. rewrite Forall_forall in Hall.
  specialize (Hall _ Hin). discriminate Hall.
Qed.

(** X9.  A cycle logs that the swap completed only when its status read
    returned a report with the signal on and the [execute_swap] it then
    ran, in the state the status read left, was a confirmed run.  The
    record is the last event of the cycle, right after the events of that
    run, and the cycle submitted one transaction. *)
Theorem completion_is_logged_only_when_confirmed :
  forall (World : Type) (C : Chain World) (s : St World),
    In (EvLog INFO MsgSwapCompleted) (events (run_once s)) ->
    exists st s1 t1 tx_hash receipt,
      get_status s = (inr (Some st), s1, t1) /\
      should_execute st = true /\
      confirmed_run s1 tx_hash receipt /\
      events (run_once s) =
        EvLog INFO MsgCheck :: t1 ++ status_logs st ++
          EvLog INFO MsgConditionsMet :: events (execute_swap s1) ++
          [EvLog INFO MsgSwapCompleted] /\
      submissions (events (run_once s)) = 1%nat.
Proof.
  intros World C s Hin.
  destruct (get_status_not_completed s) as (Hstatus & _ & _).
  pose proof (run_once_single s) as Hmost.
  rewrite run_once_steps in *. unfold events in *.
  destruct (get_status s) as [[r s1] t1]; cbn [snd] in Hstatus.
  assert (Hlogs : forall st, Forall (fun ev => is_completed ev = false) (status_logs st)).
  { intros st. repeat constructor. }
  assert (Hhead : forall st rest,
            Forall (fun ev => is_completed ev = false) rest ->
            Forall (fun ev => is_completed ev = false)
              (EvLog INFO MsgCheck :: t1 ++ status_logs st ++ rest)).
  { intros st rest Hrest. constructor; [reflexivity |].
    apply Forall_app; split; [exact Hstatus |].
    apply Forall_app; split; [apply Hlogs | exact Hrest]. }
  destruct r as [e | [st |]].
  - exfalso. revert Hin. apply not_completed_absent.
    constructor; [reflexivity | exact Hstatus].
  - destruct (should_execute st) eqn:Hflag.
    + destruct (execute_swap_not_completed s1) as (Hswap & _ & _).
      pose proof (execute_swap_paths s1) as Hpaths.
      unfold events, outcome in Hswap, Hpaths.
      destruct (execute_swap s1) as [[r2 s2] t2] eqn:Hrun; cbn [fst snd] in *.
      destruct r2 as [e | [|]]; cbn [snd] in *.
      * exfalso. revert Hin. apply not_completed_absent.
        apply Hhead. constructor; [reflexivity | exact Hswap].
      * destruct Hpaths
          as [[_ Hnot] | (a & m & q & s4 & r & w6 & pre & _ & _ & _ & Hdone)];
          [contradiction Hnot; reflexivity |].
        destruct (Hdone eq_refl) as (tx_hash & receipt & Hconfirmed).
        exists st, s1, t1, tx_hash, receipt.
        split; [reflexivity |]. split; [exact Hflag |].
        split; [exact Hconfirmed |]. split.
        { rewrite ?Hrun. cbn. rewrite <- ?app_assoc. cbn. rewrite <- ?app_assoc.
          reflexivity. }
        destruct Hconfirmed
          as (a' & m' & q' & s4' & r' & w6' & pre' & tx & w7 & raw & w8 & w9
              & w10 & eth & _ & _ & _ & _ & _ & _ & _ & Hevs).
        rewrite Hrun in Hevs. injection Hevs as _ Hevs. subst t2.
        unfold submissions in *.
        repeat (rewrite ?List.filter_app, ?List.length_app in Hmost;
                cbn [List.filter List.length is_submission] in Hmost).
        repeat (rewrite ?List.filter_app, ?List.length_app;
                cbn [List.filter List.length is_submission]).
        cbn in *. lia.
      * exfalso. revert Hin. apply not_completed_absent.
        change (EvLog INFO MsgCheck
                  :: t1 ++ status_logs st ++ EvLog INFO MsgConditionsMet :: t2)
          with (EvLog INFO MsgCheck
                  :: t1 ++ status_logs st ++ ([EvLog INFO MsgConditionsMet] ++ t2)).
        rewrite app_comm_cons. apply Forall_app. split.
        { apply Hhead. constructor; [reflexivity | exact Hswap]. }
        repeat constructor.
    + exfalso. revert Hin. apply not_completed_absent.
      apply Hhead. repeat constructor.
  - exfalso. revert Hin. apply not_completed_absent.
    constructor; [reflexivity |].
    apply Forall_app; split; [exact Hstatus | repeat constructor].
Qed.

Lemma completion_is_logged_only_when_confirmed_witness :
  exists st s1 t1 tx_hash receipt,
    get_status (mkSt default_bot happy_chain) = (inr (Some st), s1, t1) /\
    should_execute st = true /\
    confirmed_run s1 tx_hash receipt /\
    events (run_once (mkSt default_bot happy_chain)) =
      EvLog INFO MsgCheck :: t1 ++ status_logs st ++
        EvLog INFO MsgConditionsMet :: events (execute_swap s1) ++
        [EvLog INFO MsgSwapCompleted] /\
    submissions (events (run_once (mkSt default_bot happy_chain))) = 1%nat.
Proof.
  apply (completion_is_logged_only_when_confirmed Script Script_Chain
           (mkSt default_bot happy_chain)).
  vm_compute. tauto.
Defined.

(** ** What precedes a chain write *)

Ltac no_write :=
  match goal with
  | Hin : In _ _, Hw : is_chain_write _ = true |- _ =>
      exfalso; cbn in Hin;
      repeat (destruct Hin as [Hin | Hin];
              [rewrite <- Hin in Hw; discriminate Hw |]);
      exact Hin
  end.

(** X10.  [execute_swap] reaches the chain-write interface only after
    every check has passed: the signal was read as true, the trade size
    and the account balance were read and converted, and the balance was
    not below the required balance.  A read that fails, a signal that is
    off and a balance that is short all end the attempt before the first
    chain-write call. *)
Theorem chain_writes_follow_every_check :
  forall (World : Type) (C : Chain World) (s : St World) (ev : event),
    In ev (events (execute_swap s)) ->
    is_chain_write ev = true ->
    exists w1 amount w2 eth_amount balance w3 account_balance,
      perform OpShouldExecute (chain s) = (inr true, w1) /\
      perform OpDefaultSwapAmount w1 = (inr amount, w2) /\
      from_wei_ether amount = inr eth_amount /\
      perform (OpGetBalance (address_ (self_ s))) w2 = (inr balance, w3) /\
      from_wei_ether balance = inr account_balance /\
      (Decimal.toQ (required_balance_of (self_ s) eth_amount)
         <= Decimal.toQ account_balance)%Q.
Proof.
  intros World C s ev Hin Hw.
  unfold execute_swap, try_except, try_with, events in Hin.
  unfold bind at 1 in Hin. unfold call at 1 in Hin.
  destruct (perform OpShouldExecute (chain s)) as [[e | signal] w1] eqn:Hsignal.
  { destruct (is_Exception e); no_write. }
  destruct signal; cbn [negb] in Hin.
  2:{ no_write. }
  unfold bind at 1 in Hin. unfold call at 1 in Hin. cbn [chain self_] in Hin.
  destruct (perform OpDefaultSwapAmount w1) as [[e | amount] w2] eqn:Hamount.
  { destruct (is_Exception e); no_write. }
  unfold bind at 1 in Hin. unfold lift at 1 in Hin.
  destruct (from_wei_ether amount) as [e | eth_amount] eqn:Heth.
  { destruct (is_Exception e); no_write. }
  unfold bind at 1 in Hin. unfold get_eth_balance at 1 in Hin.
  unfold bind at 1 in Hin. unfold get_self at 1 in Hin.
  unfold bind at 1 in Hin. unfold call at 1 in Hin. cbn [chain self_] in Hin.
  destruct (perform (OpGetBalance (address_ (self_ s))) w2) as [[e | balance] w3]
    eqn:Hbalance.
  { destruct (is_Exception e); no_write. }
  unfold lift at 1 in Hin.
  destruct (from_wei_ether balance) as [e | account_balance] eqn:Haccount.
  { destruct (is_Exception e); no_write. }
  unfold bind at 1 in Hin. unfold get_self at 1 in Hin. cbv zeta in Hin.
  cbn [self_ chain] in Hin.
  fold (required_balance_of (self_ s) eth_amount) in Hin.
  destruct (Decimal.ltb account_balance (required_balance_of (self_ s) eth_amount))
    eqn:Hlow.
  { no_write. }
  exists w1, amount, w2, eth_amount, balance, w3, account_balance.
  repeat (split; [first [assumption | reflexivity] |]).
  apply ltb_false_spec. exact Hlow.
Qed.

Lemma chain_writes_follow_every_check_witness :
  exists w1 amount w2 eth_amount balance w3 account_balance,
    perform OpShouldExecute happy_chain = (inr true, w1) /\
    perform OpDefaultSwapAmount w1 = (inr amount, w2) /\
    from_wei_ether amount = inr eth_amount /\
    perform (OpGetBalance "0xAccount"%string) w2 = (inr balance, w3) /\
    from_wei_ether balance = inr account_balance /\
    (Decimal.toQ (required_balance_of default_bot eth_amount)
       <= Decimal.toQ account_balance)%Q.
Proof.
  apply (chain_writes_follow_every_check Script Script_Chain
           (mkSt default_bot happy_chain)
           (EvCall (OpSendRawTransaction "0xRaw"%string))).
  - vm_compute. tauto.
  - reflexivity.
Defined.

(** ** The gas price with a ceiling that is no amount of wei *)

(** X11.  When the configured ceiling does not convert to wei (it is
    negative, or beyond 2^256 - 1 wei), [get_gas_price] answers the 20
    gwei fallback although the price was read: the conversion error is
    caught and logged like a failed read. *)
Theorem get_gas_price_unusable_ceiling :
  forall (World : Type) (C : Chain World) (s : St World) (observed : Z)
         (w : World),
    max_gas_price (self_ s) < 0 \/ MAX_WEI < max_gas_price (self_ s) * 10 ^ 9 ->
    perform OpGasPrice (chain s) = (inr observed, w) ->
    exists e,
      to_wei_gwei (max_gas_price (self_ s)) = inl e /\
      get_gas_price s =
        (inr (20 * 10 ^ 9), mkSt (self_ s) w,
         [EvCall OpGasPrice; EvLog ERROR (MsgGasPriceFailed e)]).
Proof.
  intros World C s observed w Hbad Hread.
  assert (Hconv : exists e,
            to_wei_gwei (max_gas_price (self_ s)) = inl e /\ is_Exception e = true).
  { unfold to_wei_gwei.
    destruct ((max_gas_price (self_ s) * 10 ^ 9 <? 0)
              || (MAX_WEI <? max_gas_price (self_ s) * 10 ^ 9))%bool eqn:Hr.
    - eexists. split; reflexivity.
    - apply orb_false_iff in Hr. destruct Hr as [Hneg Hbig].
      apply Z.ltb_ge in Hneg. apply Z.ltb_ge in Hbig. lia. }
  destruct Hconv as (e & Hconv & He). exists e. split; [exact Hconv |].
  unfold get_gas_price, try_except, try_with, bind, call, get_self, lift, log, ret.
  rewrite Hread. cbn [self_ chain]. rewrite Hconv, He. reflexivity.
Qed.

Lemma get_gas_price_unusable_ceiling_witness :
  exists e,
    to_wei_gwei (-1) = inl e /\
    get_gas_price (mkSt negative_ceiling_bot happy_chain) =
      (inr (20 * 10 ^ 9), mkSt negative_ceiling_bot happy_chain,
       [EvCall OpGasPrice; EvLog ERROR (MsgGasPriceFailed e)]).
Proof.
  apply (get_gas_price_unusable_ceiling Script Script_Chain
           (mkSt negative_ceiling_bot happy_chain) (30 * 10 ^ 9) happy_chain).
  - left. cbn. lia.
  - reflexivity.
Defined.

(** ** Settings that are no numbers *)












(** ** The entry point *)

Lemma failed_to_start_cases {World : Type} (e : exn) (w : World)
    (t : list main_event) :
  (is_Exception e = true /\
   failed_to_start e w t = (Returned 1, w, t ++ [FailedToStart e])) \/
  (is_Exception e = false /\ failed_to_start e w t = (Raised e, w, t)).
Proof.
  unfold failed_to_start. destruct (is_Exception e); [left | right]; split;
    reflexivity.
Qed.

Lemma no_failure_record_of_the_bot (t : list event) :
  List.existsb is_failure_record (List.map Bot t) = false.
Proof. induction t as [| ev t IH]; [reflexivity | exact IH]. Qed.

Lemma dispatch_records_no_failure {World : Type} `{Chain World} (n : nat)
    (args : Args) (bot : FarmBot) (w : World) :
  List.existsb is_failure_record (snd (dispatch n args bot w)) = false.
Proof.
  unfold dispatch. destruct (arg_status args); [| destruct (arg_once args)].
  - destruct (get_status (mkSt bot w)) as [[[e | st] s1] t]; cbn [snd].
    + apply no_failure_record_of_the_bot.
    + rewrite List.existsb_app, no_failure_record_of_the_bot. reflexivity.
  - destruct (run_once (mkSt bot w)) as [[r s1] t]; cbn [snd].
    apply no_failure_record_of_the_bot.
  - destruct (run_daemon n (mkSt bot w)) as [[r s1] t].
    destruct (outcome (daemon_loop n (mkSt bot w))); cbn [snd];
      apply no_failure_record_of_the_bot.
Qed.

(** X13.  The exit code of [main] tells whether an exception reached it.
    It returns 0 or 1; it returns 1 exactly when it recorded a failure to
    start, that record is then its last event and names an exception of
    class [Exception]; and an exception leaves [main] only if it is not of
    that class. *)
Theorem main_exit_code_reports_failure :
  forall (World : Type) (C : Chain World) (n : nat) (args : Args) (env : Env)
         (w : World),
    let '(r, _, evs) := main n args env w in
    match r with
    | Returned code =>
        (code = 0 /\ List.existsb is_failure_record evs = false) \/
        (code = 1 /\
         exists pre e,
           evs = pre ++ [FailedToStart e] /\ is_Exception e = true /\
           List.existsb is_failure_record pre = false)
    | Raised e =>
        is_Exception e = false /\ List.existsb is_failure_record evs = false
    | Running =>
        arg_status args = false /\ arg_once args = false /\
        List.existsb is_failure_record evs = false
    end.
Proof.
  intros World C n args env w. unfold main.
  destruct (init env w) as [[[e | bot] w1] t1].
  - destruct (failed_to_start_cases e w1 (List.map Bot t1)) as [[He ->] | [He ->]].
    + right. split; [reflexivity |]. exists (List.map Bot t1), e.
      split; [reflexivity |]. split; [exact He |].
      apply no_failure_record_of_the_bot.
    + split; [exact He | apply no_failure_record_of_the_bot].
  - pose proof (dispatch_records_no_failure n args bot w1) as Hquiet.
    assert (Hall : forall t2,
              List.existsb is_failure_record t2 = false ->
              List.existsb is_failure_record (List.map Bot t1 ++ t2) = false).
    { intros t2 Ht2.
      rewrite List.existsb_app, no_failure_record_of_the_bot. exact Ht2. }
    assert (Hmode : fst (fst (dispatch n args bot w1)) = None ->
                    arg_status args = false /\ arg_once args = false).
    { unfold dispatch.
      destruct (arg_status args); [| destruct (arg_once args)].
      - destruct (get_status (mkSt bot w1)) as [[[e | st] s1] t]; discriminate.
      - destruct (run_once (mkSt bot w1)) as [[r s1] t]. discriminate.
      - intros _. split; reflexivity. }
    destruct (dispatch n args bot w1) as [[[[e | []] |] w2] t2];
      cbn [fst snd] in *.
    + destruct (failed_to_start_cases e w2 (List.map Bot t1 ++ t2))
        as [[He ->] | [He ->]].
      * right. split; [reflexivity |]. exists (List.map Bot t1 ++ t2), e.
        split; [reflexivity |]. split; [exact He | apply Hall, Hquiet].
      * split; [exact He | apply Hall, Hquiet].
    + left. split; [reflexivity | apply Hall, Hquiet].
    + destruct (Hmode eq_refl) as [Hs Ho].
      split; [exact Hs |]. split; [exact Ho | apply Hall, Hquiet].
Qed.

(** X14.  Without a private key or without a contract address, [main]
    returns 1 in every mode, having made no call at all: its only event
    is the record of the [ValueError]. *)
Theorem main_needs_credentials :
  forall (World : Type) (C : Chain World) (n : nat) (args : Args) (env : Env)
         (w : World),
    truthy (env "PRIVATE_KEY"%string) = None \/
    truthy (env "FARMBOT_CONTRACT_ADDRESS"%string) = None ->
    exists msg,
      main n args env w = (Returned 1, w, [FailedToStart (ValueError msg)]).
Proof.
  intros World C n args env w Hmissing. unfold main, init.
  destruct (truthy (env "PRIVATE_KEY"%string)) as [key |].
  - destruct Hmissing as [Hkey | ->]; [discriminate |].
    eexists. reflexivity.
  - eexists. reflexivity.
Qed.

Lemma main_needs_credentials_witness :
  exists msg,
    main 1 daemon_args empty_env happy_chain =
      (Returned 1, happy_chain, [FailedToStart (ValueError msg)]).
Proof.
  apply (main_needs_credentials Script Script_Chain 1 daemon_args empty_env
           happy_chain).
  left. reflexivity.
Defined.

(** X15.  Once the bot is constructed, on a chain whose calls fail only
    with exceptions of class [Exception], the modes [--status] and
    [--once] always return 0, whatever fails on the chain.  [--status]
    wins over [--once]: it makes the status read and nothing else (no
    chain-write call among its events) and prints what the read returned,
    the empty dictionary when the read failed; [--once] alone runs one
    cycle and prints nothing. *)
Theorem status_and_once_modes_return_zero :
  forall (World : Type) (C : Chain World),
    chain_errors_are_Exceptions World ->
    forall (n : nat) (args : Args) (env : Env) (w w1 : World) (bot : FarmBot)
           (t1 : list event),
      init env w = (inr bot, w1, t1) ->
      (arg_status args = true ->
       exists status s2 t2,
         get_status (mkSt bot w1) = (inr status, s2, t2) /\
         Forall (fun ev => is_chain_write ev = false) t2 /\
         main n args env w =
           (Returned 0, chain s2,
            List.map Bot t1 ++ List.map Bot t2 ++ [Printed status])) /\
      (arg_status args = false -> arg_once args = true ->
       exists s2 t2,
         run_once (mkSt bot w1) = (inr tt, s2, t2) /\
         main n args env w =
           (Returned 0, chain s2, List.map Bot t1 ++ List.map Bot t2)).
Proof.
  intros World C Hpolite n args env w w1 bot t1 Hinit. split.
  - intros Hstatus.
    destruct (get_status_total Hpolite (mkSt bot w1)) as [status Hret].
    destruct (get_status_reads (mkSt bot w1)) as (Hreads & _ & _).
    unfold outcome, events in *.
    destruct (get_status (mkSt bot w1)) as [[r s2] t2] eqn:Hget.
    cbn [fst snd] in *. subst r.
    exists status, s2, t2. split; [reflexivity |]. split.
    + eapply Forall_impl; [| exact Hreads].
      intros ev Hev. apply (status_read_is_no_write ev Hev).
    + unfold main. rewrite Hinit. unfold dispatch.
      rewrite Hstatus, Hget. reflexivity.
  - intros Hstatus Honce.
    destruct (run_once_total Hpolite (mkSt bot w1)) as [[] Hret].
    unfold outcome in Hret.
    destruct (run_once (mkSt bot w1)) as [[r s2] t2] eqn:Hrun.
    cbn [fst] in Hret. subst r.
    exists s2, t2. split; [reflexivity |].
    unfold main. rewrite Hinit. unfold dispatch.
    rewrite Hstatus, Honce, Hrun. reflexivity.
Qed.

Lemma status_and_once_modes_return_zero_witness :
  exists status s2 t2,
    get_status (mkSt default_bot happy_chain) = (inr status, s2, t2) /\
    Forall (fun ev => is_chain_write ev = false) t2 /\
    main 0 status_args default_env happy_chain =
      (Returned 0, chain s2,
       List.map Bot
         [EvCall OpIsConnected; EvCall (OpFromKey "0xKey");
          EvCall (OpLoadContract "0xFarmBot");
          EvLog INFO (MsgInitialized "0xAccount"%string);
          EvLog INFO (MsgContractAddress "0xFarmBot");
          EvLog INFO (MsgPollInterval 300)]
         ++ List.map Bot t2 ++ [Printed status]).
Proof.
  apply (proj1 (status_and_once_modes_return_zero Script Script_Chain
                  script_errors_are_Exceptions 0 status_args default_env
                  happy_chain happy_chain default_bot _
                  ltac:(vm_compute; reflexivity))).
  reflexivity.
Defined.

(** X16.  In daemon mode [main] returns only when its loop is left by an
    exception.  It returns 0 exactly when that exception is a
    [KeyboardInterrupt], after the record that the user stopped the
    daemon.  It returns 1 when the exception is of class [Exception]; the
    crash is then recorded twice, by the daemon and, as a failure to
    start, by [main].  While the loop runs, [main] has not returned. *)
Theorem daemon_mode_returns_after_the_loop :
  forall (World : Type) (C : Chain World) (n : nat) (args : Args) (env : Env)
         (w w1 : World) (bot : FarmBot) (t1 : list event),
    init env w = (inr bot, w1, t1) ->
    arg_status args = false ->
    arg_once args = false ->
    let '(r, _, evs) := main n args env w in
    match outcome (daemon_loop n (mkSt bot w1)) with
    | inr _ => r = Running
    | inl KeyboardInterrupt =>
        r = Returned 0 /\
        exists pre, evs = pre ++ [Bot (EvLog INFO MsgDaemonStopped)]
    | inl e =>
        if is_Exception e
        then r = Returned 1 /\
             exists pre,
               evs = pre ++ [Bot (EvLog ERROR (MsgDaemonCrashed e));
                             FailedToStart e]
        else r = Raised e
    end.
Proof.
  intros World C n args env w w1 bot t1 Hinit Hstatus Honce.
  unfold main. rewrite Hinit. unfold dispatch. rewrite Hstatus, Honce.
  unfold run_daemon, bind, log, try_with, raise, outcome.
  destruct (daemon_loop n (mkSt bot w1)) as [[[e | []] s1] t2]; cbn [fst snd].
  - destruct e; cbn; unfold failed_to_start; cbn;
      try reflexivity;
      (split; [reflexivity |]); eexists;
      rewrite ?List.map_app, ?app_nil_r; cbn [List.map];
      rewrite ?app_comm_cons, ?app_assoc; try reflexivity;
      rewrite <- app_assoc; reflexivity.
  - reflexivity.
Qed.

Lemma daemon_mode_returns_after_the_loop_witness :
  fst (fst (main 2 daemon_args default_env happy_chain)) = Running.
Proof.
  pose proof (daemon_mode_returns_after_the_loop Script Script_Chain 2
                daemon_args default_env happy_chain happy_chain default_bot _
                ltac:(vm_compute; reflexivity) eq_refl eq_refl) as Hmain.
  destruct (main 2 daemon_args default_env happy_chain) as [[r w] evs].
  exact Hmain.
Defined.

(** ** The status report *)

Ltac failed_read e :=
  let He := fresh "He" in
  let Heq := fresh "Heq" in
  destruct (is_Exception e) eqn:He; cbn; intros Heq; inversion Heq; subst;
  eexists e, _; split; [exact He |];
  first [ split; [| left; reflexivity]; reflexivity
        | split; [| right; reflexivity]; reflexivity ].

(** X17.  A status report is all or nothing.  When [get_status] returns a
    report, its six entries come from one [getStatus] tuple and one read
    of the bot's own balance, both of which succeeded, and these two reads
    are all it did.  When it returns the empty dictionary, one of them or
    a conversion raised an exception of class [Exception], and the record
    of that exception is its last event: a partial report is never
    returned. *)
Theorem status_report_is_all_or_nothing :
  forall (World : Type) (C : Chain World) (s s' : St World)
         (r : option Status) (evs : list event),
    get_status s = (inr r, s', evs) ->
    match r with
    | Some st =>
        exists eth usdc w1 balance w2 account,
          perform OpGetStatus (chain s)
            = (inr (current_apr st, should_execute st, eth, usdc), w1) /\
          perform (OpGetBalance (address_ (self_ s))) w1 = (inr balance, w2) /\
          PyFloat.int_truediv (current_apr st) 100
            = inr (current_apr_percentage st) /\
          from_wei_ether eth = inr (contract_eth_balance st) /\
          PyFloat.int_div usdc PyFloat.lit_1e6 = inr (contract_usdc_balance st) /\
          from_wei_ether balance = inr account /\
          account_eth_balance st = PyFloat.of_Decimal account /\
          s' = mkSt (self_ s) w2 /\
          evs = [EvCall OpGetStatus; EvCall (OpGetBalance (address_ (self_ s)))]
    | None =>
        exists e pre,
          is_Exception e = true /\
          evs = pre ++ [EvLog ERROR (MsgStatusFailed e)] /\
          (pre = [EvCall OpGetStatus] \/
           pre = [EvCall OpGetStatus; EvCall (OpGetBalance (address_ (self_ s)))])
    end.
Proof.
  intros World C s s' r evs.
  unfold get_status, try_except, try_with, bind at 1, call at 1.
  destruct (perform OpGetStatus (chain s)) as [[e | [[[apr flag] eth] usdc]] w1]
    eqn:Hread.
  { failed_read e. }
  unfold bind at 1, lift at 1.
  destruct (PyFloat.int_truediv apr 100) as [e | pct] eqn:Hpct.
  { failed_read e. }
  unfold bind at 1, lift at 1.
  destruct (from_wei_ether eth) as [e | contract_eth] eqn:Heth.
  { failed_read e. }
  unfold bind at 1, lift at 1.
  destruct (PyFloat.int_div usdc PyFloat.lit_1e6) as [e | contract_usdc] eqn:Husdc.
  { failed_read e. }
  unfold bind at 1, get_eth_balance, bind at 1, get_self at 1, bind at 1, call at 1.
  cbn [self_ chain].
  destruct (perform (OpGetBalance (address_ (self_ s))) w1) as [[e | balance] w2]
    eqn:Hbalance.
  { failed_read e. }
  unfold lift at 1.
  destruct (from_wei_ether balance) as [e | account] eqn:Haccount.
  { failed_read e. }
  cbn. intros Heq. inversion Heq. subst. cbn.
  exists eth, usdc, w1, balance, w2, account.
  repeat (split; [first [assumption | reflexivity] |]). reflexivity.
Qed.

Lemma status_report_is_all_or_nothing_witness :
  exists e pre,
    is_Exception e = true /\
    [EvCall OpGetStatus; EvLog ERROR (MsgStatusFailed (Web3Exception "connection timed out"))]
      = pre ++ [EvLog ERROR (MsgStatusFailed e)] /\
    (pre = [EvCall OpGetStatus] \/
     pre = [EvCall OpGetStatus; EvCall (OpGetBalance "0xAccount"%string)]).
Proof.
  apply (status_report_is_all_or_nothing Script Script_Chain
           (mkSt default_bot status_down_chain)
           (mkSt default_bot status_down_chain) None).
  vm_compute. reflexivity.
Defined.

(** ** The verdict of a cycle *)

Lemma get_status_gives_no_verdict {World : Type} `{Chain World} :
  respects (fun ev => is_verdict ev = false) any_state any_exn
    (get_status (World := World)).
Proof. unfold get_status, get_eth_balance, try_except. respectful. Qed.

Lemma execute_swap_gives_no_verdict {World : Type} `{Chain World} :
  respects (fun ev => is_verdict ev = false) any_state any_exn
    (execute_swap (World := World)).
Proof.
  unfold execute_swap, get_eth_balance, get_gas_price, estimate_usdc_output,
    try_except.
  respectful.
Qed.

(** X18.  On a chain whose calls fail only with exceptions of class
    [Exception], every cycle ends with exactly one verdict: its last
    record is one of "Failed to get contract status", "Waiting for better
    APR conditions", "Swap completed successfully" and "Swap execution
    failed", and none of these four is logged before. *)
Theorem every_cycle_ends_with_one_verdict :
  forall (World : Type) (C : Chain World),
    chain_errors_are_Exceptions World ->
    forall s : St World,
    exists pre verdict,
      events (run_once s) = pre ++ [verdict] /\
      is_verdict verdict = true /\
      Forall (fun ev => is_verdict ev = false) pre.
Proof.
  intros World C Hpolite s.
  destruct (get_status_total Hpolite s) as [status Hstatus].
  destruct (get_status_gives_no_verdict s) as (Hquiet & _ & _).
  rewrite run_once_steps. unfold outcome, events in *.
  destruct (get_status s) as [[r s1] t1]; cbn [fst snd] in *. subst r.
  assert (Hlogs : forall st, Forall (fun ev => is_verdict ev = false) (status_logs st)).
  { intros st. repeat constructor. }
  destruct status as [st |].
  - destruct (should_execute st).
    + destruct (execute_swap_total Hpolite s1) as [success Hswap].
      destruct (execute_swap_gives_no_verdict s1) as (Hquiet2 & _ & _).
      unfold outcome, events in *.
      destruct (execute_swap s1) as [[r2 s2] t2]; cbn [fst snd] in *. subst r2.
      assert (Hpre : Forall (fun ev => is_verdict ev = false)
                (EvLog INFO MsgCheck
                   :: t1 ++ status_logs st ++ EvLog INFO MsgConditionsMet :: t2)).
      { constructor; [reflexivity |].
        apply Forall_app; split; [exact Hquiet |].
        apply Forall_app; split; [apply Hlogs |].
        constructor; [reflexivity | exact Hquiet2]. }
      destruct success; cbn [snd]; eexists; eexists;
        (split; [reflexivity |]); (split; [reflexivity | exact Hpre]).
    + cbn [snd].
      exists (EvLog INFO MsgCheck :: t1 ++ status_logs st), (EvLog INFO MsgWaiting).
      split; [cbn; rewrite <- app_assoc; reflexivity |].
      split; [reflexivity |].
      constructor; [reflexivity |].
      apply Forall_app; split; [exact Hquiet | apply Hlogs].
  - cbn [snd].
    exists (EvLog INFO MsgCheck :: t1), (EvLog ERROR MsgNoStatus).
    split; [reflexivity |]. split; [reflexivity |].
    constructor; [reflexivity | exact Hquiet].
Qed.

Lemma every_cycle_ends_with_one_verdict_witness :
  exists pre verdict,
    events (run_once (mkSt default_bot revert_chain)) = pre ++ [verdict] /\
    is_verdict verdict = true /\
    Forall (fun ev => is_verdict ev = false) pre.
Proof.
  exact (every_cycle_ends_with_one_verdict Script Script_Chain
           script_errors_are_Exceptions (mkSt default_bot revert_chain)).
Defined.

(** ** The gas buffer *)

(** Below 2^52 the conversion of an [int] to a float is exact. *)
Lemma float_of_int_exact (g : Z) :
  0 < g < 2 ^ 52 ->
  exists e,
    -53 <= e <= -1 /\ PyFloat.of_int g = inr (PyFloat.Fin (g * 2 ^ (- e)) e).
Proof.
  intros [Hpos Hlt]. unfold PyFloat.of_int, PyFloat.round_binary64.
  destruct (Z.eqb_spec g 0) as [| _]; [lia |].
  rewrite Z.abs_eq, Z.sgn_pos, Z.mul_1_l by lia.
  pose proof (floor_log2_ratio_upper g 1) as Hup.
  pose proof (floor_log2_ratio_lower g 1) as Hlow.
  change (Z.log2 1) with 0 in Hup, Hlow.
  assert (Hlog : 0 <= Z.log2 g < 52).
  { split; [apply Z.log2_nonneg | apply Z.log2_lt_pow2; lia]. }
  set (e := Z.max (PyFloat.floor_log2_ratio g 1 - 52) (-1074)) in *.
  assert (He : -53 <= e <= -1) by (unfold e; lia).
  destruct (Z.leb_spec 0 e) as [| _]; [lia |].
  destruct (Z.ltb_spec 971 e) as [| _]; [lia |].
  destruct (Z.eqb_spec e 971) as [| _]; [lia |].
  cbn [orb andb]. exists e. split; [exact He |].
  replace (g * 2 ^ (- e)) with (g * 2 ^ (- e) * 1) at 1 by ring.
  rewrite div_half_even_exact by lia. rewrite Z.mul_1_l. reflexivity.
Qed.

(** The buffered limit of an estimate below 2^52 is never below the
    estimate, and within two units of six fifths of it. *)
Lemma buffered_gas_limit_bounds (g : Z) :
  0 <= g < 2 ^ 52 ->
  exists scaled limit,
    PyFloat.int_mul g PyFloat.lit_1_2 = inr scaled /\
    PyFloat.to_int scaled = inr limit /\
    g <= limit /\
    6 * g - 8 <= 5 * limit <= 6 * g + 2.
Proof.
  intros [Hnn Hlt].
  destruct (Z.eq_dec g 0) as [-> | H0].
  { eexists; eexists. split; [vm_compute; reflexivity |].
    split; [vm_compute; reflexivity |]. lia. }
  destruct (Z.eq_dec g 1) as [-> | H1].
  { eexists; eexists. split; [vm_compute; reflexivity |].
    split; [vm_compute; reflexivity |]. lia. }
  destruct (Z.eq_dec g 2) as [-> | H2].
  { eexists; eexists. split; [vm_compute; reflexivity |].
    split; [vm_compute; reflexivity |]. lia. }
  destruct (float_of_int_exact g ltac:(lia)) as (e & He & Hof).
  unfold PyFloat.int_mul. rewrite Hof.
  unfold PyFloat.mul, PyFloat.lit_1_2.
  destruct (Z.leb_spec 0 (e + -52)) as [| _]; [lia |].
  set (L := 5404319552844595).
  set (u := 2 ^ (- e)).
  assert (Hu : 0 < u) by (apply Z.pow_pos_nonneg; lia).
  assert (Hu53 : u <= 2 ^ 53) by (apply Z.pow_le_mono_r; lia).
  assert (Hden : 2 ^ (- (e + -52)) = 2 ^ 52 * u).
  { unfold u. rewrite <- Z.pow_add_r by lia. f_equal. lia. }
  rewrite Hden.
  assert (Ha : 0 < g * u * L) by (unfold L; nia).
  unfold PyFloat.round_binary64.
  destruct (Z.eqb_spec (g * u * L) 0) as [| _]; [lia |].
  rewrite Z.abs_eq, Z.sgn_pos, Z.mul_1_l by lia.
  pose proof (floor_log2_ratio_upper (g * u * L) (2 ^ 52 * u)) as Hup.
  pose proof (floor_log2_ratio_lower (g * u * L) (2 ^ 52 * u)) as Hlow.
  assert (Hlogden : Z.log2 (2 ^ 52 * u) = 52 - e).
  { rewrite <- Hden. rewrite Z.log2_pow2 by lia. lia. }
  assert (Hloga : 52 - e <= Z.log2 (g * u * L) <= 104 - e).
  { split.
    - apply Z.log2_le_pow2; [lia |].
      replace (52 - e) with (52 + - e) by lia. rewrite Z.pow_add_r by lia.
      fold u. unfold L. nia.
    - assert (Z.log2 (g * u * L) < 105 - e); [| lia].
      apply Z.log2_lt_pow2; [lia |].
      replace (105 - e) with (105 + - e) by lia. rewrite Z.pow_add_r by lia.
      fold u. change (2 ^ 105) with (2 ^ 52 * 2 ^ 53).
      assert (HL : L < 2 ^ 53) by reflexivity.
      nia. }
  set (e' := Z.max (PyFloat.floor_log2_ratio (g * u * L) (2 ^ 52 * u) - 52) (-1074)) in *.
  assert (He' : -53 <= e' <= 0) by (unfold e'; lia).
  destruct (Z.ltb_spec 971 e') as [| _]; [lia |].
  destruct (Z.eqb_spec e' 971) as [| _]; [lia |].
  cbn [orb andb].
  eexists; eexists. split; [reflexivity |]. unfold PyFloat.to_int.
  split; [reflexivity |].
  destruct (Z.leb_spec 0 e') as [Hz | Hneg].
  - assert (e' = 0) by lia. subst e'. rewrite H. change (2 ^ 0) with 1.
    rewrite !Z.mul_1_r.
    replace (g * u * L) with (g * L * u) by ring.
    rewrite div_half_even_scale by (unfold L; nia).
    pose proof (div_half_even_error (g * L) (2 ^ 52) ltac:(reflexivity))
      as Herr.
    unfold L in *. lia.
  - set (v := 2 ^ (- e')).
    assert (Hv : 0 < v) by (apply Z.pow_pos_nonneg; lia).
    replace (g * u * L * v) with (g * L * v * u) by ring.
    rewrite div_half_even_scale by (unfold L; nia).
    pose proof (div_half_even_error (g * L * v) (2 ^ 52) ltac:(reflexivity))
      as Herr.
    pose proof (div_half_even_nonneg (g * L * v) (2 ^ 52) ltac:(unfold L; nia)
                  ltac:(reflexivity)) as Hm.
    set (m := div_half_even (g * L * v) (2 ^ 52)) in *.
    rewrite Z.quot_div_nonneg by lia.
    pose proof (Z.div_mod m v ltac:(lia)) as Hdiv.
    pose proof (Z.mod_pos_bound m v Hv) as Hmod.
    set (limit := m / v) in *.
    assert (Hupper : 2 ^ 52 * limit <= g * L + 2 ^ 51).
    { apply Z.mul_le_mono_pos_r with (p := v); [exact Hv |]. unfold L in *. nia. }
    assert (Hlower : g * L - 2 ^ 51 < 2 ^ 52 * (limit + 1)).
    { apply Z.mul_lt_mono_pos_r with (p := v); [exact Hv |]. unfold L in *. nia. }
    unfold L in *. lia.
Qed.

(** X19.  The buffer on the gas estimate.  When [execute_swap] asks for a
    transaction, it has asked for the gas estimate before, in the state
    its gas pricing left; if that call returned an estimate [g] below
    2^52, the gas limit of the transaction is [int(g * 1.2)], which is
    never below the estimate and within two units of six fifths of it. *)
Theorem gas_limit_is_the_estimate_plus_a_fifth :
  forall (World : Type) (C : Chain World) (s : St World)
         (amount min_out : Z) (p : TxParams),
    In (EvCall (OpBuildTransaction amount min_out p)) (events (execute_swap s)) ->
    exists s4 r w6 pre,
      built_by s amount min_out p s4 r w6 pre /\
      (forall g,
          r = inr g ->
          0 <= g < 2 ^ 52 ->
          buffered g = inr (tx_gas p) /\
          g <= tx_gas p /\
          6 * g - 8 <= 5 * tx_gas p <= 6 * g + 2).
Proof.
  intros World C s amount min_out p Hin. apply In_builds in Hin.
  destruct (execute_swap_paths s)
    as [[Hnone _] | (a & m & q & s4 & r & w6 & pre & Hbuilt & _ & Hone & _)].
  { rewrite Hnone in Hin. destruct Hin. }
  rewrite Hone in Hin. destruct Hin as [Heq | []].
  injection Heq as -> -> ->.
  exists s4, r, w6, pre. split; [exact Hbuilt |].
  intros g -> Hsmall.
  destruct Hbuilt as (eth & w3 & t4 & w5 & _ & _ & _ & _ & _ & _ & Hp & _).
  destruct (buffered_gas_limit_bounds g Hsmall)
    as (scaled & limit & Hscaled & Hint & Hbounds).
  assert (Hbuf : buffered g = inr limit).
  { unfold buffered. rewrite Hscaled. exact Hint. }
  assert (Hgas : tx_gas p = limit).
  { rewrite Hp. cbn [tx_gas gas_limit_for]. rewrite Hbuf. reflexivity. }
  rewrite Hgas. split; [exact Hbuf | exact Hbounds].
Qed.

Lemma gas_limit_is_the_estimate_plus_a_fifth_witness :
  exists s4 r w6 pre,
    built_by (mkSt default_bot happy_chain) (10 ^ 18) 2375000000
      (mkTxParams "0xAccount"%string (10 ^ 18) 120000 (30 * 10 ^ 9) 7)
      s4 r w6 pre /\
    (forall g,
        r = inr g ->
        0 <= g < 2 ^ 52 ->
        buffered g = inr 120000 /\
        g <= 120000 /\
        6 * g - 8 <= 5 * 120000 <= 6 * g + 2).
Proof.
  apply (gas_limit_is_the_estimate_plus_a_fifth Script Script_Chain
           (mkSt default_bot happy_chain) (10 ^ 18) 2375000000
           (mkTxParams "0xAccount"%string (10 ^ 18) 120000 (30 * 10 ^ 9) 7)).
  vm_compute. tauto.
Defined.
